(** * SpecTrail core: a shallow embedding of the Rust back end

    The Rust sources embedded here are the ones carried by the repository's
    planning documents:

    - [sanitize_path], [ALLOWED_COMMANDS], [RepoTools::run_command]
      (plans/spectrail-implementation-plan.md, Phase 3);
    - [LlmConfig::from_settings], [LlmClient::chat], [create_run],
      [add_message], [get_all_settings] (Sprint 2: LLM client);
    - [generate_plan], [execute_single_tool], [build_llm_config],
      [truncate_messages], [LlmClient::chat_with_tools] (Sprint 4: plan mode);
    - the seed rows of migrations/002_settings.sql;
    - [read_file], [git_status], [git_diff], [run_tests]
      (plans/spectrail-implementation-plan.md, Phase 3);
    - [repo_tool_schemas], [dispatch_repo_tool] (plans/sprint-3-spec.md);
    - [set_settings] and Settings.tsx (plans/sprint-1-checklist.md);
    - [ensure_system_project_task], [llm_test_connection],
      [llm_simple_chat] (Sprint 2), [generate_plan_command] (Sprint 4);
    - [onPickRepo], [onCreateTask], [onSavePlan] of the pages.

    Strings are byte strings ([string]); [String::len] is [String.length].
    A [HashMap<String, String>] is a [gmap string string].  Everything the
    code reaches outside the process (file system, child processes, HTTP,
    SQLite failures, serde_json) is an explicit oracle or an explicit piece
    of state. *)

From stdpp Require Import base strings gmap list.
From Stdlib Require Import NArith ZArith Ascii String DecimalString Lia.
From Stdlib Require Import PrimFloat.
Open Scope string_scope.
Open Scope list_scope.

Set Warnings "-register-all".

(** ** Results *)

Inductive Result (T E : Type) : Type :=
| Ok (v : T)
| Err (e : E).
Arguments Ok {T E} v.
Arguments Err {T E} e.

Definition is_ok {T E} (r : Result T E) : bool :=
  match r with Ok _ => true | Err _ => false end.

Definition map_err {T E F} (f : E -> F) (r : Result T E) : Result T F :=
  match r with Ok v => Ok v | Err e => Err (f e) end.

(** How a call ends: it comes back with a value, or it panics ([unwrap]
    on an error, a slice off a character boundary), or the fuel that bounds
    a loop of this development ran out before it ended. *)
Inductive Ending (A : Type) : Type :=
| Returned (a : A)
| Panicked
| Unfinished.
Arguments Returned {A} a.
Arguments Panicked {A}.
Arguments Unfinished {A}.

Definition unwrap_or_default (o : option string) : string :=
  match o with Some s => s | None => "" end.

(** The double-quote character, for string constants that contain it. *)
Definition dq : string := String (ascii_of_nat 34) EmptyString.

(** ** serde_json values *)

Module Json.

Inductive Value : Type :=
| Null
| Bool (b : bool)
| Number (n : Z)
| Str (s : string)
| Array (items : list Value)
| Object (fields : list (string * Value)).

Fixpoint assoc (k : string) (fields : list (string * Value)) : option Value :=
  match fields with
  | [] => None
  | (k', v) :: rest => if String.eqb k k' then Some v else assoc k rest
  end.

(** [Value::get(&str)]: field lookup on objects, [None] on anything else. *)
Definition get (v : Value) (k : string) : option Value :=
  match v with
  | Object fields => assoc k fields
  | _ => None
  end.

Definition as_str (v : Value) : option string :=
  match v with Str s => Some s | _ => None end.

Definition as_u64 (v : Value) : option Z :=
  match v with
  | Number n => if (0 <=? n)%Z && (n <? 2 ^ 64)%Z then Some n else None
  | _ => None
  end.

(** [obj.entry(k).or_insert_with(|| v)] on the map of an object. *)
Definition entry_or_insert (k : string) (v : Value)
    (fields : list (string * Value)) : list (string * Value) :=
  match assoc k fields with
  | Some _ => fields
  | None => fields ++ [(k, v)]
  end.

End Json.

(** ** Tool errors (llm/tools.rs) *)

Inductive ToolError : Type :=
| UnknownTool (name : string)
| InvalidArgs (msg : string)
| Execution (msg : string)
| PathTraversal
| DisallowedCommand.

(** ** Path sanitisation (repo_tools, "Safety Architecture") *)

Module PathGuard.

(** [std::path::Component] on Unix (there is no [Prefix] there). *)
Inductive Component : Type :=
| RootDir
| CurDir
| ParentDir
| Normal (name : string).

Definition Component_eqb (a b : Component) : bool :=
  match a, b with
  | RootDir, RootDir | CurDir, CurDir | ParentDir, ParentDir => true
  | Normal x, Normal y => String.eqb x y
  | _, _ => false
  end.

(** A [PathBuf] is kept as its component sequence. *)
Definition PathBuf : Type := list Component.

(** Splitting at the separator: the pieces between the slashes. *)
Fixpoint split_slash (s : string) (cur : string) : list string :=
  match s with
  | EmptyString => [cur]
  | String c rest =>
      if Ascii.eqb c "/"%char
      then cur :: split_slash rest ""
      else split_slash rest (cur ++ String c EmptyString)%string
  end.

Definition has_root (s : string) : bool :=
  match s with
  | String c _ => Ascii.eqb c "/"%char
  | EmptyString => false
  end.

(** Pieces after the first: empty pieces and [.] disappear. *)
Definition piece_component (p : string) : list Component :=
  if String.eqb p "" then []
  else if String.eqb p "." then []
  else if String.eqb p ".." then [ParentDir]
  else [Normal p].

(** [Path::new(s).components()]: a leading [/] gives [RootDir], a leading
    [.] of a relative path gives [CurDir], every other [.] and every empty
    piece is skipped, [..] gives [ParentDir]. *)
Definition components (s : string) : PathBuf :=
  if has_root s
  then RootDir :: List.concat (List.map piece_component (split_slash s ""))
  else
    match split_slash s "" with
    | [] => []
    | p :: ps =>
        (if String.eqb p "." then [CurDir] else piece_component p)
          ++ List.concat (List.map piece_component ps)
    end.

Definition is_parent_dir (c : Component) : bool :=
  match c with ParentDir => true | _ => false end.

Definition is_cur_dir (c : Component) : bool :=
  match c with CurDir => true | _ => false end.

Definition is_absolute (p : PathBuf) : bool :=
  match p with RootDir :: _ => true | _ => false end.

(** [base.join(p)]: an absolute [p] replaces [base]. *)
Definition join (base p : PathBuf) : PathBuf :=
  if is_absolute p then p
  else
    match base with
    | [] => p
    | _ => base ++ List.filter (fun c => negb (is_cur_dir c)) p
    end.

(** [Path::starts_with]: whole components, not characters. *)
Fixpoint starts_with (p base : PathBuf) : bool :=
  match base, p with
  | [], _ => true
  | b :: base', c :: p' => Component_eqb b c && starts_with p' base'
  | _ :: _, [] => false
  end.

(** The components kept by
    [.filter(|c| !matches!(c, Component::ParentDir))]. *)
Definition cleaned (requested : string) : PathBuf :=
  List.filter (fun c => negb (is_parent_dir c)) (components requested).

Section Sanitize.

(** [Path::canonicalize] asks the operating system. *)
Variable canonicalize : PathBuf -> option PathBuf.

Definition sanitize_path (base : PathBuf) (requested : string)
    : Result PathBuf ToolError :=
  let full := join base (cleaned requested) in
  match canonicalize full with
  | None => Err PathTraversal
  | Some canonical =>
      match canonicalize base with
      | None => Err PathTraversal
      | Some canonical_base =>
          if negb (starts_with canonical canonical_base)
          then Err PathTraversal
          else Ok canonical
      end
  end.

End Sanitize.

(** *** A file system to run [canonicalize] on

    Entries are addressed by the names below the root; a symbolic link
    carries its target path. *)
Inductive Node : Type :=
| File
| Dir
| Symlink (target : PathBuf).

Definition FsTable : Type := list (list string * Node).

Fixpoint lookup_node (fs : FsTable) (p : list string) : option Node :=
  match fs with
  | [] => None
  | (q, n) :: rest =>
      if bool_decide (p = q) then Some n else lookup_node rest p
  end.

(** realpath(3): walk the components, following links; [fuel] bounds the
    number of steps (ELOOP). *)
Fixpoint realpath_walk (fuel : nat) (fs : FsTable) (stack : list string)
    (todo : PathBuf) : option (list string) :=
  match fuel with
  | O => None
  | S fuel' =>
      match todo with
      | [] => Some stack
      | RootDir :: rest => realpath_walk fuel' fs [] rest
      | CurDir :: rest => realpath_walk fuel' fs stack rest
      | ParentDir :: rest => realpath_walk fuel' fs (removelast stack) rest
      | Normal n :: rest =>
          match lookup_node fs (stack ++ [n]) with
          | None => None
          | Some Dir => realpath_walk fuel' fs (stack ++ [n]) rest
          | Some File =>
              match rest with
              | [] => Some (stack ++ [n])
              | _ => None
              end
          | Some (Symlink t) => realpath_walk fuel' fs stack (t ++ rest)
          end
      end
  end.

Definition realpath (fs : FsTable) (p : PathBuf) : option PathBuf :=
  match realpath_walk 64 fs [] p with
  | Some names => Some (RootDir :: List.map Normal names)
  | None => None
  end.

(** A repository at [/repo], a file outside it, and a link that leaves. *)
Definition demo_fs : FsTable :=
  [ (["repo"], Dir);
    (["repo"; "README.md"], File);
    (["repo"; "src"], Dir);
    (["repo"; "src"; "main.rs"], File);
    (["repo"; "out"], Symlink [RootDir; Normal "etc"]);
    (["etc"], Dir);
    (["etc"; "passwd"], File) ].

Definition demo_root : PathBuf := [RootDir; Normal "repo"].

End PathGuard.


(** ** Command runner (repo_tools/runner.rs) *)

Module Runner.

Definition ALLOWED_COMMANDS : list string :=
  [ "npm test";
    "pnpm test";
    "yarn test";
    "cargo test";
    "pytest";
    "python -m pytest";
    "npm run lint";
    "pnpm lint";
    "cargo clippy";
    "cargo build";
    "npm run build";
    "pnpm build" ].

(** [char::is_whitespace] is the Unicode property White_Space.  A [str]
    is UTF-8, so a white-space character is one byte (U+0009 to U+000D,
    U+0020), two bytes (U+0085, U+00A0) or three (U+1680, U+2000 to U+200A,
    U+2028, U+2029, U+202F, U+205F, U+3000). *)
Definition is_whitespace (c : ascii) : bool :=
  let n := nat_of_ascii c in
  (n =? 32)%nat || ((9 <=? n)%nat && (n <=? 13)%nat).

Definition is_whitespace2 (c1 c2 : ascii) : bool :=
  let b := nat_of_ascii c2 in
  (nat_of_ascii c1 =? 194)%nat && ((b =? 133)%nat || (b =? 160)%nat).

Definition is_whitespace3 (c1 c2 c3 : ascii) : bool :=
  let a := nat_of_ascii c1 in
  let b := nat_of_ascii c2 in
  let c := nat_of_ascii c3 in
  ((a =? 225)%nat && (b =? 154)%nat && (c =? 128)%nat)
  || ((a =? 226)%nat && (b =? 128)%nat
      && (((128 <=? c)%nat && (c <=? 138)%nat)
          || (c =? 168)%nat || (c =? 169)%nat || (c =? 175)%nat))
  || ((a =? 226)%nat && (b =? 129)%nat && (c =? 159)%nat)
  || ((a =? 227)%nat && (b =? 128)%nat && (c =? 128)%nat).

(** The first bytes of the white-space characters that take more than one
    byte. *)
Definition is_lead (c : ascii) : bool :=
  existsb (Nat.eqb (nat_of_ascii c)) [194; 225; 226; 227]%nat.

(** The number of bytes of the white-space character that begins with [c]
    and goes on in [rest]; 0 when no white-space character begins there. *)
Definition white_space_width (c : ascii) (rest : string) : nat :=
  if is_whitespace c then 1
  else if is_lead c then
    match rest with
    | String c2 rest2 =>
        if is_whitespace2 c c2 then 2
        else
          match rest2 with
          | String c3 _ => if is_whitespace3 c c2 c3 then 3 else 0
          | EmptyString => 0
          end
    | EmptyString => 0
    end
  else 0.

Definition flush (cur : string) : list string :=
  if String.eqb cur "" then [] else [cur].

(** [str::split_whitespace]: the maximal runs of characters that are not
    white space.  [skip] counts the bytes still to pass of a white-space
    character that has begun. *)
Fixpoint split_ws (s : string) (cur : string) (skip : nat) : list string :=
  match s with
  | EmptyString => flush cur
  | String c rest =>
      match skip with
      | S k => split_ws rest cur k
      | O =>
          match white_space_width c rest with
          | O => split_ws rest (cur ++ String c EmptyString)%string 0
          | S k => flush cur ++ split_ws rest "" k
          end
      end
  end.

Definition split_whitespace (s : string) : list string := split_ws s "" 0.

(** What [tokio::process::Command] is asked to start. *)
Record Spawn : Type := mkSpawn {
  program : string;
  argv : list string;
  current_dir : string;
  kill_on_drop : bool;
  timeout_secs : Z
}.

(** [std::process::Output], already decoded by [from_utf8_lossy]. *)
Record Output : Type := mkOutput {
  success : bool;
  exit_code : option Z;
  stdout : string;
  stderr : string
}.

(** The operating system: every process the code starts is recorded in
    [spawned]; [os_output] says what [.output().await] gives for it. *)
Record Os : Type := mkOs {
  spawned : list Spawn;
  os_output : Spawn -> Result Output string
}.

Definition spawn (sp : Spawn) (os : Os) : Result Output string * Os :=
  (os_output os sp, mkOs (spawned os ++ [sp]) (os_output os)).

Definition output_json (o : Output) : Json.Value :=
  Json.Object
    [ ("success", Json.Bool (success o));
      ("exit_code",
        match exit_code o with
        | Some c => Json.Number c
        | None => Json.Null
        end);
      ("stdout", Json.Str (stdout o));
      ("stderr", Json.Str (stderr o)) ].

(** [RepoTools::run_command]. *)
Definition run_command (repo_path : string) (args : Json.Value) (os : Os)
    : Result Json.Value ToolError * Os :=
  match Json.get args "command" ≫= Json.as_str with
  | None => (Err (InvalidArgs "command required"), os)
  | Some command =>
      if negb (existsb (fun allowed => String.prefix allowed command)
                 ALLOWED_COMMANDS)
      then (Err DisallowedCommand, os)
      else
        let timeout_secs :=
          match Json.get args "timeout_secs" ≫= Json.as_u64 with
          | Some t => t
          | None => 120%Z
          end in
        match split_whitespace command with
        | [] => (Err (InvalidArgs "empty command"), os)
        | program :: rest =>
            match spawn (mkSpawn program rest repo_path true timeout_secs) os with
            | (Err e, os') => (Err (Execution e), os')
            | (Ok out, os') => (Ok (output_json out), os')
            end
        end
  end.

(** The exact commands of the allow-list, as (program, arguments). *)
Definition allowed_argv : list (list string) :=
  List.map split_whitespace ALLOWED_COMMANDS.

Definition quiet_os : Os :=
  mkOs [] (fun _ => Ok (mkOutput true (Some 0%Z) "" "")).

End Runner.

(** ** serde and number parsing, as far as the code uses them *)

(** [str::parse::<i64>]: an optional sign, then decimal digits only. *)
Definition digit_value (c : ascii) : option Z :=
  let n := nat_of_ascii c in
  if (48 <=? n)%nat && (n <=? 57)%nat then Some (Z.of_nat n - 48)%Z else None.

Fixpoint parse_digits (s : string) (acc : Z) : option Z :=
  match s with
  | EmptyString => Some acc
  | String c rest =>
      match digit_value c with
      | Some d => parse_digits rest (acc * 10 + d)%Z
      | None => None
      end
  end.

Definition parse_i64 (s : string) : option Z :=
  let '(neg, body) :=
    match s with
    | String c rest =>
        if Ascii.eqb c "-"%char then (true, rest)
        else if Ascii.eqb c "+"%char then (false, rest)
        else (false, s)
    | EmptyString => (false, s)
    end in
  if String.eqb body "" then None
  else
    match parse_digits body 0 with
    | None => None
    | Some n =>
        let v := if neg then (- n)%Z else n in
        if (- 2 ^ 63 <=? v)%Z && (v <? 2 ^ 63)%Z then Some v else None
    end.

(** The library routines the code calls and this development does not
    re-implement: [str::parse::<f64>] (an [f64] is a binary64 [float]; the
    parse also accepts [NaN], [inf] and literals that overflow),
    [serde_json::from_str] and [Value::to_string]. *)
Record Serde : Type := mkSerde {
  parse_f64 : string -> option float;
  from_str : string -> Result Json.Value string;
  to_string : Json.Value -> string
}.

(** ** Settings: migration 002 and the LLM configuration *)

Module Settings.

Record Row : Type := mkRow {
  value : string;
  updated_at : string
}.

(** The rows of [INSERT OR IGNORE INTO settings ... VALUES ...]. *)
Definition seed_rows : list (string * string) :=
  [ ("provider_name", "openai");
    ("base_url", "https://openrouter.ai/api/v1");
    ("model", "z-ai/glm-4.7-flash");
    ("temperature", "0.2");
    ("max_tokens", "2000");
    ("extra_headers_json", "{}");
    ("dev_mode", "0") ].

(** [INSERT OR IGNORE]: a row whose key exists is left alone. *)
Definition insert_or_ignore (now : string) (tbl : gmap string Row)
    (kv : string * string) : gmap string Row :=
  match tbl !! kv.1 with
  | Some _ => tbl
  | None => <[kv.1 := mkRow kv.2 now]> tbl
  end.

(** 002_settings.sql applied to the settings table at time [now]. *)
Definition migration_002 (now : string) (tbl : gmap string Row)
    : gmap string Row :=
  foldl (insert_or_ignore now) tbl seed_rows.

(** [get_all_settings]: [SELECT key, value FROM settings] into a map. *)
Definition get_all_settings (tbl : gmap string Row) : gmap string string :=
  value <$> tbl.

Record LlmConfig : Type := mkLlmConfig {
  provider_name : string;
  base_url : string;
  model : string;
  temperature : float;
  max_tokens : Z;
  extra_headers : Json.Value
}.

Definition ok {T E} (r : Result T E) : option T :=
  match r with Ok v => Some v | Err _ => None end.

(** The literals [0.2] and [0.7] of the source, as the binary64 values
    they denote. *)
Definition f64_0_2 : float := 0x1.999999999999ap-3%float.
Definition f64_0_7 : float := 0x1.6666666666666p-1%float.

(** [LlmConfig::from_settings] (llm/types.rs). *)
Definition from_settings (sd : Serde) (settings : gmap string string)
    : LlmConfig :=
  {| provider_name := unwrap_or_default (settings !! "provider_name");
     base_url := unwrap_or_default (settings !! "base_url");
     model := unwrap_or_default (settings !! "model");
     temperature :=
       default f64_0_7 (settings !! "temperature" ≫= parse_f64 sd);
     max_tokens :=
       default 4096%Z (settings !! "max_tokens" ≫= parse_i64);
     extra_headers :=
       default (Json.Object [])
         (settings !! "extra_headers_json" ≫= (fun s => ok (from_str sd s)))
  |}.

(** [build_llm_config] (workflows/plan.rs). *)
Definition build_llm_config (sd : Serde) (settings : gmap string string)
    : LlmConfig :=
  {| provider_name := unwrap_or_default (settings !! "provider_name");
     base_url := unwrap_or_default (settings !! "base_url");
     model := unwrap_or_default (settings !! "model");
     temperature :=
       default f64_0_2 (settings !! "temperature" ≫= parse_f64 sd);
     max_tokens :=
       default 4000%Z (settings !! "max_tokens" ≫= parse_i64);
     extra_headers :=
       default (Json.Object [])
         (settings !! "extra_headers_json" ≫= (fun s => ok (from_str sd s)))
  |}.

(** [get_llm_config]. *)
Definition get_llm_config (sd : Serde) (tbl : gmap string Row) : LlmConfig :=
  from_settings sd (get_all_settings tbl).

(** The defaults of the specification's configuration table. *)
Definition documented_base_url : string := "https://api.openai.com/v1".
Definition documented_model : string := "gpt-4o".

End Settings.

(** ** The backoff crate: [ExponentialBackoff] and [future::retry]

    Times are milliseconds.  The random factor the crate draws for each
    wait is an oracle (per mille, read modulo 1000); so is the time an
    attempt takes. *)

Module Backoff.

Inductive Error (E : Type) : Type :=
| Permanent (e : E)
| Transient (err : E) (retry_after : option N).
Arguments Permanent {E} e.
Arguments Transient {E} err retry_after.

Record ExponentialBackoff : Type := mkBackoff {
  current_interval : N;
  initial_interval : N;
  randomization_factor : N;   (* per mille *)
  multiplier : N;             (* per mille *)
  max_interval : N;
  max_elapsed_time : option N
}.

(** [ExponentialBackoff::default()]. *)
Definition default_backoff : ExponentialBackoff :=
  {| current_interval := 500;
     initial_interval := 500;
     randomization_factor := 500;
     multiplier := 1500;
     max_interval := 60000;
     max_elapsed_time := Some 900000%N |}.

Definition get_random_value_from_interval
    (randomization_factor random current_interval : N) : N :=
  let delta := (randomization_factor * current_interval / 1000)%N in
  let min_interval := (current_interval - delta)%N in
  let max_interval := (current_interval + delta)%N in
  let diff := (max_interval - min_interval)%N in
  (min_interval + (random mod 1000) * (diff + 1) / 1000)%N.

Definition increment_current_interval (b : ExponentialBackoff) : N :=
  if (max_interval b * 1000 / multiplier b <=? current_interval b)%N
  then max_interval b
  else (current_interval b * multiplier b / 1000)%N.

Definition set_current (b : ExponentialBackoff) (i : N) : ExponentialBackoff :=
  {| current_interval := i;
     initial_interval := initial_interval b;
     randomization_factor := randomization_factor b;
     multiplier := multiplier b;
     max_interval := max_interval b;
     max_elapsed_time := max_elapsed_time b |}.

(** [next_backoff]: the wait before the next attempt, or [None] when the
    time budget is used up; [elapsed] is the time since [retry] began. *)
Definition next_backoff (b : ExponentialBackoff) (elapsed random : N)
    : option N * ExponentialBackoff :=
  match max_elapsed_time b with
  | Some v =>
      if (v <? elapsed)%N then (None, b)
      else
        let randomized :=
          get_random_value_from_interval
            (randomization_factor b) random (current_interval b) in
        let b' := set_current b (increment_current_interval b) in
        if (elapsed + randomized <=? v)%N then (Some randomized, b')
        else (None, b')
  | None =>
      (Some (get_random_value_from_interval
               (randomization_factor b) random (current_interval b)),
       set_current b (increment_current_interval b))
  end.

(** How a run of [retry] ended: the result, the number of times the
    operation was started, and the time it took. *)
Record Outcome (T E : Type) : Type := mkOutcome {
  result : Result T E;
  attempts : nat;
  elapsed_ms : N
}.
Arguments mkOutcome {T E} result attempts elapsed_ms.
Arguments result {T E} _.
Arguments attempts {T E} _.
Arguments elapsed_ms {T E} _.

Section Retry.
Context {T E : Type}.
(** The operation, by attempt number ([None]: it panicked); the time each
    attempt takes; the random draws. *)
Variable operation : nat -> option (Result T (Error E)).
Variable latency : nat -> N.
Variable random : nat -> N.

(** The loop of [future::retry]: a panic of the operation goes through
    it; [Unfinished] only when [fuel] runs out. *)
Fixpoint retry_loop (fuel : nat) (attempt : nat) (elapsed : N)
    (b : ExponentialBackoff) : Ending (Outcome T E) :=
  match fuel with
  | O => Unfinished
  | S fuel' =>
      let elapsed1 := (elapsed + latency attempt)%N in
      match operation attempt with
      | None => Panicked
      | Some (Ok v) => Returned (mkOutcome (Ok v) (S attempt) elapsed1)
      | Some (Err (Permanent e)) =>
          Returned (mkOutcome (Err e) (S attempt) elapsed1)
      | Some (Err (Transient e retry_after)) =>
          let '(wait, b') :=
            match retry_after with
            | Some d => (Some d, b)
            | None => next_backoff b elapsed1 (random attempt)
            end in
          match wait with
          | None => Returned (mkOutcome (Err e) (S attempt) elapsed1)
          | Some d => retry_loop fuel' (S attempt) (elapsed1 + d)%N b'
          end
      end
  end.

(** [retry(backoff, operation)]: the policy is reset, then the loop. *)
Definition retry (fuel : nat) (b : ExponentialBackoff)
    : Ending (Outcome T E) :=
  retry_loop fuel 0 0%N (set_current b (initial_interval b)).

End Retry.

(** An operation that does not panic and asks for no wait of its own. *)
Definition plain {T E : Type} (op : nat -> option (Result T (Error E)))
    : Prop :=
  forall a,
    exists r, op a = Some r /\ forall e d, r <> Err (Transient e (Some d)).

End Backoff.

(** ** Types for LLM tool calling (workflows/plan.rs) *)

Module PlanTypes.

Record ToolFunction : Type := mkToolFunction {
  name : string;
  arguments : string
}.

Record ToolCall : Type := mkToolCall {
  id : string;
  function : ToolFunction
}.

Record LlmResponse : Type := mkLlmResponse {
  content : option string;
  tool_calls : option (list ToolCall)
}.

End PlanTypes.

(** ** The chat-completions client (llm/types.rs, llm/client.rs) *)

Module Llm.

Import Settings.

(** *** Wire types *)

(** Sprint 2 message: role and text. *)
Record ChatMessage : Type := mkChatMessage {
  role : string;    (* "system", "user", "assistant" *)
  content : string
}.

Record ToolFunction : Type := mkToolFunction {
  name : string;
  arguments : string
}.

(** [ToolCall] of llm/types.rs (with [call_type], serde name [type]). *)
Record WireToolCall : Type := mkWireToolCall {
  wire_id : string;
  call_type : string;
  wire_function : ToolFunction
}.

(** Sprint 4 message: optional text, tool calls, tool-call id. *)
Record ToolChatMessage : Type := mkToolChatMessage {
  t_role : string;
  t_content : option string;
  t_tool_calls : option (list WireToolCall);
  t_tool_call_id : option string
}.

Record OpenAIChatRequest (Msg : Type) : Type := mkRequest {
  req_model : string;
  req_messages : list Msg;
  req_tools : option (list Json.Value);
  req_temperature : option float;
  req_max_tokens : option Z;
  req_stream : bool
}.
Arguments mkRequest {Msg}.

Record Choice (Msg : Type) : Type := mkChoice {
  index : Z;
  message : Msg;
  finish_reason : string
}.
Arguments mkChoice {Msg}.
Arguments message {Msg} _.

Record OpenAIChatResponse (Msg : Type) : Type := mkResponse {
  resp_id : string;
  resp_model : string;
  choices : list (Choice Msg)
}.
Arguments mkResponse {Msg}.
Arguments choices {Msg} _.

Inductive LlmError : Type :=
| MissingApiKey
| Http (e : string)
| Api (status : N) (message : string)
| InvalidResponse (msg : string)
| Timeout
| RateLimited.

Definition N_to_string (n : N) : string :=
  NilZero.string_of_uint (N.to_uint n).

(** The [Display] text of [#[error(...)]]. *)
Definition LlmError_to_string (e : LlmError) : string :=
  match e with
  | MissingApiKey =>
      "Missing API key. Set SPECTRAIL_API_KEY environment variable or configure keychain storage."
  | Http e => ("HTTP error: " ++ e)%string
  | Api status message =>
      ("API error " ++ N_to_string status ++ ": " ++ message)%string
  | InvalidResponse msg => ("Invalid response: " ++ msg)%string
  | Timeout => "Timeout"
  | RateLimited => "Rate limited"
  end.

(** *** HTTP *)

Record HttpRequest (Body : Type) : Type := mkHttpRequest {
  url : string;
  headers : list (string * string);
  body : Body
}.
Arguments mkHttpRequest {Body}.

(** A reply: the status line, what [.json()] decodes the body to and
    what [.text()] reads it as. *)
Record HttpReply (Resp : Type) : Type := mkHttpReply {
  status : N;
  json : Result Resp string;
  text : Result string string
}.
Arguments mkHttpReply {Resp}.
Arguments status {Resp} _.
Arguments json {Resp} _.
Arguments text {Resp} _.

(** The network: [send] answers the n-th request or fails in transport;
    [latency] is the time the n-th attempt takes, [random] the draws of
    the backoff policy. *)
Record Network (Body Resp : Type) : Type := mkNetwork {
  send : nat -> HttpRequest Body -> Result (HttpReply Resp) string;
  latency : nat -> N;
  random : nat -> N
}.
Arguments mkNetwork {Body Resp}.
Arguments send {Body Resp} _.
Arguments latency {Body Resp} _.
Arguments random {Body Resp} _.

(** [StatusCode::is_success]. *)
Definition is_success (status : N) : bool :=
  (200 <=? status)%N && (status <? 300)%N.

(** [str::trim_end_matches('/')]. *)
Fixpoint trim_end_slashes (s : string) : string :=
  match s with
  | EmptyString => EmptyString
  | String c rest =>
      match trim_end_slashes rest with
      | EmptyString =>
          if Ascii.eqb c "/"%char then EmptyString
          else String c EmptyString
      | rest' => String c rest'
      end
  end.

(** Header names are tokens, kept in lower case; values are visible
    ASCII, blanks and tabs. *)
Definition lower (c : ascii) : ascii :=
  let n := nat_of_ascii c in
  if (65 <=? n)%nat && (n <=? 90)%nat then ascii_of_nat (n + 32) else c.

Fixpoint lowercase (s : string) : string :=
  match s with
  | EmptyString => EmptyString
  | String c rest => String (lower c) (lowercase rest)
  end.

Fixpoint string_forallb (p : ascii -> bool) (s : string) : bool :=
  match s with
  | EmptyString => true
  | String c rest => p c && string_forallb p rest
  end.

Definition is_tchar (c : ascii) : bool :=
  let n := nat_of_ascii c in
  ((48 <=? n)%nat && (n <=? 57)%nat)
  || ((65 <=? n)%nat && (n <=? 90)%nat)
  || ((97 <=? n)%nat && (n <=? 122)%nat)
  || existsb (Nat.eqb n) [33; 35; 36; 37; 38; 39; 42; 43; 45; 46; 94; 95; 96; 124; 126]%nat.

Definition header_name_from_bytes (k : string) : option string :=
  if negb (String.eqb k "") && string_forallb is_tchar k
  then Some (lowercase k) else None.

Definition is_value_char (c : ascii) : bool :=
  let n := nat_of_ascii c in
  (n =? 9)%nat || ((32 <=? n)%nat && negb (n =? 127)%nat).

Definition header_value_parse (v : string) : option string :=
  if string_forallb is_value_char v then Some v else None.

(** [HeaderMap::insert]: one value per name, the new one wins. *)
Definition header_insert (k v : string) (h : list (string * string))
    : list (string * string) :=
  if existsb (fun kv => String.eqb kv.1 k) h
  then List.map (fun kv => if String.eqb kv.1 k then (k, v) else kv) h
  else h ++ [(k, v)].

Definition add_extra_header (h : list (string * string))
    (kv : string * Json.Value) : list (string * string) :=
  match Json.as_str kv.2 with
  | Some val_str =>
      match header_name_from_bytes kv.1, header_value_parse val_str with
      | Some header_name, Some header_value =>
          header_insert header_name header_value h
      | _, _ => h
      end
  | None => h
  end.

Record LlmClient : Type := mkLlmClient {
  config : LlmConfig;
  api_key : string
}.

(** [LlmClient::new]. *)
Definition new (config : LlmConfig) (api_key : string) : LlmClient :=
  mkLlmClient config api_key.

(** The header map of a request: the two fixed headers, then the extra
    ones.  The bearer value is [format!("Bearer {}", key).parse().unwrap()];
    the map exists when that parse succeeds, which [operation] checks. *)
Definition request_headers (self : LlmClient) : list (string * string) :=
  let headers :=
    header_insert "content-type" "application/json"
      (header_insert "authorization" ("Bearer " ++ api_key self)%string []) in
  match extra_headers (config self) with
  | Json.Object obj => foldl add_extra_header headers obj
  | _ => headers
  end.

(** Which errors of the closure [retry] is to take as permanent.  [retry]
    wants [Result<_, backoff::Error<LlmError>>]; the closure of [chat]
    returns plain [LlmError]s, and the source has no conversion between the
    two (as written the call does not type-check).  The choice is therefore
    a parameter of the client, and nothing is assumed about it. *)
Definition Classifier : Type := LlmError -> bool.

Definition classify (permanent : Classifier) (e : LlmError)
    : Backoff.Error LlmError :=
  if permanent e then Backoff.Permanent e else Backoff.Transient e None.

Section Client.
Context {Msg : Type}.
Variable http : Network (OpenAIChatRequest Msg) (OpenAIChatResponse Msg).
Variable permanent : Classifier.
Variable self : LlmClient.

Definition chat_url : string :=
  (trim_end_slashes (base_url (config self)) ++ "/chat/completions")%string.

(** The closure [operation] of [chat]: the headers are built ([None] is
    the panic of [unwrap] on a key that is no header value), then one
    request is sent and its answer classified. *)
Definition operation (request : OpenAIChatRequest Msg) (attempt : nat)
    : option (Result (OpenAIChatResponse Msg) LlmError) :=
  match header_value_parse ("Bearer " ++ api_key self)%string with
  | None => None
  | Some _ =>
      Some
        match send http attempt
                (mkHttpRequest chat_url (request_headers self) request) with
        | Err e => Err (Http e)
        | Ok response =>
            let status := status response in
            if is_success status then
              match json response with
              | Ok chat_response => Ok chat_response
              | Err e => Err (Http e)
              end
            else
              let error_text :=
                match text response with Ok t => t | Err _ => "" end in
              if (status =? 429)%N then Err RateLimited
              else if (status =? 401)%N then Err (Api 401 "Invalid API key")
              else if (500 <=? status)%N then Err (Api status error_text)
              else Err (Api status error_text)
        end
  end.

(** The policy built in [chat]. *)
Definition backoff : Backoff.ExponentialBackoff :=
  {| Backoff.current_interval := Backoff.current_interval Backoff.default_backoff;
     Backoff.initial_interval := 500;
     Backoff.randomization_factor :=
       Backoff.randomization_factor Backoff.default_backoff;
     Backoff.multiplier := Backoff.multiplier Backoff.default_backoff;
     Backoff.max_interval := 4000;
     Backoff.max_elapsed_time := Some 30000%N |}.

(** [retry(backoff, operation)]. *)
Definition send_with_retry (fuel : nat) (request : OpenAIChatRequest Msg)
    : Ending (Backoff.Outcome (OpenAIChatResponse Msg) LlmError) :=
  Backoff.retry
    (fun attempt =>
       option_map (map_err (classify permanent)) (operation request attempt))
    (latency http) (random http) fuel backoff.

End Client.

(** Enough fuel for the policy of [chat]: every wait is at least 250 ms
    and the waits end after 30 s. *)
Definition retry_fuel : nat := 128.

(** [LlmClient::chat]. *)
Definition chat (http : Network (OpenAIChatRequest ChatMessage)
                                (OpenAIChatResponse ChatMessage))
    (permanent : Classifier) (self : LlmClient) (messages : list ChatMessage)
    : Ending (Result string LlmError) :=
  if String.eqb (api_key self) "" then Returned (Err MissingApiKey)
  else
    let request :=
      mkRequest (model (config self)) messages None
        (Some (temperature (config self)))
        (Some (max_tokens (config self))) false in
    match send_with_retry http permanent self retry_fuel request with
    | Unfinished => Unfinished
    | Panicked => Panicked
    | Returned out =>
        match Backoff.result out with
        | Err e => Returned (Err e)
        | Ok result =>
            match choices result with
            | c :: _ => Returned (Ok (content (message c)))
            | [] => Returned (Err (InvalidResponse "No choices in response"))
            end
        end
    end.

(** [LlmClient::chat_with_tools]: the request carries the tool schemas;
    url, headers, operation and policy are those of [chat] ("existing
    request building code"). *)
Definition chat_with_tools
    (http : Network (OpenAIChatRequest ToolChatMessage)
                    (OpenAIChatResponse ToolChatMessage))
    (permanent : Classifier) (self : LlmClient)
    (messages : list ToolChatMessage) (tools : list Json.Value)
    : Ending (Result PlanTypes.LlmResponse LlmError) :=
  let request :=
    mkRequest (model (config self)) messages (Some tools)
      (Some (temperature (config self)))
      (Some (max_tokens (config self))) false in
  match send_with_retry http permanent self retry_fuel request with
  | Unfinished => Unfinished
  | Panicked => Panicked
  | Returned out =>
      match Backoff.result out with
      | Err e => Returned (Err e)
      | Ok response =>
          match choices response with
          | choice :: _ =>
              Returned (Ok
                {| PlanTypes.content := t_content (message choice);
                   PlanTypes.tool_calls :=
                     option_map
                       (List.map (fun tc =>
                          {| PlanTypes.id := wire_id tc;
                             PlanTypes.function :=
                               {| PlanTypes.name := name (wire_function tc);
                                  PlanTypes.arguments :=
                                    arguments (wire_function tc) |} |}))
                       (t_tool_calls (message choice)) |})
          | [] => Returned (Err (InvalidResponse "No choices in response"))
          end
      end
  end.

(** [test_connection]. *)
Definition test_connection http (permanent : Classifier) (self : LlmClient)
    : Ending (Result string LlmError) :=
  chat http permanent self
    [mkChatMessage "user" "Say 'OK' and nothing else."].

End Llm.

(** ** Plan mode (workflows/plan.rs) *)

Module Plan.

Import PlanTypes.

Local Infix "+:+" := String.append (at level 60, right associativity).

Definition MAX_TOOL_ITERATIONS : nat := 12.
Definition MAX_CONTEXT_CHARS : N := 100000.

Record PlanResult : Type := mkPlanResult {
  run_id : string;
  plan_md : string;
  tool_calls_count : nat;
  truncated : bool
}.

Record PlanError : Type := mkPlanError {
  code : string;
  message : string
}.

(** [ChatMessage] as the loop builds it. *)
Record ChatMessage : Type := mkChatMessage {
  role : string;
  content : option string;
  tool_call_id : option string;
  tool_calls : option (list ToolCall)
}.

(** *** Rows of the run log (001_init.sql, models.rs) *)

Record Project : Type := mkProject {
  project_id : string;
  project_name : string;
  repo_path : string
}.

Record Task : Type := mkTask {
  task_id : string;
  task_project_id : string;
  title : string;
  mode : string;
  task_status : string
}.

Record Run : Type := mkRun {
  r_id : string;
  r_task_id : string;
  r_phase_id : option string;
  run_type : string;
  provider : option string;
  r_model : option string;
  started_at : string;
  ended_at : option string
}.

Record MessageRow : Type := mkMessageRow {
  m_id : string;
  m_run_id : string;
  m_role : string;
  m_content : string;
  m_created_at : string
}.

Record Artifact : Type := mkArtifact {
  a_id : string;
  a_task_id : string;
  a_phase_id : option string;
  kind : string;
  a_content : string;
  a_created_at : string;
  pinned : bool
}.

(** The database file, and what the provider has been sent so far. *)
Record World : Type := mkWorld {
  settings : gmap string Settings.Row;
  runs : list Run;
  messages : list MessageRow;
  artifacts : list Artifact;
  clock : nat;
  requests : list (list ChatMessage)
}.

(** Everything [generate_plan] is handed or calls that is not in this
    file: the commands [get_task], [get_project] and [execute_repo_tool],
    the tool schemas, the environment variable, the provider behind
    [LlmClient::chat_with_tools] (by request number), [new_id] and
    [now_iso].  [db_error n] is the message with which SQLite refuses what
    is asked of it at time [n]; the clock of the world advances with every
    write statement, and a read is made at the time of the write that
    follows it.  [refuses_reads e] tells whether a refusal with message [e]
    hits reads as well: a database that cannot be opened refuses
    everything, one that is read-only or full refuses writes only.
    [settings_error] is how plan.rs turns a failed read of the settings
    into a [PlanError], which the source leaves out. *)
Record Env : Type := mkEnv {
  serde : Serde;
  get_task : string -> Result Task string;
  get_project : string -> Result Project string;
  get_repo_tool_schemas : list Json.Value;
  SPECTRAIL_API_KEY : option string;
  chat_with_tools :
    nat -> Settings.LlmConfig -> string -> list ChatMessage ->
    list Json.Value -> Result LlmResponse Llm.LlmError;
  execute_repo_tool :
    nat -> string -> string -> string -> Json.Value ->
    Result Json.Value string;
  db_error : nat -> option string;
  refuses_reads : string -> bool;
  settings_error : string -> PlanError;
  new_id : nat -> string;
  now_iso : nat -> string
}.

(** *** State and errors *)

Definition M (E A : Type) : Type := World -> Result A E * World.

Definition ret {E A} (a : A) : M E A := fun w => (Ok a, w).

Definition fail {E A} (e : E) : M E A := fun w => (Err e, w).

Definition bind {E A B} (m : M E A) (k : A -> M E B) : M E B :=
  fun w =>
    match m w with
    | (Ok a, w') => k a w'
    | (Err e, w') => (Err e, w')
    end.

Definition lift {E A} (r : Result A E) : M E A := fun w => (r, w).

(** [.map_err(f)] on an action. *)
Definition map_err_m {E F A} (f : E -> F) (m : M E A) : M F A :=
  fun w => let '(r, w') := m w in (map_err f r, w').

(** [.ok()] on an action: the error is dropped. *)
Definition ignore_err {E F A} (m : M E A) : M F unit :=
  fun w => let '(_, w') := m w in (Ok tt, w').

Notation "x <- m ;; k" := (bind m (fun x => k))
  (at level 100, m at next level, right associativity).
Notation "m ;;; k" := (bind m (fun _ => k))
  (at level 100, right associativity).

Definition tick (w : World) : World :=
  mkWorld (settings w) (runs w) (messages w) (artifacts w) (S (clock w))
    (requests w).

Section WithEnv.

Variable env : Env.

(** [add_message] (commands.rs): one INSERT into [messages]. *)
Definition add_message (run_id role content : string) : M string unit :=
  fun w =>
    let n := clock w in
    match db_error env n with
    | Some e => (Err e, tick w)
    | None =>
        (Ok tt,
         mkWorld (settings w) (runs w)
           (messages w ++
              [mkMessageRow (new_id env n) run_id role content (now_iso env n)])
           (artifacts w) (S n) (requests w))
    end.

(** [create_run] (commands.rs): the configuration is read for the
    provider and model columns; the row is inserted with
    [ended_at = NULL].  The read and the insert are asked at the same
    time, and a refusal ends the call with its message whichever of the two
    it hits. *)
Definition create_run (task_id run_type : string) : M string Run :=
  fun w =>
    let config := Settings.get_llm_config (serde env) (settings w) in
    let n := clock w in
    match db_error env n with
    | Some e => (Err e, tick w)
    | None =>
        let run :=
          mkRun (new_id env n) task_id None run_type
            (Some (Settings.provider_name config))
            (Some (Settings.model config))
            (now_iso env n) None in
        (Ok run,
         mkWorld (settings w) (runs w ++ [run]) (messages w) (artifacts w)
           (S n) (requests w))
    end.

(** [create_run_plan]; a panic of the blocking task is not modelled. *)
Definition create_run_plan (task_id : string) : M PlanError Run :=
  map_err_m (fun e => mkPlanError "RUN_CREATE_ERROR" e)
    (create_run task_id "plan").

Definition same_slot (task_id kind : string) (a : Artifact) : bool :=
  String.eqb (a_task_id a) task_id && String.eqb (Plan.kind a) kind.

(** Modelled from the spec: [upsert_artifact] of commands.rs is not
    among the sources.  "Upsert by (task_id, kind): saving a new plan
        replaces the previous one for that task/kind pair"; "the id may be
        reused, but created_at advances". *)
Definition upsert_artifact (task_id : string) (phase_id : option string)
    (kind content : string) : M string unit :=
  fun w =>
    let n := clock w in
    match db_error env n with
    | Some e => (Err e, tick w)
    | None =>
        let arts :=
          if existsb (same_slot task_id kind) (artifacts w)
          then
            List.map (fun a =>
              if same_slot task_id kind a
              then mkArtifact (a_id a) task_id phase_id kind content
                     (now_iso env n) (pinned a)
              else a) (artifacts w)
          else
            artifacts w ++
              [mkArtifact (new_id env n) task_id phase_id kind content
                 (now_iso env n) false] in
        (Ok tt,
         mkWorld (settings w) (runs w) (messages w) arts (S n) (requests w))
    end.

(** The message with which a read made in [w] is refused, if it is. *)
Definition read_error (w : World) : option string :=
  match db_error env (clock w) with
  | Some e => if refuses_reads env e then Some e else None
  | None => None
  end.

(** [get_all_settings]: its body is [todo!()] in plan.rs, "Implementation
        from settings module"; that query is used here.  It fails when
    SQLite refuses the read (connect, prepare or query), and writes
    nothing. *)
Definition get_all_settings : M PlanError (gmap string string) :=
  fun w =>
    match read_error w with
    | Some e => (Err (settings_error env e), w)
    | None => (Ok (Settings.get_all_settings (settings w)), w)
    end.

Definition get_api_key : Result string PlanError :=
  match SPECTRAIL_API_KEY env with
  | Some k => Ok k
  | None =>
      Err (mkPlanError "NO_API_KEY"
             "SPECTRAIL_API_KEY environment variable not set")
  end.

(** [client.chat_with_tools(messages.clone(), tools.clone())]: the
    request is recorded, the provider answers. *)
Definition client_chat_with_tools (config : Settings.LlmConfig)
    (api_key : string) (msgs : list ChatMessage) (tools : list Json.Value)
    : M Llm.LlmError LlmResponse :=
  fun w =>
    (chat_with_tools env (List.length (requests w)) config api_key msgs tools,
     mkWorld (settings w) (runs w) (messages w) (artifacts w) (clock w)
       (requests w ++ [msgs])).

(** [execute_single_tool]. *)
Definition execute_single_tool (run_id project_id : string)
    (tool_call : ToolCall) : M PlanError string :=
  fun w =>
    match from_str (serde env) (arguments (function tool_call)) with
    | Err e =>
        (Err (mkPlanError "INVALID_ARGS"
                ("Failed to parse tool args: " +:+ e)), w)
    | Ok args =>
        let args_with_project :=
          match args with
          | Json.Object obj =>
              Json.Object
                (Json.entry_or_insert "project_id" (Json.Str project_id) obj)
          | _ => args
          end in
        let result :=
          execute_repo_tool env (clock w) run_id project_id
            (name (function tool_call)) args_with_project in
        (match result with
         | Ok val => Ok (to_string (serde env) val)
         | Err e =>
             Ok (to_string (serde env) (Json.Object [("error", Json.Str e)]))
         end, tick w)
    end.

Definition content_len (m : ChatMessage) : N :=
  match content m with
  | Some c => N.of_nat (String.length c)
  | None => 0%N
  end.

Definition context_size (msgs : list ChatMessage) : N :=
  foldr N.add 0%N (List.map content_len msgs).

(** [truncate_messages]; [max_chars] is not used by the body. *)
Definition truncate_messages (msgs : list ChatMessage) (max_chars : N)
    : list ChatMessage :=
  if (List.length msgs <? 3)%nat then msgs
  else
    let system := head msgs in
    let recent := rev (take 6 (rev msgs)) in
    match system with
    | Some sys => [sys] ++ recent
    | None => recent
    end.

(** The body of [for tool_call in tool_calls]. *)
Fixpoint execute_tool_calls (run_id project_id : string)
    (tool_calls : list ToolCall) (msgs : list ChatMessage)
    : M PlanError (list ChatMessage) :=
  match tool_calls with
  | [] => ret msgs
  | tool_call :: rest =>
      tool_result <- execute_single_tool run_id project_id tool_call ;;
      let tool_message :=
        mkChatMessage "tool" (Some tool_result) (Some (id tool_call)) None in
      let msgs' := msgs ++ [tool_message] in
      ignore_err
        (add_message run_id "tool"
           (unwrap_or_default (content tool_message))) ;;;
      execute_tool_calls run_id project_id rest msgs'
  end.

(** The variables the loop updates. *)
Record LoopState : Type := mkLoopState {
  ls_messages : list ChatMessage;
  ls_tool_calls_count : nat;
  ls_truncated : bool;
  ls_final_plan : string
}.

Section Loop.
Variables (config : Settings.LlmConfig) (api_key : string).
Variables (run_id project_id : string) (tools : list Json.Value).

(** [for iteration in 0..MAX_TOOL_ITERATIONS]: [n] iterations are
    left; [break] returns. *)
Fixpoint tool_call_loop (n : nat) (st : LoopState)
    : M PlanError LoopState :=
  match n with
  | O => ret st
  | S n' =>
      let context_size := context_size (ls_messages st) in
      let over := (MAX_CONTEXT_CHARS <? context_size)%N in
      let truncated := if over then true else ls_truncated st in
      let msgs :=
        if over
        then truncate_messages (ls_messages st) MAX_CONTEXT_CHARS
        else ls_messages st in
      response <-
        map_err_m
          (fun e => mkPlanError "LLM_ERROR" (Llm.LlmError_to_string e))
          (client_chat_with_tools config api_key msgs tools) ;;
      match PlanTypes.content response with
      | Some content =>
          map_err_m (fun e => mkPlanError "LOG_ERROR" e)
            (add_message run_id "assistant" content)
      | None => ret tt
      end ;;;
      match PlanTypes.tool_calls response with
      | Some tool_calls =>
          match tool_calls with
          | [] =>
              ret (mkLoopState msgs (ls_tool_calls_count st) truncated
                     (unwrap_or_default (PlanTypes.content response)))
          | _ :: _ =>
              let count := ls_tool_calls_count st + List.length tool_calls in
              msgs' <- execute_tool_calls run_id project_id tool_calls msgs ;;
              let msgs'' :=
                msgs' ++
                  [mkChatMessage "assistant" (PlanTypes.content response)
                     None (PlanTypes.tool_calls response)] in
              tool_call_loop n'
                (mkLoopState msgs'' count truncated (ls_final_plan st))
          end
      | None =>
          ret (mkLoopState msgs (ls_tool_calls_count st) truncated
                 (unwrap_or_default (PlanTypes.content response)))
      end
  end.

End Loop.

Definition system_prompt : string :=
"You are a senior technical lead creating detailed implementation plans.

Your task: Analyze the codebase and produce a comprehensive implementation plan.

Required output format (Markdown):

# Implementation Plan: [Title]

## 1. Summary
Brief overview of the approach (2-3 sentences).

## 2. Goals & Non-Goals
**Goals:**
- What this implementation achieves

**Non-Goals:**
- What is explicitly out of scope

## 3. Repo Context Assumptions
- Key files/modules that exist
- Dependencies to leverage

## 4. File-by-File Changes
For each file to modify/create:
- **Path**: relative path
- **Purpose**: what this file does
- **Key Changes**: specific modifications

## 5. Step-by-Step Implementation Checklist
- [ ] Step 1: ...
- [ ] Step 2: ...
(Ordered by dependency, earliest first)

## 6. Risks + Mitigations
| Risk | Mitigation |
|------|------------|
| Risk description | How to address it |

## 7. Validation Steps
- [ ] Tests: `run_command` with kind=" +:+ dq +:+ "tests" +:+ dq +:+ "
- [ ] Lint: `run_command` with kind=" +:+ dq +:+ "lint" +:+ dq +:+ "
- [ ] Build: `run_command` with kind=" +:+ dq +:+ "build" +:+ dq +:+ "

---

Instructions:
1. Use the provided tools to explore the codebase before writing the plan
2. Call `list_files` to understand the project structure
3. Call `read_file` to examine key files
4. Call `grep` to find relevant code patterns
5. Call `git_status` and `git_diff` to see current state
6. Only write the plan after gathering sufficient context
7. If you need more information, make another tool call
8. When complete, output ONLY the plan in the format above (no tool calls in final output)
".

Definition user_prompt (title repo_path : string) : string :=
"Task: " +:+ title +:+ "

Repository: " +:+ repo_path +:+ "

Please explore this codebase and create a detailed implementation plan.

Available tools:
- list_files: See project structure
- read_file: Examine file contents
- grep: Search for patterns
- git_status/git_diff: Check current changes
- run_command: Run tests/lint/build

Start by listing files to understand the project structure, then read key files to understand the codebase before writing your plan.".

Definition build_initial_messages (task : Task) (project : Project)
    : list ChatMessage :=
  [ mkChatMessage "system" (Some system_prompt) None None;
    mkChatMessage "user"
      (Some (user_prompt (title task) (repo_path project))) None None ].

(** The note of [format!] when the limit was hit. *)
Definition limit_note (plan : string) : string :=
  plan +:+ "

---

**Note**: Reached maximum tool call limit (" +:+
  Llm.N_to_string (N.of_nat MAX_TOOL_ITERATIONS) +:+
  "). Plan may be incomplete.
Consider breaking this task into smaller phases.".

(** [generate_plan]. *)
Definition generate_plan (project_id task_id : string)
    : M PlanError PlanResult :=
  (* 1. Get task and project info *)
  task <- lift (map_err (fun e => mkPlanError "TASK_NOT_FOUND" e)
                  (get_task env task_id)) ;;
  project <- lift (map_err (fun e => mkPlanError "PROJECT_NOT_FOUND" e)
                     (get_project env project_id)) ;;
  (* 2. Get settings for LLM *)
  settings <- get_all_settings ;;
  let llm_config := Settings.build_llm_config (serde env) settings in
  api_key <- lift get_api_key ;;
  (* 3. Create run *)
  run <- create_run_plan task_id ;;
  let run_id := r_id run in
  (* 4. Build messages *)
  let messages := build_initial_messages task project in
  (* 5. Get tool schemas *)
  let tools := get_repo_tool_schemas env in
  (* 6. Tool-call loop *)
  st <- tool_call_loop llm_config api_key run_id project_id tools
          MAX_TOOL_ITERATIONS (mkLoopState messages 0 false "") ;;
  (* If we hit max iterations, add a note *)
  let hit :=
    (MAX_TOOL_ITERATIONS <=? ls_tool_calls_count st)%nat
    && String.eqb (ls_final_plan st) "" in
  let final_plan :=
    if hit then limit_note (ls_final_plan st) else ls_final_plan st in
  let truncated := if hit then true else ls_truncated st in
  (* 7. Save plan artifact *)
  map_err_m (fun e => mkPlanError "ARTIFACT_ERROR" e)
    (upsert_artifact task_id None "plan_md" final_plan) ;;;
  ret (mkPlanResult run_id final_plan (ls_tool_calls_count st) truncated).

End WithEnv.

End Plan.

(** ** Concrete environments to run the code on *)

Module Demo.

Import PlanTypes Plan.

Local Infix "+:+" := String.append (at level 60, right associativity).

(** A compact printer, enough for values whose strings need no escape. *)
Fixpoint print_json (v : Json.Value) : string :=
  match v with
  | Json.Null => "null"
  | Json.Bool true => "true"
  | Json.Bool false => "false"
  | Json.Number n =>
      if (n <? 0)%Z then "-" +:+ Llm.N_to_string (Z.to_N (- n))
      else Llm.N_to_string (Z.to_N n)
  | Json.Str s => dq +:+ s +:+ dq
  | Json.Array items =>
      "[" +:+
      (fix go (l : list Json.Value) : string :=
         match l with
         | [] => ""
         | [x] => print_json x
         | x :: rest => print_json x +:+ "," +:+ go rest
         end) items +:+ "]"
  | Json.Object fields =>
      "{" +:+
      (fix go (l : list (string * Json.Value)) : string :=
         match l with
         | [] => ""
         | [(k, x)] => dq +:+ k +:+ dq +:+ ":" +:+ print_json x
         | (k, x) :: rest =>
             dq +:+ k +:+ dq +:+ ":" +:+ print_json x +:+ "," +:+ go rest
         end) fields +:+ "}"
  end.

(** A reader that knows the empty object only. *)
Definition read_json (s : string) : Result Json.Value string :=
  if String.eqb s "{}" then Ok (Json.Object [])
  else Err "expected value at line 1 column 1".

Definition strict_serde : Serde := mkSerde (fun _ => None) read_json print_json.

Definition the_task : Task := mkTask "task-1" "proj-1" "Add login" "plan" "active".
Definition the_project : Project := mkProject "proj-1" "demo" "/repo".

Definition find_task (id : string) : Result Task string :=
  if String.eqb id "task-1" then Ok the_task else Err "Query returned no rows".

Definition find_project (id : string) : Result Project string :=
  if String.eqb id "proj-1" then Ok the_project else Err "Query returned no rows".

Definition call (id name args : string) : ToolCall :=
  mkToolCall id (mkToolFunction name args).

(** A model that asks for [list_files] on every turn. *)
Definition always_tools (n : nat) (_ : Settings.LlmConfig) (_ : string)
    (_ : list ChatMessage) (_ : list Json.Value)
    : Result LlmResponse Llm.LlmError :=
  Ok (mkLlmResponse None
        (Some [call ("call_" +:+ Llm.N_to_string (N.of_nat n)) "list_files" "{}"])).

(** A model that makes one tool call named [tool] with [args], then
    answers. *)
Definition one_tool_then_final (tool args : string) (n : nat)
    (_ : Settings.LlmConfig) (_ : string)
    (_ : list ChatMessage) (_ : list Json.Value)
    : Result LlmResponse Llm.LlmError :=
  match n with
  | O => Ok (mkLlmResponse (Some "Let me look.") (Some [call "call_1" tool args]))
  | S _ => Ok (mkLlmResponse (Some "# Implementation Plan: X") None)
  end.

Definition files_result : Json.Value :=
  Json.Object [("files", Json.Array [Json.Str "README.md"]);
               ("truncated", Json.Bool false)].

Fixpoint repeat_string (n : nat) (s : string) : string :=
  match n with
  | O => ""
  | S n' => s +:+ repeat_string n' s
  end.

(** A file of 100,001 bytes, as [read_file] returns it. *)
Definition big_file : Json.Value :=
  Json.Object [("content", Json.Str (repeat_string (N.to_nat 100001) "x"))].

Definition tools_ok (result : Json.Value) (_ : nat) (_ _ _ : string)
    (_ : Json.Value) : Result Json.Value string :=
  Ok result.

Definition tools_fail (_ : nat) (_ _ _ : string) (_ : Json.Value)
    : Result Json.Value string :=
  Err "path escape".

Definition mk_env (sd : Serde)
    (provider : nat -> Settings.LlmConfig -> string -> list ChatMessage ->
                list Json.Value -> Result LlmResponse Llm.LlmError)
    (tool : nat -> string -> string -> string -> Json.Value ->
            Result Json.Value string) : Env :=
  {| serde := sd;
     get_task := find_task;
     get_project := find_project;
     get_repo_tool_schemas := [];
     SPECTRAIL_API_KEY := Some "sk-test";
     chat_with_tools := provider;
     execute_repo_tool := tool;
     db_error := fun _ => None;
     refuses_reads := fun _ => true;
     settings_error := mkPlanError "SETTINGS_ERROR";
     new_id := fun n => "id-" +:+ Llm.N_to_string (N.of_nat n);
     now_iso := fun n => "2025-01-01T00:00:" +:+ Llm.N_to_string (N.of_nat n) |}.

(** A fresh database after migration 002. *)
Definition fresh : World :=
  mkWorld (Settings.migration_002 "2025-01-01T00:00:00" ∅) [] [] [] 0 [].

Definition looping_env : Env := mk_env strict_serde always_tools (tools_ok files_result).
Definition reading_env : Env :=
  mk_env strict_serde (one_tool_then_final "list_files" "{}") (tools_ok files_result).
Definition big_read_env : Env :=
  mk_env strict_serde (one_tool_then_final "read_file" "{}") (tools_ok big_file).
Definition bad_args_env : Env :=
  mk_env strict_serde (one_tool_then_final "read_file" "{path: README.md")
    (tools_ok files_result).
Definition failing_tool_env : Env :=
  mk_env strict_serde (one_tool_then_final "read_file" "{}") tools_fail.

End Demo.

(** ** Further concrete inputs: networks and clients *)

Module DemoNet.

Import Llm.

Definition client : LlmClient :=
  new (Settings.build_llm_config Demo.strict_serde
         (Settings.get_all_settings (Settings.migration_002 "2025-01-01" ∅)))
      "sk-test".

(** A provider that answers every request with the same status and an
    undecodable body, at once; the backoff draws are the midpoint. *)
Definition always_status (Msg : Type) (status : N)
    : Network (OpenAIChatRequest Msg) (OpenAIChatResponse Msg) :=
  mkNetwork
    (fun (_ : nat) (_ : HttpRequest (OpenAIChatRequest Msg)) =>
       Ok (mkHttpReply status (Err "error decoding response body")
             (Ok "denied")))
    (fun _ => 0%N) (fun _ => 500%N).

(** A provider that answers 200 with the given decoded body. *)
Definition answers (Msg : Type) (resp : OpenAIChatResponse Msg)
    : Network (OpenAIChatRequest Msg) (OpenAIChatResponse Msg) :=
  mkNetwork
    (fun (_ : nat) (_ : HttpRequest (OpenAIChatRequest Msg)) =>
       Ok (mkHttpReply 200 (Ok resp) (Ok "")))
    (fun _ => 120%N) (fun _ => 0%N).

Definition hello : list ChatMessage := [mkChatMessage "user" "hello"].

Definition hello_request : OpenAIChatRequest ChatMessage :=
  mkRequest (Settings.model (config client)) hello None
    (Some (Settings.temperature (config client)))
    (Some (Settings.max_tokens (config client))) false.

Definition no_choices (Msg : Type) : OpenAIChatResponse Msg :=
  mkResponse "chatcmpl-1" "m" [].

(** One choice, and a second one that is not looked at. *)
Definition two_choices : OpenAIChatResponse ChatMessage :=
  mkResponse "chatcmpl-2" "m"
    [ mkChoice 0 (mkChatMessage "assistant" "first") "stop";
      mkChoice 1 (mkChatMessage "assistant" "second") "stop" ].

Definition tool_choice : OpenAIChatResponse ToolChatMessage :=
  mkResponse "chatcmpl-3" "m"
    [ mkChoice 0
        (mkToolChatMessage "assistant" None
           (Some [mkWireToolCall "call_1" "function"
                    (mkToolFunction "list_files" "{}")]) None)
        "tool_calls" ].

(** Two ways to hand the closure's errors to [retry]: all of them
    transient, or the client errors that are not 429 permanent. *)
Definition all_transient : Classifier := fun _ => false.

Definition client_errors_permanent : Classifier :=
  fun e =>
    match e with
    | Api status _ => (status <? 500)%N
    | _ => false
    end.

(** A client whose key ends in a line feed, as a key read from a file
    may: no header value. *)
Definition newline_key_client : LlmClient :=
  mkLlmClient (config client) ("sk-test" ++ String (ascii_of_nat 10) "")%string.

End DemoNet.

(** ** Conditions on a run and on a transcript *)

Module PlanSpec.

Import PlanTypes Plan.

Definition parses (env : Env) (tool_call : ToolCall) : Prop :=
  exists args, from_str (serde env) (arguments (function tool_call)) = Ok args.

(** The model gives no final answer on the [count] requests from number
    [first] on: whatever it is sent on one of them, the answer carries at
    least one tool call. *)
Definition keeps_calling (env : Env) (first count : nat) : Prop :=
  forall k config api_key msgs tools,
    (first <= k < first + count)%nat ->
    exists resp c cs,
      chat_with_tools env k config api_key msgs tools = Ok resp
      /\ PlanTypes.tool_calls resp = Some (c :: cs).

(** The tool calls in the answers to these requests carry arguments that
    are JSON. *)
Definition arguments_parse (env : Env) (first count : nat) : Prop :=
  forall k config api_key msgs tools resp calls,
    (first <= k < first + count)%nat ->
    chat_with_tools env k config api_key msgs tools = Ok resp ->
    PlanTypes.tool_calls resp = Some calls ->
    Forall (parses env) calls.

Definition is_role (r : string) (m : ChatMessage) : bool :=
  String.eqb (role m) r.

Definition requested_ids (m : ChatMessage) : list string :=
  match tool_calls m with
  | Some calls => List.map id calls
  | None => []
  end.

(** The transcript rule: after an assistant message with tool calls
    [c1..cN] come exactly the tool messages for [c1..cN], in that order,
    and a tool message stands nowhere else.  [pending] are the ids still
    to be answered. *)
Fixpoint answered_from (pending : list string) (msgs : list ChatMessage)
    : bool :=
  match msgs with
  | [] => match pending with [] => true | _ :: _ => false end
  | m :: rest =>
      match pending with
      | i :: pending' =>
          is_role "tool" m
          && bool_decide (tool_call_id m = Some i)
          && answered_from pending' rest
      | [] =>
          if is_role "tool" m then false
          else if is_role "assistant" m then answered_from (requested_ids m) rest
          else answered_from [] rest
      end
  end.

Definition tool_calls_answered (msgs : list ChatMessage) : bool :=
  answered_from [] msgs.

(** What a tool call puts into its tool message once its arguments are
    read: the result, or the error envelope. *)
Definition with_project_id (project_id : string) (args : Json.Value)
    : Json.Value :=
  match args with
  | Json.Object obj =>
      Json.Object (Json.entry_or_insert "project_id" (Json.Str project_id) obj)
  | _ => args
  end.

Definition error_envelope (env : Env) (e : string) : string :=
  to_string (serde env) (Json.Object [("error", Json.Str e)]).

Definition tool_payload (env : Env) (clock : nat) (run_id project_id : string)
    (tool_call : ToolCall) (args : Json.Value) : string :=
  match execute_repo_tool env clock run_id project_id
          (name (function tool_call)) (with_project_id project_id args) with
  | Ok val => to_string (serde env) val
  | Err e => error_envelope env e
  end.

(** What the steps of the loop may do to the database and to the request
    log on behalf of run [run_id]: append message rows of that run, append
    requests, and nothing else. *)
Definition log_extends (run_id : string) (w w' : World) : Prop :=
  settings w' = settings w
  /\ runs w' = runs w
  /\ artifacts w' = artifacts w
  /\ (exists reqs, requests w' = requests w ++ reqs)
  /\ (exists rows, messages w' = messages w ++ rows
                   /\ Forall (fun m => m_run_id m = run_id) rows).

Definition same_requests (w w' : World) : Prop :=
  requests w' = requests w.

End PlanSpec.

(** ** The claims, as they are worded *)

Module Stated.

Import PathGuard.

(** Path gate: a returned path lies under the canonical root, a failure
    is a path escape, and a request with a [..] component never yields a
    path. *)
Definition path_gate (canonicalize : PathBuf -> option PathBuf)
    (base : PathBuf) (requested : string) : Prop :=
  match sanitize_path canonicalize base requested with
  | Ok p =>
      (exists r, canonicalize base = Some r /\ starts_with p r = true)
      /\ existsb is_parent_dir (components requested) = false
  | Err e => e = PathTraversal
  end.

(** Defaults: both consumers fall back to the documented values. *)
Definition defaults (sd : Serde) (now : string) : Prop :=
  Settings.base_url (Settings.build_llm_config sd ∅)
    = Settings.documented_base_url
  /\ Settings.model (Settings.build_llm_config sd ∅)
    = Settings.documented_model
  /\ Settings.get_all_settings (Settings.migration_002 now ∅) !! "base_url"
    = Some Settings.documented_base_url
  /\ Settings.get_all_settings (Settings.migration_002 now ∅) !! "model"
    = Some Settings.documented_model.

(** Tool failures: whatever goes wrong in a tool call, the call yields a
    payload and not an error of the workflow. *)
Definition tool_failures_recovered (env : Plan.Env)
    (run_id project_id : string) (tool_call : PlanTypes.ToolCall)
    (w : Plan.World) : Prop :=
  exists payload,
    (Plan.execute_single_tool env run_id project_id tool_call w).1
      = Ok payload.

(** Run closure: every run the workflow created has [ended_at] set when
    the workflow returns. *)
Definition runs_closed (env : Plan.Env) (project_id task_id : string)
    (w : Plan.World) : Prop :=
  let w' := (Plan.generate_plan env project_id task_id w).2 in
  forall run, In run (Plan.runs w') -> ~ In run (Plan.runs w) ->
    Plan.ended_at run <> None.

End Stated.

(** ** Reading the header map of a request *)

Module LlmSpec.

Import Llm.

(** [HeaderMap::get]. *)
Fixpoint header_get (name : string) (h : list (string * string))
    : option string :=
  match h with
  | [] => None
  | (k, v) :: rest => if String.eqb k name then Some v else header_get name rest
  end.

(** What one entry of [extra_headers] sets header [name] to, if it sets
    it: the value is a string, the key a header name that is [name] in
    lower case, the value a header value. *)
Definition entry_value (name : string) (kv : string * Json.Value)
    : option string :=
  match Json.as_str kv.2 with
  | Some val_str =>
      match header_name_from_bytes kv.1, header_value_parse val_str with
      | Some header_name, Some header_value =>
          if String.eqb header_name name then Some header_value else None
      | _, _ => None
      end
  | None => None
  end.

(** The last entry, in the order the object is walked, that sets [name]. *)
Fixpoint extra_value (name : string) (obj : list (string * Json.Value))
    : option string :=
  match obj with
  | [] => None
  | kv :: rest =>
      match extra_value name rest with
      | Some v => Some v
      | None => entry_value name kv
      end
  end.

(** Whether [format!("Bearer {}", key)] is a header value, so that
    [parse().unwrap()] returns. *)
Definition bearer_ok (self : LlmClient) : bool :=
  string_forallb is_value_char ("Bearer " ++ api_key self)%string.

(** The two headers [chat] sets itself. *)
Definition fixed_header (api_key name : string) : option string :=
  if String.eqb "authorization" name then Some ("Bearer " ++ api_key)%string
  else if String.eqb "content-type" name then Some "application/json"
  else None.

(** A client that differs from [self] in the base URL only. *)
Definition with_base_url (self : LlmClient) (url : string) : LlmClient :=
  mkLlmClient
    (Settings.mkLlmConfig
       (Settings.provider_name (config self)) url
       (Settings.model (config self)) (Settings.temperature (config self))
       (Settings.max_tokens (config self)) (Settings.extra_headers (config self)))
    (api_key self).

(** A client configured with an Authorization header of its own. *)
Definition overriding_client : LlmClient :=
  new (Settings.mkLlmConfig "openai" "https://api.example.com/v1/" "m"
         Settings.f64_0_2 4000
         (Json.Object [("Authorization", Json.Str "Basic dXNlcjpwdw==")]))
      "sk-test".

End LlmSpec.

(** ** The command around plan mode, and counts over the run log *)

Module PlanCommands.

Import Plan.

Local Infix "+:+" := String.append (at level 60, right associativity).

(** [generate_plan_command] (commands.rs): the error is flattened to
    [format!("[{}] {}", e.code, e.message)]. *)
Definition generate_plan_command (env : Env) (project_id task_id : string)
    : M string PlanResult :=
  map_err_m (fun e => "[" +:+ code e +:+ "] " +:+ message e)
    (generate_plan env project_id task_id).

(** The codes [generate_plan] and the functions it calls put into a
    [PlanError]. *)
Definition ERROR_CODES : list string :=
  [ "TASK_NOT_FOUND"; "PROJECT_NOT_FOUND"; "NO_API_KEY"; "RUN_CREATE_ERROR";
    "LLM_ERROR"; "LOG_ERROR"; "INVALID_ARGS"; "ARTIFACT_ERROR" ].

(** The rows of a given role in the message log. *)
Definition rows_of_role (role : string) (rows : list MessageRow)
    : list MessageRow :=
  List.filter (fun m => String.eqb (m_role m) role) rows.

(** The context the loop sends for a state: the messages so far, pruned
    when they are over the limit. *)
Definition sent_context (st : LoopState) : list ChatMessage :=
  if (MAX_CONTEXT_CHARS <? context_size (ls_messages st))%N
  then truncate_messages (ls_messages st) MAX_CONTEXT_CHARS
  else ls_messages st.

Definition with_request (w : World) (msgs : list ChatMessage) : World :=
  mkWorld (settings w) (runs w) (messages w) (artifacts w) (clock w)
    (requests w ++ [msgs]).

(** The run row [create_run] inserts at the time of [w]. *)
Definition new_run (env : Env) (task_id run_type : string) (w : World) : Run :=
  let config := Settings.get_llm_config (serde env) (settings w) in
  mkRun (new_id env (clock w)) task_id None run_type
    (Some (Settings.provider_name config)) (Some (Settings.model config))
    (now_iso env (clock w)) None.

Definition with_run (w : World) (run : Run) : World :=
  mkWorld (settings w) (runs w ++ [run]) (messages w) (artifacts w)
    (S (clock w)) (requests w).

(** The row [add_message] inserts at the time of [w]. *)
Definition with_message (env : Env) (w : World) (run_id role content : string)
    : World :=
  mkWorld (settings w) (runs w)
    (messages w ++
       [mkMessageRow (new_id env (clock w)) run_id role content
          (now_iso env (clock w))])
    (artifacts w) (S (clock w)) (requests w).

(** The log after an assistant turn: its text is stored when there is
    one. *)
Definition with_reply (env : Env) (w : World) (run_id : string)
    (content : option string) : World :=
  match content with
  | Some c => with_message env w run_id "assistant" c
  | None => w
  end.

(** What the tool message of a call holds when the call is made at time
    [clock]: the payload, once the arguments are read. *)
Definition payload_of (env : Env) (clock : nat) (run_id project_id : string)
    (tool_call : PlanTypes.ToolCall) : option string :=
  match from_str (serde env)
          (PlanTypes.arguments (PlanTypes.function tool_call)) with
  | Ok args =>
      Some (PlanSpec.tool_payload env clock run_id project_id tool_call args)
  | Err _ => None
  end.

(** The tool messages of a turn whose first call is made at time [clock];
    each call takes two ticks, one for the tool and one for its row in the
    log. *)
Fixpoint tool_messages (env : Env) (clock : nat) (run_id project_id : string)
    (calls : list PlanTypes.ToolCall) : list ChatMessage :=
  match calls with
  | [] => []
  | tool_call :: rest =>
      mkChatMessage "tool" (payload_of env clock run_id project_id tool_call)
        (Some (PlanTypes.id tool_call)) None
      :: tool_messages env (S (S clock)) run_id project_id rest
  end.

(** The time of the first tool call of a turn: the assistant's text, when
    there is one, has taken one write. *)
Definition tools_start (w : World) (content : option string) : nat :=
  match content with
  | Some _ => S (clock w)
  | None => clock w
  end.

(** The state of the loop after a turn that asked for [calls]. *)
Definition after_tools (env : Env) (run_id project_id : string)
    (st : LoopState) (w : World) (resp : PlanTypes.LlmResponse)
    (calls : list PlanTypes.ToolCall) : LoopState :=
  mkLoopState
    (sent_context st
       ++ tool_messages env (tools_start w (PlanTypes.content resp))
            run_id project_id calls
       ++ [mkChatMessage "assistant" (PlanTypes.content resp) None
             (PlanTypes.tool_calls resp)])
    (ls_tool_calls_count st + List.length calls)
    (if (MAX_CONTEXT_CHARS <? context_size (ls_messages st))%N
     then true else ls_truncated st)
    (ls_final_plan st).

(** A provider that is rate limited on every request, and one that
    answers with the plan at once. *)
Definition rate_limited (_ : nat) (_ : Settings.LlmConfig) (_ : string)
    (_ : list ChatMessage) (_ : list Json.Value)
    : Result PlanTypes.LlmResponse Llm.LlmError :=
  Err Llm.RateLimited.

Definition final_at_once (_ : nat) (_ : Settings.LlmConfig) (_ : string)
    (_ : list ChatMessage) (_ : list Json.Value)
    : Result PlanTypes.LlmResponse Llm.LlmError :=
  Ok (PlanTypes.mkLlmResponse (Some "# Implementation Plan: X") None).

Definition rate_limited_env : Env :=
  Demo.mk_env Demo.strict_serde rate_limited (Demo.tools_ok Demo.files_result).

Definition final_at_once_env : Env :=
  Demo.mk_env Demo.strict_serde final_at_once (Demo.tools_ok Demo.files_result).

(** A database that refuses everything. *)
Definition locked_env : Env :=
  {| serde := Demo.strict_serde;
     get_task := Demo.find_task;
     get_project := Demo.find_project;
     get_repo_tool_schemas := [];
     SPECTRAIL_API_KEY := Some "sk-test";
     chat_with_tools := final_at_once;
     execute_repo_tool := Demo.tools_ok Demo.files_result;
     db_error := fun _ => Some "database is locked";
     refuses_reads := fun _ => true;
     settings_error := mkPlanError "SETTINGS_ERROR";
     new_id := new_id final_at_once_env;
     now_iso := now_iso final_at_once_env |}.

(** A database that can be read and refuses every write. *)
Definition full_env : Env :=
  {| serde := Demo.strict_serde;
     get_task := Demo.find_task;
     get_project := Demo.find_project;
     get_repo_tool_schemas := [];
     SPECTRAIL_API_KEY := Some "sk-test";
     chat_with_tools := final_at_once;
     execute_repo_tool := Demo.tools_ok Demo.files_result;
     db_error := fun _ => Some "database or disk is full";
     refuses_reads := fun _ => false;
     settings_error := mkPlanError "SETTINGS_ERROR";
     new_id := new_id final_at_once_env;
     now_iso := now_iso final_at_once_env |}.

(** A reader for which every argument string names another project. *)
Definition foreign_args : Json.Value :=
  Json.Object [("project_id", Json.Str "proj-2"); ("path", Json.Str "README.md")].

Definition foreign_serde : Serde :=
  mkSerde (fun _ => None) (fun _ => Ok foreign_args) Demo.print_json.

Definition foreign_env : Env :=
  Demo.mk_env foreign_serde (Demo.one_tool_then_final "read_file" "{}")
    (Demo.tools_ok Demo.files_result).

End PlanCommands.

(** ** Repository tools (repo_tools/fs.rs, git.rs, runner.rs) *)

Module RepoTools.

Import PathGuard Runner.

(** [Value::as_bool]. *)
Definition as_bool (v : Json.Value) : option bool :=
  match v with Json.Bool b => Some b | _ => None end.

(** *** Slicing a [str]

    [&s[..n]] panics unless [n] is a character boundary of [s]: zero, the
    length, or the index of a byte that does not continue a UTF-8
    sequence.  [None] stands for the panic. *)
Definition is_utf8_char_boundary (b : ascii) : bool :=
  let n := nat_of_ascii b in
  (n <? 128)%nat || (192 <=? n)%nat.

Definition is_char_boundary (s : string) (index : nat) : bool :=
  if (index =? 0)%nat then true
  else
    match String.get index s with
    | None => (index =? String.length s)%nat
    | Some b => is_utf8_char_boundary b
    end.

Definition slice_to (s : string) (n : nat) : option string :=
  if is_char_boundary s n then Some (String.substring 0 n s) else None.

(** *** The file system, as far as the tools ask it *)
Record Fs : Type := mkFs {
  canonicalize : PathBuf -> option PathBuf;
  metadata_len : PathBuf -> Result Z string;
  read_to_string : PathBuf -> Result string string;
  exists_ : PathBuf -> bool
}.

(** [RepoTools::read_file]; [None] is the panic of the slice. *)
Definition read_file (fs : Fs) (repo_path : string) (args : Json.Value)
    : option (Result Json.Value ToolError) :=
  match Json.get args "path" ≫= Json.as_str with
  | None => Some (Err (InvalidArgs "path required"))
  | Some path =>
      let max_size :=
        default 50000%Z (Json.get args "max_size" ≫= Json.as_u64) in
      match sanitize_path (canonicalize fs) (components repo_path) path with
      | Err e => Some (Err e)
      | Ok full_path =>
          match metadata_len fs full_path with
          | Err e => Some (Err (Execution e))
          | Ok len =>
              if (max_size <? len)%Z then
                match read_to_string fs full_path with
                | Err e => Some (Err (Execution e))
                | Ok content =>
                    match slice_to content (Z.to_nat max_size) with
                    | None => None
                    | Some truncated =>
                        Some (Ok (Json.Object
                          [ ("content", Json.Str truncated);
                            ("truncated", Json.Bool true);
                            ("total_size", Json.Number len) ]))
                    end
                end
              else
                match read_to_string fs full_path with
                | Err e => Some (Err (Execution e))
                | Ok content =>
                    Some (Ok (Json.Object
                      [ ("content", Json.Str content);
                        ("truncated", Json.Bool false) ]))
                end
          end
      end
  end.

(** *** Git

    What [tokio::process::Command] is asked to start here: a program, its
    arguments and a directory, nothing else set.  Every process started is
    recorded in [started]. *)
Record Command : Type := mkCommand {
  cmd_program : string;
  cmd_args : list string;
  cmd_dir : string
}.

Record Procs : Type := mkProcs {
  started : list Command;
  output_of : Command -> Result Output string
}.

Definition output (c : Command) (p : Procs) : Result Output string * Procs :=
  (output_of p c, mkProcs (started p ++ [c]) (output_of p)).

(** [RepoTools::git_status]. *)
Definition git_status (repo_path : string) (p : Procs)
    : Result Json.Value ToolError * Procs :=
  match output (mkCommand "git" ["status"; "--porcelain"; "-b"] repo_path) p with
  | (Err e, p') => (Err (Execution e), p')
  | (Ok out, p') =>
      if negb (success out)
      then (Err (Execution "git status failed"), p')
      else (Ok (Json.Object [("status", Json.Str (stdout out))]), p')
  end.

(** [RepoTools::git_diff]; [None] is the panic of the slice. *)
Definition git_diff (repo_path : string) (args : Json.Value) (p : Procs)
    : option (Result Json.Value ToolError) * Procs :=
  let staged := default false (Json.get args "staged" ≫= as_bool) in
  let cached := default false (Json.get args "cached" ≫= as_bool) in
  let cmd :=
    mkCommand "git"
      (["diff"] ++ (if staged || cached then ["--cached"] else []))
      repo_path in
  match output cmd p with
  | (Err e, p') => (Some (Err (Execution e)), p')
  | (Ok out, p') =>
      let stdout := stdout out in
      let max_len := N.to_nat 100000 in
      let truncated := (max_len <? String.length stdout)%nat in
      let content :=
        if truncated then slice_to stdout max_len else Some stdout in
      match content with
      | None => (None, p')
      | Some content =>
          (Some (Ok (Json.Object
             [ ("diff", Json.Str content);
               ("truncated", Json.Bool truncated);
               ("total_bytes",
                  Json.Number (Z.of_nat (String.length stdout))) ])),
           p')
      end
  end.

(** *** Tests

    [RepoTools::run_tests]: the markers are looked up under the repository
    path; [has_pytest] is not among the sources and is taken as its
    answer. *)
Definition marker (fs : Fs) (repo_path name : string) : bool :=
  exists_ fs (join (components repo_path) (components name)).

Definition command_args (command : string) : Json.Value :=
  Json.Object [("command", Json.Str command)].

Definition run_tests (fs : Fs) (has_pytest : bool) (repo_path : string)
    (os : Os) : Result Json.Value ToolError * Os :=
  if marker fs repo_path "package.json" then
    if marker fs repo_path "pnpm-lock.yaml"
    then run_command repo_path (command_args "pnpm test") os
    else if marker fs repo_path "yarn.lock"
    then run_command repo_path (command_args "yarn test") os
    else run_command repo_path (command_args "npm test") os
  else if marker fs repo_path "Cargo.toml" then
    run_command repo_path (command_args "cargo test") os
  else if (marker fs repo_path "pyproject.toml" || marker fs repo_path "setup.py")
          && (marker fs repo_path "pytest.ini" || has_pytest) then
    run_command repo_path (command_args "pytest") os
  else
    (Ok (Json.Object
       [ ("status", Json.Str "skipped");
         ("message", Json.Str "No recognizable test framework detected") ]),
     os).

(** The commands [run_tests] can choose, as (program, arguments). *)
Definition TEST_COMMANDS : list (string * list string) :=
  [ ("pnpm", ["test"]); ("yarn", ["test"]); ("npm", ["test"]);
    ("cargo", ["test"]); ("pytest", []) ].

Definition skipped : Json.Value :=
  Json.Object
    [ ("status", Json.Str "skipped");
      ("message", Json.Str "No recognizable test framework detected") ].

(** A repository with a text file of five bytes and one whose sixth and
    seventh bytes are one two-byte character. *)
Definition two_byte : string :=
  String (ascii_of_nat 195) (String (ascii_of_nat 169) EmptyString).

Definition same_path (p q : PathBuf) : bool :=
  starts_with p q && starts_with q p.

Definition demo_files (p : PathBuf) : Result string string :=
  if same_path p [RootDir; Normal "repo"; Normal "README.md"]
  then Ok "hello"
  else if same_path p [RootDir; Normal "repo"; Normal "src"; Normal "main.rs"]
  then Ok ("caf" ++ two_byte ++ " au lait")%string
  else Err "No such file or directory (os error 2)".

Definition demo : Fs :=
  mkFs (realpath demo_fs)
    (fun p =>
       match demo_files p with
       | Ok s => Ok (Z.of_nat (String.length s))
       | Err e => Err e
       end)
    demo_files
    (fun p => match realpath demo_fs p with Some _ => true | None => false end).

Definition read_args (path : string) (max_size : Z) : Json.Value :=
  Json.Object [("path", Json.Str path); ("max_size", Json.Number max_size)].

Definition quiet_procs : Procs :=
  mkProcs [] (fun _ => Ok (mkOutput true (Some 0%Z) "" "")).

End RepoTools.

(** ** Saving settings (commands.rs) and the settings page (Settings.tsx) *)

Module SettingsCommands.

(** [SettingInput]: what the page sends. *)
Record SettingInput : Type := mkSettingInput {
  key : string;
  value : string
}.

(** SQLite refusing a step of [set_settings]: the connection, the start
    of the transaction, the n-th statement, the commit. *)
Record Sqlite : Type := mkSqlite {
  connect_error : option string;
  transaction_error : option string;
  execute_error : nat -> option string;
  commit_error : option string
}.

(** A transaction, as SQLite keeps one with a rollback journal: a
    statement changes the table at once and the journal notes what the row
    held before; a rollback plays the journal back, newest entry first, and
    [commit] forgets it. *)
Record Transaction : Type := mkTransaction {
  tx_rows : gmap string Settings.Row;
  tx_journal : list (string * option Settings.Row)
}.

(** [conn.transaction()]. *)
Definition transaction (tbl : gmap string Settings.Row) : Transaction :=
  mkTransaction tbl [].

(** [INSERT ... ON CONFLICT(key) DO UPDATE SET value = excluded.value,
    updated_at = excluded.updated_at], inside the transaction. *)
Definition upsert (updated_at : string) (tx : Transaction)
    (pair : SettingInput) : Transaction :=
  mkTransaction
    (<[key pair := Settings.mkRow (value pair) updated_at]> (tx_rows tx))
    ((key pair, tx_rows tx !! key pair) :: tx_journal tx).

Definition undo (tbl : gmap string Settings.Row)
    (entry : string * option Settings.Row) : gmap string Settings.Row :=
  match entry.2 with
  | Some row => <[entry.1 := row]> tbl
  | None => delete entry.1 tbl
  end.

(** What dropping a [Transaction] that was not committed does. *)
Definition rollback (tx : Transaction) : gmap string Settings.Row :=
  foldl undo (tx_rows tx) (tx_journal tx).

(** [tx.commit()], when SQLite accepts it. *)
Definition commit (tx : Transaction) : gmap string Settings.Row :=
  tx_rows tx.

(** [for pair in pairs { tx.execute(...)?; }]: a statement that SQLite
    refuses changes nothing and ends the loop. *)
Fixpoint execute_pairs (db : Sqlite) (updated_at : string) (n : nat)
    (pairs : list SettingInput) (tx : Transaction)
    : Result unit string * Transaction :=
  match pairs with
  | [] => (Ok tt, tx)
  | item :: rest =>
      match execute_error db n with
      | Some e => (Err e, tx)
      | None => execute_pairs db updated_at (S n) rest (upsert updated_at tx item)
      end
  end.

(** [set_settings]: every early return drops the transaction. *)
Definition set_settings (db : Sqlite) (updated_at : string)
    (pairs : list SettingInput) (tbl : gmap string Settings.Row)
    : Result unit string * gmap string Settings.Row :=
  match connect_error db with
  | Some e => (Err e, tbl)
  | None =>
      match transaction_error db with
      | Some e => (Err e, tbl)
      | None =>
          match execute_pairs db updated_at 0 pairs (transaction tbl) with
          | (Err e, tx) => (Err e, rollback tx)
          | (Ok _, tx) =>
              match commit_error db with
              | Some e => (Err e, rollback tx)
              | None => (Ok tt, commit tx)
              end
          end
      end
  end.

(** The value of the last pair with key [k]. *)
Fixpoint last_value (k : string) (pairs : list SettingInput) : option string :=
  match pairs with
  | [] => None
  | item :: rest =>
      match last_value k rest with
      | Some v => Some v
      | None => if String.eqb (key item) k then Some (value item) else None
      end
  end.

Definition healthy : Sqlite := mkSqlite None None (fun _ => None) None.

(** *** Settings.tsx *)

Record SettingsMap : Type := mkSettingsMap {
  provider_name : string;
  base_url : string;
  model : string;
  api_key : string;
  temperature : string;
  max_tokens : string
}.

Definition DEFAULT_SETTINGS : SettingsMap :=
  {| provider_name := "openai";
     base_url := "https://api.openai.com/v1";
     model := "gpt-4o";
     api_key := "";
     temperature := "0.2";
     max_tokens := "4000" |}.

(** [map.k || d]: the value assigned last under [k] by
    [data.forEach((item) => { map[item.key] = item.value })], unless it is
    missing or empty. *)
Definition or_default (data : list SettingInput) (k d : string) : string :=
  match last_value k data with
  | Some v => if String.eqb v "" then d else v
  | None => d
  end.

(** [loadSettings]: the state set from the rows [getSettings] gave. *)
Definition loadSettings (data : list SettingInput) : SettingsMap :=
  {| provider_name :=
       or_default data "provider_name" (provider_name DEFAULT_SETTINGS);
     base_url := or_default data "base_url" (base_url DEFAULT_SETTINGS);
     model := or_default data "model" (model DEFAULT_SETTINGS);
     api_key := or_default data "api_key" (api_key DEFAULT_SETTINGS);
     temperature := or_default data "temperature" (temperature DEFAULT_SETTINGS);
     max_tokens := or_default data "max_tokens" (max_tokens DEFAULT_SETTINGS) |}.

(** [handleSave]: the pairs handed to [setSettings]. *)
Definition handleSave (settings : SettingsMap) : list SettingInput :=
  [ mkSettingInput "provider_name" (provider_name settings);
    mkSettingInput "base_url" (base_url settings);
    mkSettingInput "model" (model settings);
    mkSettingInput "api_key" (api_key settings);
    mkSettingInput "temperature" (temperature settings);
    mkSettingInput "max_tokens" (max_tokens settings) ].

(** A form with every empty field replaced by its default. *)
Definition or_else (v d : string) : string :=
  if String.eqb v "" then d else v.

Definition with_defaults (s : SettingsMap) : SettingsMap :=
  {| provider_name := or_else (provider_name s) (provider_name DEFAULT_SETTINGS);
     base_url := or_else (base_url s) (base_url DEFAULT_SETTINGS);
     model := or_else (model s) (model DEFAULT_SETTINGS);
     api_key := or_else (api_key s) (api_key DEFAULT_SETTINGS);
     temperature := or_else (temperature s) (temperature DEFAULT_SETTINGS);
     max_tokens := or_else (max_tokens s) (max_tokens DEFAULT_SETTINGS) |}.

(** Rows as [getSettings] may return them for a table: one per key, in
    any order. *)
Definition rows_of (tbl : gmap string Settings.Row)
    (data : list SettingInput) : Prop :=
  forall k, last_value k data = Settings.value <$> tbl !! k.

Definition a_form : SettingsMap :=
  {| provider_name := "openrouter";
     base_url := "https://openrouter.ai/api/v1";
     model := "z-ai/glm-4.7-flash";
     api_key := "sk-from-the-form";
     temperature := "";
     max_tokens := "2000" |}.

End SettingsCommands.

(** ** Tool schemas and the dispatcher (repo_tools/schemas.rs,
    dispatcher.rs) *)

Module Dispatcher.

Definition property (type description : string) : Json.Value :=
  Json.Object [("type", Json.Str type); ("description", Json.Str description)].

(** The common shape of the seven [json!] values. *)
Definition schema (name description : string)
    (properties : list (string * Json.Value)) (required : list string)
    : Json.Value :=
  Json.Object
    [ ("type", Json.Str "function");
      ("function",
         Json.Object
           [ ("name", Json.Str name);
             ("description", Json.Str description);
             ("parameters",
                Json.Object
                  [ ("type", Json.Str "object");
                    ("properties", Json.Object properties);
                    ("required", Json.Array (List.map Json.Str required)) ]) ]) ].

Definition list_files_schema : Json.Value :=
  schema "list_files"
    "List files in the repository, respecting .gitignore. Returns relative paths."
    [ ("project_id", property "string" "Project ID to operate on");
      ("globs",
         Json.Object
           [ ("type", Json.Str "array");
             ("items", Json.Object [("type", Json.Str "string")]);
             ("description", Json.Str "Optional glob patterns to filter files") ]);
      ("max_files", property "integer" "Maximum files to return (default 2000)") ]
    ["project_id"].

Definition read_file_schema : Json.Value :=
  schema "read_file"
    "Read contents of a file within the repository. Large files are truncated."
    [ ("project_id", property "string" "Project ID");
      ("path", property "string" "Relative path to file within repo");
      ("max_bytes", property "integer" "Max bytes to read (default 200000)") ]
    ["project_id"; "path"].

Definition grep_schema : Json.Value :=
  schema "grep"
    "Search for text patterns in repository files. Uses ripgrep if available."
    [ ("project_id", property "string" "Project ID");
      ("query", property "string" "Search pattern");
      ("path", property "string" "Optional subdirectory to search within");
      ("max_results", property "integer" "Max matches to return (default 200)") ]
    ["project_id"; "query"].

Definition git_status_schema : Json.Value :=
  schema "git_status"
    "Get git status of the repository including branch info."
    [ ("project_id", property "string" "Project ID") ]
    ["project_id"].

Definition git_diff_schema : Json.Value :=
  schema "git_diff"
    "Get git diff of unstaged or staged changes."
    [ ("project_id", property "string" "Project ID");
      ("staged", property "boolean" "Show staged changes instead of unstaged") ]
    ["project_id"].

Definition git_log_short_schema : Json.Value :=
  schema "git_log_short"
    "Get recent commit history in concise format."
    [ ("project_id", property "string" "Project ID");
      ("max_commits",
         property "integer" "Number of commits to retrieve (default 10)") ]
    ["project_id"].

Definition run_command_schema : Json.Value :=
  schema "run_command"
    "Run allowlisted test, lint, or build commands. Auto-detects package manager."
    [ ("project_id", property "string" "Project ID");
      ("kind",
         Json.Object
           [ ("type", Json.Str "string");
             ("enum", Json.Array [Json.Str "tests"; Json.Str "lint"; Json.Str "build"]);
             ("description", Json.Str "Type of command to run") ]);
      ("runner",
         Json.Object
           [ ("type", Json.Str "string");
             ("enum",
                Json.Array [Json.Str "pnpm"; Json.Str "npm"; Json.Str "yarn";
                            Json.Str "cargo"; Json.Str "pytest"]);
             ("description",
                Json.Str "Optional explicit runner (auto-detected if not provided)") ]) ]
    ["project_id"; "kind"].

(** [repo_tool_schemas]. *)
Definition repo_tool_schemas : list Json.Value :=
  [ list_files_schema;
    read_file_schema;
    grep_schema;
    git_status_schema;
    git_diff_schema;
    git_log_short_schema;
    run_command_schema ].

(** The tool functions of Sprint 3, which are not among the sources:
    each takes the repository path, the arguments and the run id (and the
    application handle, which is the world they act on). *)
Definition Handler : Type :=
  string -> Json.Value -> string -> Result Json.Value string.

Record Handlers : Type := mkHandlers {
  list_files : Handler;
  read_file : Handler;
  grep : Handler;
  git_status : Handler;
  git_diff : Handler;
  git_log_short : Handler;
  run_command : Handler
}.

(** [dispatch_repo_tool]. *)
Definition dispatch_repo_tool (h : Handlers) (name : string)
    (args : Json.Value) (repo_path run_id : string)
    : Result Json.Value string :=
  if String.eqb name "list_files" then list_files h repo_path args run_id
  else if String.eqb name "read_file" then read_file h repo_path args run_id
  else if String.eqb name "grep" then grep h repo_path args run_id
  else if String.eqb name "git_status" then git_status h repo_path args run_id
  else if String.eqb name "git_diff" then git_diff h repo_path args run_id
  else if String.eqb name "git_log_short"
  then git_log_short h repo_path args run_id
  else if String.eqb name "run_command" then run_command h repo_path args run_id
  else Err ("Unknown tool: " ++ name)%string.

(** Reading a schema: the name the model will call, and the arguments it
    must give. *)
Definition schema_name (s : Json.Value) : option string :=
  (Json.get s "function" ≫= (fun f => Json.get f "name")) ≫= Json.as_str.

Definition schema_required (s : Json.Value) : list Json.Value :=
  match
    (Json.get s "function" ≫= (fun f => Json.get f "parameters"))
      ≫= (fun p => Json.get p "required")
  with
  | Some (Json.Array items) => items
  | _ => []
  end.

Definition schema_properties (s : Json.Value) : list string :=
  match
    (Json.get s "function" ≫= (fun f => Json.get f "parameters"))
      ≫= (fun p => Json.get p "properties")
  with
  | Some (Json.Object fields) => List.map fst fields
  | _ => []
  end.

(** The handlers in the order of the schema list. *)
Definition handlers_in_order (h : Handlers) : list Handler :=
  [ list_files h; read_file h; grep h; git_status h; git_diff h;
    git_log_short h; run_command h ].

Fixpoint handler_for (name : string) (table : list (option string * Handler))
    : option Handler :=
  match table with
  | [] => None
  | (n, f) :: rest =>
      if bool_decide (n = Some name) then Some f else handler_for name rest
  end.

End Dispatcher.

(** ** Sprint 2 commands: the connection test and the simple chat
    (settings.rs, commands.rs) *)

Module Commands.

Import Plan.

Record ProjectRow : Type := mkProjectRow {
  p_name : string;
  p_repo_path : string;
  p_created_at : string;
  p_last_opened_at : option string
}.

Record TaskRow : Type := mkTaskRow {
  t_project_id : string;
  t_title : string;
  t_mode : string;
  t_status : string;
  t_created_at : string;
  t_updated_at : string
}.

(** The database: [projects] and [tasks] by primary key, and the tables
    of plan mode. *)
Record Db : Type := mkDb {
  projects : gmap string ProjectRow;
  tasks : gmap string TaskRow;
  store : World
}.

Definition SYSTEM_PROJECT_ID : string := "system-project".
Definition SYSTEM_TASK_ID : string := "system-task-llm-test".

(** [INSERT OR IGNORE] by primary key. *)
Definition insert_or_ignore {A : Type} (k : string) (row : A)
    (tbl : gmap string A) : gmap string A :=
  match tbl !! k with
  | Some _ => tbl
  | None => <[k := row]> tbl
  end.

(** [ensure_system_project_task] (settings.rs): two statements, each of
    which SQLite may refuse. *)
Definition ensure_system_project_task (env : Env) (db : Db)
    : Result (string * string) string * Db :=
  let w := store db in
  let now := now_iso env (clock w) in
  match db_error env (clock w) with
  | Some e => (Err e, mkDb (projects db) (tasks db) (tick w))
  | None =>
      let projects' :=
        insert_or_ignore SYSTEM_PROJECT_ID
          (mkProjectRow "System" "__system__" now None) (projects db) in
      match db_error env (S (clock w)) with
      | Some e => (Err e, mkDb projects' (tasks db) (tick (tick w)))
      | None =>
          let tasks' :=
            insert_or_ignore SYSTEM_TASK_ID
              (mkTaskRow SYSTEM_PROJECT_ID "LLM Connectivity" "plan" "active"
                 now now)
              (tasks db) in
          (Ok (SYSTEM_PROJECT_ID, SYSTEM_TASK_ID),
           mkDb projects' tasks' (tick (tick w)))
      end
  end.

(** [get_api_key] of settings.rs: the variable, or the empty string. *)
Definition get_api_key (env : Env) : string :=
  match SPECTRAIL_API_KEY env with
  | Some key => key
  | None => ""
  end.

Definition with_store (db : Db) (w : World) : Db :=
  mkDb (projects db) (tasks db) w.

Definition Http : Type :=
  Llm.Network (Llm.OpenAIChatRequest Llm.ChatMessage)
              (Llm.OpenAIChatResponse Llm.ChatMessage).

(** [get_llm_config] (settings.rs): the settings are read, which SQLite
    may refuse, and the configuration built from them. *)
Definition get_llm_config (env : Env) (w : World)
    : Result Settings.LlmConfig string :=
  match read_error env w with
  | Some e => Err e
  | None => Ok (Settings.get_llm_config (serde env) (settings w))
  end.

(** [llm_test_connection]: how the call ends, and the database it
    leaves. *)
Definition llm_test_connection (env : Env) (http : Http)
    (permanent : Llm.Classifier) (db : Db)
    : Ending (Result string string) * Db :=
  match get_llm_config env (store db) with
  | Err e => (Returned (Err e), db)
  | Ok config =>
      let api_key := get_api_key env in
      match ensure_system_project_task env db with
      | (Err e, db1) => (Returned (Err e), db1)
      | (Ok (_, task_id), db1) =>
          match create_run env task_id "test" (store db1) with
          | (Err e, w2) => (Returned (Err e), with_store db1 w2)
          | (Ok run, w2) =>
              let client := Llm.new config api_key in
              match add_message env (r_id run) "user"
                      "Say 'OK' and nothing else." w2 with
              | (Err e, w3) => (Returned (Err e), with_store db1 w3)
              | (Ok _, w3) =>
                  match Llm.test_connection http permanent client with
                  | Unfinished => (Unfinished, with_store db1 w3)
                  | Panicked => (Panicked, with_store db1 w3)
                  | Returned (Err e) =>
                      (Returned (Err (Llm.LlmError_to_string e)),
                       with_store db1 w3)
                  | Returned (Ok response) =>
                      match add_message env (r_id run) "assistant" response
                              w3 with
                      | (Err e, w4) => (Returned (Err e), with_store db1 w4)
                      | (Ok _, w4) =>
                          (Returned (Ok response), with_store db1 w4)
                      end
                  end
              end
          end
      end
  end.

(** [llm_simple_chat]. *)
Definition llm_simple_chat (env : Env) (http : Http)
    (permanent : Llm.Classifier) (run_id : string) (user_message : string)
    (db : Db) : Ending (Result string string) * Db :=
  match get_llm_config env (store db) with
  | Err e => (Returned (Err e), db)
  | Ok config =>
      let api_key := get_api_key env in
      match add_message env run_id "user" user_message (store db) with
      | (Err e, w1) => (Returned (Err e), with_store db w1)
      | (Ok _, w1) =>
          let client := Llm.new config api_key in
          let messages := [Llm.mkChatMessage "user" user_message] in
          match Llm.chat http permanent client messages with
          | Unfinished => (Unfinished, with_store db w1)
          | Panicked => (Panicked, with_store db w1)
          | Returned (Err e) =>
              (Returned (Err (Llm.LlmError_to_string e)), with_store db w1)
          | Returned (Ok response) =>
              match add_message env run_id "assistant" response w1 with
              | (Err e, w2) => (Returned (Err e), with_store db w2)
              | (Ok _, w2) => (Returned (Ok response), with_store db w2)
              end
          end
      end
  end.

(** The transcript of a run: role and text of its rows, oldest first. *)
Definition transcript (run_id : string) (w : World) : list (string * string) :=
  List.map (fun m => (m_role m, m_content m))
    (List.filter (fun m => String.eqb (m_run_id m) run_id) (messages w)).

Definition TEST_PROMPT : string := "Say 'OK' and nothing else.".

(** The columns of a message row that the commands choose. *)
Definition said (rows : list MessageRow) : list (string * string * string) :=
  List.map (fun m => (m_run_id m, m_role m, m_content m)) rows.

(** A database after both migrations, and environments with and without
    the variable set. *)
Definition fresh : Db := mkDb ∅ ∅ Demo.fresh.

Definition keyless_env : Env :=
  {| serde := Demo.strict_serde;
     get_task := Demo.find_task;
     get_project := Demo.find_project;
     get_repo_tool_schemas := [];
     SPECTRAIL_API_KEY := None;
     chat_with_tools := Demo.always_tools;
     execute_repo_tool := Demo.tools_ok Demo.files_result;
     db_error := fun _ => None;
     refuses_reads := fun _ => true;
     settings_error := settings_error Demo.looping_env;
     new_id := new_id Demo.looping_env;
     now_iso := now_iso Demo.looping_env |}.

Definition with_key (key : string) : Env :=
  {| serde := Demo.strict_serde;
     get_task := Demo.find_task;
     get_project := Demo.find_project;
     get_repo_tool_schemas := [];
     SPECTRAIL_API_KEY := Some key;
     chat_with_tools := Demo.always_tools;
     execute_repo_tool := Demo.tools_ok Demo.files_result;
     db_error := fun _ => None;
     refuses_reads := fun _ => true;
     settings_error := settings_error Demo.looping_env;
     new_id := new_id Demo.looping_env;
     now_iso := now_iso Demo.looping_env |}.

Definition keyed_env : Env := with_key "sk-test".

(** A key pasted with its line feed. *)
Definition newline_key_env : Env :=
  with_key (String.append "sk-test" (String (ascii_of_nat 10) EmptyString)).

Definition says_ok : Http :=
  DemoNet.answers Llm.ChatMessage
    (Llm.mkResponse "chatcmpl-1" "m"
       [Llm.mkChoice 0 (Llm.mkChatMessage "assistant" "OK") "stop"]).

End Commands.

(** ** The pages: Projects.tsx, ProjectDetail.tsx, TaskDetail.tsx

    A JavaScript string is a sequence of UTF-16 code units. *)

Module Ui.

Definition JsString : Type := list N.

(** A string literal of the source (ASCII). *)
Definition js (s : string) : JsString :=
  List.map (fun c => N.of_nat (nat_of_ascii c)) (list_ascii_of_string s).

(** WhiteSpace and LineTerminator of ECMAScript: what [trim] removes. *)
Definition is_white_space (c : N) : bool :=
  existsb (N.eqb c)
    [9; 10; 11; 12; 13; 32; 160; 5760; 8232; 8233; 8239; 8287; 12288; 65279]%N
  || ((8192 <=? c)%N && (c <=? 8202)%N).

Fixpoint drop_while (p : N -> bool) (s : JsString) : JsString :=
  match s with
  | [] => []
  | c :: rest => if p c then drop_while p rest else s
  end.

(** [String.prototype.trim]. *)
Definition trim (s : JsString) : JsString :=
  rev (drop_while is_white_space (rev (drop_while is_white_space s))).

(** The separators of [/[\\/]/]. *)
Definition is_separator (c : N) : bool := (c =? 47)%N || (c =? 92)%N.

(** [s.split(/[\\/]/)]. *)
Fixpoint split_path (s cur : JsString) : list JsString :=
  match s with
  | [] => [cur]
  | c :: rest =>
      if is_separator c then cur :: split_path rest []
      else split_path rest (cur ++ [c])
  end.

(** [Boolean(s)] for a string. *)
Definition truthy (s : JsString) : bool :=
  match s with [] => false | _ :: _ => true end.

(** [a || b] when [a] is a string or [undefined]. *)
Definition or_else (a : option JsString) (b : JsString) : JsString :=
  match a with
  | Some s => if truthy s then s else b
  | None => b
  end.

(** The name [onPickRepo] creates the project with:
    [name.trim() || repoPath.split(/[\\/]/).filter(Boolean).slice(-1)[0]
     || "Untitled Project"]. *)
Definition projName (name repoPath : JsString) : JsString :=
  or_else (Some (trim name))
    (or_else (last (List.filter truthy (split_path repoPath [])))
       (js "Untitled Project")).

(** The title [onCreateTask] creates the task with:
    [title.trim() || "New Task"]. *)
Definition taskTitle (title : JsString) : JsString :=
  or_else (Some (trim title)) (js "New Task").

(** *** TaskDetail.tsx: the artifact list after [onSavePlan] *)

(** The list handed to [setArtifacts]: [saved] in front of
    [artifacts.filter((a) => a.id !== saved.id)]. *)
Definition onSavePlan (saved : Plan.Artifact) (artifacts : list Plan.Artifact)
    : list Plan.Artifact :=
  saved ::
    List.filter (fun a => negb (String.eqb (Plan.a_id a) (Plan.a_id saved)))
      artifacts.

(** [artifacts.find((a) => a.kind === "plan_md") ?? null]. *)
Definition planArtifact (artifacts : list Plan.Artifact)
    : option Plan.Artifact :=
  List.find (fun a => String.eqb (Plan.kind a) "plan_md") artifacts.

Definition old_plan : Plan.Artifact :=
  Plan.mkArtifact "art-1" "task-1" None "plan_md" "# Old" "2025-01-01" false.

Definition new_plan : Plan.Artifact :=
  Plan.mkArtifact "art-1" "task-1" None "plan_md" "# New" "2025-01-02" false.

End Ui.

(** * Theorems *)

(** ** Path gate *)

Section PathGuardFacts.

Import PathGuard.

Lemma Component_eqb_eq (a b : Component) :
  Component_eqb a b = true <-> a = b.
Proof.
  destruct a, b; simpl; split; intro H; try congruence; try discriminate.
  - apply String.eqb_eq in H. now subst.
  - inversion H. apply String.eqb_refl.
Qed.

(** [starts_with] is prefix on component sequences. *)
Lemma starts_with_prefix (p base : PathBuf) :
  starts_with p base = true <-> exists rest, p = base ++ rest.
Proof.
  revert p. induction base as [|b base IH]; intros p; simpl.
  - split; [intros _; now exists p | intros _; now destruct p].
  - destruct p as [|c p].
    + split; [discriminate | intros [rest H]; discriminate].
    + simpl. rewrite andb_true_iff, Component_eqb_eq, IH. split.
      * intros [-> [rest ->]]. now exists rest.
      * intros [rest H]. inversion H. split; [reflexivity | now exists rest].
Qed.

Lemma cleaned_no_parent_dir (requested : string) :
  existsb is_parent_dir (cleaned requested) = false.
Proof.
  unfold cleaned. induction (components requested) as [|c l IH]; simpl.
  - reflexivity.
  - destruct c; simpl; assumption.
Qed.

(** C2 (as amended). Whenever [sanitize_path] returns a path, that path is
    the canonical form of the root joined with the request stripped of its
    [..] components, and it extends the canonical root component by
    component; every failure is [PathTraversal]; and [..] components are
    dropped before resolution, not rejected. *)
Theorem sanitize_path_contained
    (canonicalize : PathBuf -> option PathBuf)
    (base : PathBuf) (requested : string) :
  match sanitize_path canonicalize base requested with
  | Ok p =>
      canonicalize (join base (cleaned requested)) = Some p
      /\ exists r rest, canonicalize base = Some r /\ p = r ++ rest
  | Err e =>
      e = PathTraversal
      /\ (canonicalize (join base (cleaned requested)) = None
          \/ canonicalize base = None
          \/ exists t r,
               canonicalize (join base (cleaned requested)) = Some t
               /\ canonicalize base = Some r
               /\ starts_with t r = false)
  end
  /\ existsb is_parent_dir (cleaned requested) = false.
Proof.
  split; [| apply cleaned_no_parent_dir].
  unfold sanitize_path.
  destruct (canonicalize (join base (cleaned requested))) as [t|] eqn:Ht.
  - destruct (canonicalize base) as [r|] eqn:Hr.
    + destruct (starts_with t r) eqn:Hs; simpl.
      * split; [reflexivity |].
        apply starts_with_prefix in Hs as [rest ->]. now exists r, rest.
      * split; [reflexivity |]. right. right. now exists t, r.
    + split; [reflexivity |]. right. now left.
  - split; [reflexivity |]. now left.
Qed.

(** C2 (as worded) fails: [../README.md] carries a [..] component and is
    accepted, resolved inside the repository. *)
Lemma sanitize_path_accepts_dotdot :
  ~ Stated.path_gate (realpath demo_fs) demo_root "../README.md".
Proof.
  unfold Stated.path_gate.
  replace (sanitize_path (realpath demo_fs) demo_root "../README.md")
    with (@Ok PathBuf ToolError [RootDir; Normal "repo"; Normal "README.md"])
    by (vm_compute; reflexivity).
  intros [_ H]. vm_compute in H. discriminate.
Qed.

(** A link that leaves the repository is refused, and so is an absolute
    path outside it. *)
Example sanitize_path_symlink_escape :
  sanitize_path (realpath demo_fs) demo_root "out/passwd" = Err PathTraversal
  /\ sanitize_path (realpath demo_fs) demo_root "/etc/passwd" = Err PathTraversal
  /\ sanitize_path (realpath demo_fs) demo_root "src/main.rs"
     = Ok [RootDir; Normal "repo"; Normal "src"; Normal "main.rs"].
Proof. repeat split; vm_compute; reflexivity. Qed.

End PathGuardFacts.

(** ** Command allow-list *)

Section RunnerFacts.

Import Runner.

(** A command that no allow-list entry is a prefix of starts nothing. *)
Lemma run_command_disallowed (repo_path command : string)
    (rest : list (string * Json.Value)) (os : Os) :
  existsb (fun allowed => String.prefix allowed command) ALLOWED_COMMANDS = false ->
  run_command repo_path (Json.Object (("command", Json.Str command) :: rest)) os
    = (Err DisallowedCommand, os).
Proof.
  intros H. unfold run_command. simpl Json.get. cbn [mbind option_bind Json.as_str].
  now rewrite H.
Qed.

(** Whatever the arguments, at most one process is started. *)
Lemma run_command_spawns_at_most_one (repo_path : string)
    (args : Json.Value) (os : Os) :
  spawned (run_command repo_path args os).2 = spawned os
  \/ exists sp, spawned (run_command repo_path args os).2 = spawned os ++ [sp].
Proof.
  unfold run_command.
  destruct (Json.get args "command" ≫= Json.as_str) as [command|]; [| now left].
  destruct (negb _); [now left |].
  destruct (split_whitespace command) as [|program rest]; [now left |].
  unfold spawn. right.
  destruct (os_output os _); simpl; eauto.
Qed.

(** C8 (the code at the failing input).  [pytest-evil --rootdir=/] is not
    an entry of the allow-list, and its program and arguments are those of
    no entry; the check is a prefix test, [pytest] is a prefix, and the
    process [pytest-evil] is started. *)
Theorem run_command_prefix_spawns :
  let command := "pytest-evil --rootdir=/" in
  let args := Json.Object [("command", Json.Str command)] in
  existsb (String.eqb command) ALLOWED_COMMANDS = false
  /\ existsb (fun argv => bool_decide (argv = split_whitespace command))
       allowed_argv = false
  /\ (run_command "/repo" args quiet_os).1
     = Ok (output_json (mkOutput true (Some 0%Z) "" ""))
  /\ spawned (run_command "/repo" args quiet_os).2
     = [mkSpawn "pytest-evil" ["--rootdir=/"] "/repo" true 120].
Proof. repeat split; vm_compute; reflexivity. Qed.

End RunnerFacts.

(** ** Settings defaults *)

Section SettingsFacts.

Import Settings.

Lemma insert_or_ignore_lookup (now : string) (tbl : gmap string Row)
    (kv : string * string) (k : string) :
  insert_or_ignore now tbl kv !! k =
    match tbl !! k with
    | Some r => Some r
    | None => if bool_decide (kv.1 = k) then Some (mkRow kv.2 now) else None
    end.
Proof.
  unfold insert_or_ignore.
  destruct (tbl !! kv.1) as [r|] eqn:Hkv.
  - destruct (tbl !! k) as [r'|] eqn:Hk; [reflexivity |].
    case_bool_decide; [congruence | reflexivity].
  - rewrite lookup_insert. case_decide as Heq.
    + subst k. rewrite Hkv. now rewrite bool_decide_eq_true_2.
    + rewrite bool_decide_eq_false_2 by assumption. now destruct (tbl !! k).
Qed.

(** [INSERT OR IGNORE]: a stored row survives the migration. *)
Lemma migration_002_keeps (now : string) (tbl : gmap string Row)
    (k : string) (r : Row) :
  tbl !! k = Some r -> migration_002 now tbl !! k = Some r.
Proof.
  unfold migration_002. generalize seed_rows. intros rows. revert tbl.
  induction rows as [|kv rows IH]; intros tbl H; simpl; [assumption |].
  apply IH. rewrite insert_or_ignore_lookup. now rewrite H.
Qed.

Lemma migration_002_base_url (now : string) (tbl : gmap string Row) :
  tbl !! "base_url" = None ->
  migration_002 now tbl !! "base_url"
    = Some (mkRow "https://openrouter.ai/api/v1" now).
Proof.
  intros H. unfold migration_002, seed_rows. simpl foldl.
  repeat (rewrite insert_or_ignore_lookup; simpl fst; simpl snd).
  rewrite H. reflexivity.
Qed.

Lemma migration_002_model (now : string) (tbl : gmap string Row) :
  tbl !! "model" = None ->
  migration_002 now tbl !! "model" = Some (mkRow "z-ai/glm-4.7-flash" now).
Proof.
  intros H. unfold migration_002, seed_rows. simpl foldl.
  repeat (rewrite insert_or_ignore_lookup; simpl fst; simpl snd).
  rewrite H. reflexivity.
Qed.

End SettingsFacts.

Section SettingsClaims.

Import Settings.

(** C9 (as amended). The documented strings are no fallback of the
    builders: with no [base_url] or no [model] among the settings,
    [build_llm_config] and [LlmConfig::from_settings] give the empty string
    (a stored value is used as it is).  The numbers do fall back in
    [build_llm_config], to 0.2 and 4000, when the key is absent or its text
    does not parse.  Migration 002 leaves every stored row as it is. *)
Theorem config_fallbacks (sd : Serde) (settings : gmap string string)
    (now : string) (tbl : gmap string Row) :
  base_url (build_llm_config sd settings)
    = match settings !! "base_url" with Some v => v | None => "" end
  /\ base_url (from_settings sd settings)
     = match settings !! "base_url" with Some v => v | None => "" end
  /\ model (build_llm_config sd settings)
     = match settings !! "model" with Some v => v | None => "" end
  /\ model (from_settings sd settings)
     = match settings !! "model" with Some v => v | None => "" end
  /\ temperature (build_llm_config sd settings)
     = match settings !! "temperature" with
       | Some text =>
           match parse_f64 sd text with
           | Some t => t
           | None => 0x1.999999999999ap-3%float
           end
       | None => 0x1.999999999999ap-3%float
       end
  /\ max_tokens (build_llm_config sd settings)
     = match settings !! "max_tokens" with
       | Some text =>
           match parse_i64 text with Some n => n | None => 4000%Z end
       | None => 4000%Z
       end
  /\ (forall k r, tbl !! k = Some r -> migration_002 now tbl !! k = Some r).
Proof.
  unfold build_llm_config, from_settings.
  cbn [base_url model temperature max_tokens].
  destruct (settings !! "base_url"), (settings !! "model"),
    (settings !! "temperature") as [t|], (settings !! "max_tokens") as [m|];
    cbn [unwrap_or_default mbind option_bind default];
    try destruct (parse_f64 sd t); try destruct (parse_i64 m);
    repeat split; try reflexivity; apply migration_002_keeps.
Qed.

Lemma config_fallbacks_witness :
  base_url (build_llm_config Demo.strict_serde ∅) = ""
  /\ model (from_settings Demo.strict_serde ∅) = ""
  /\ max_tokens (build_llm_config Demo.strict_serde {["max_tokens" := "many"]})
     = 4000%Z
  /\ migration_002 "2025-01-02"
       {["base_url" := mkRow "http://localhost:11434/v1" "2025-01-01"]}
       !! "base_url"
     = Some (mkRow "http://localhost:11434/v1" "2025-01-01").
Proof.
  destruct (config_fallbacks Demo.strict_serde ∅ "2025-01-02"
              {["base_url" := mkRow "http://localhost:11434/v1" "2025-01-01"]})
    as (H1 & _ & _ & H4 & _ & _ & H7).
  destruct (config_fallbacks Demo.strict_serde {["max_tokens" := "many"]}
              "2025-01-02" ∅) as (_ & _ & _ & _ & _ & H6 & _).
  split; [exact H1|]. split; [exact H4|]. split; [exact H6|].
  apply H7. reflexivity.
Defined.

(** C9 (as worded) fails on a fresh installation. *)
Lemma defaults_not_documented :
  ~ Stated.defaults Demo.strict_serde "2025-01-01".
Proof. intros [H _]. vm_compute in H. discriminate. Qed.

End SettingsClaims.

(** ** Chat client *)

Section LlmFacts.

Import Llm LlmSpec.

(** *** The loop of [retry] *)

Lemma retry_loop_attempts {T E : Type}
    (op : nat -> option (Result T (Backoff.Error E)))
    (latency random : nat -> N) (fuel : nat) :
  forall attempt elapsed b out,
    Backoff.retry_loop op latency random fuel attempt elapsed b = Returned out ->
    (attempt < Backoff.attempts out)%nat.
Proof.
  induction fuel as [|fuel IH]; intros attempt elapsed b out H; simpl in H.
  - discriminate.
  - destruct (op attempt) as [[v | [e | e ra]]|]; try discriminate.
    + inversion H; simpl; lia.
    + inversion H; simpl; lia.
    + destruct (match ra with
                | Some d => (Some d, b)
                | None => Backoff.next_backoff b (elapsed + latency attempt) (random attempt)
                end) as [[d|] b'].
      * apply IH in H. lia.
      * inversion H; simpl; lia.
Qed.

(** A call of [retry] that returned made its attempts one after the
    other: each of them before the last failed with a transient error, and
    the outcome is what the last attempt gave. *)
Lemma retry_loop_trace {T E : Type}
    (op : nat -> option (Result T (Backoff.Error E)))
    (latency random : nat -> N) (fuel : nat) :
  forall attempt elapsed b out,
    Backoff.retry_loop op latency random fuel attempt elapsed b = Returned out ->
    (forall j, (attempt <= j < Backoff.attempts out - 1)%nat ->
       exists e ra, op j = Some (Err (Backoff.Transient e ra)))
    /\ match op (Backoff.attempts out - 1)%nat with
       | Some (Ok v) => Backoff.result out = Ok v
       | Some (Err (Backoff.Permanent e)) => Backoff.result out = Err e
       | Some (Err (Backoff.Transient e _)) => Backoff.result out = Err e
       | None => False
       end.
Proof.
  induction fuel as [|fuel IH]; intros attempt elapsed b out H; simpl in H.
  - discriminate.
  - assert (Hlast : forall r,
              out = Backoff.mkOutcome r (S attempt) (elapsed + latency attempt) ->
              (forall j, (attempt <= j < Backoff.attempts out - 1)%nat ->
                 exists e ra, op j = Some (Err (Backoff.Transient e ra)))
              /\ (Backoff.attempts out - 1)%nat = attempt
              /\ Backoff.result out = r).
    { intros r ->. cbn [Backoff.attempts Backoff.result].
      split; [intros j Hj; lia|]. split; [lia | reflexivity]. }
    destruct (op attempt) as [[v | [e | e ra]]|] eqn:Hop; try discriminate.
    + injection H as <-. destruct (Hlast _ eq_refl) as (H1 & H2 & H3).
      split; [exact H1|]. rewrite H2, Hop. exact H3.
    + injection H as <-. destruct (Hlast _ eq_refl) as (H1 & H2 & H3).
      split; [exact H1|]. rewrite H2, Hop. exact H3.
    + destruct (match ra with
                | Some d => (Some d, b)
                | None => Backoff.next_backoff b (elapsed + latency attempt) (random attempt)
                end) as [[d|] b'].
      * pose proof (retry_loop_attempts _ _ _ _ _ _ _ _ H) as Hatt.
        apply IH in H as [H1 H2]. split; [|exact H2].
        intros j Hj. destruct (Nat.eq_dec j attempt) as [->|Hne].
        -- eauto.
        -- apply H1. lia.
      * injection H as <-. destruct (Hlast _ eq_refl) as (H1 & H2 & H3).
        split; [exact H1|]. rewrite H2, Hop. exact H3.
Qed.

(** A wait drawn from an interval of at least 500 ms is at least 250 ms. *)
Lemma random_wait_lower_bound (random c : N) :
  (500 <= c)%N ->
  (250 <= Backoff.get_random_value_from_interval 500 random c)%N.
Proof.
  intros Hc. unfold Backoff.get_random_value_from_interval.
  assert (500 * c / 1000 <= c / 2)%N as Hhalf.
  { replace (500 * c)%N with (c * 500)%N by lia.
    change 1000%N with (2 * 500)%N.
    rewrite N.Div0.div_mul_cancel_r by lia. lia. }
  assert (c / 2 + 250 <= c)%N as Hc2.
  { assert (2 * (c / 2) <= c)%N by (apply N.Div0.mul_div_le).
    assert (250 <= c / 2)%N by (apply N.div_le_lower_bound; lia).
    lia. }
  generalize dependent (500 * c / 1000)%N. intros X HX.
  generalize (random mod 1000 * (c + X - (c - X) + 1) / 1000)%N.
  intros Y. generalize dependent (c / 2)%N. intros h HX Hh. lia.
Qed.

Lemma increment_keeps_floor (b : Backoff.ExponentialBackoff) :
  Backoff.multiplier b = 1500%N ->
  Backoff.max_interval b = 4000%N ->
  (500 <= Backoff.current_interval b)%N ->
  (500 <= Backoff.increment_current_interval b)%N.
Proof.
  intros Hmul Hmi Hci.
  unfold Backoff.increment_current_interval. rewrite Hmi, Hmul.
  change (4000 * 1000 / 1500)%N with 2666%N.
  destruct (2666 <=? Backoff.current_interval b)%N eqn:Hc; [lia |].
  apply N.div_le_lower_bound; lia.
Qed.

(** The waits of the policy of [chat] are at least 250 ms each and end
    within 30 s, so the loop ends before its fuel does. *)
Lemma retry_loop_total {T E : Type}
    (op : nat -> option (Result T (Backoff.Error E)))
    (latency random : nat -> N) (fuel : nat) :
  Backoff.plain op ->
  forall attempt elapsed b,
    Backoff.max_elapsed_time b = Some 30000%N ->
    Backoff.randomization_factor b = 500%N ->
    Backoff.multiplier b = 1500%N ->
    Backoff.max_interval b = 4000%N ->
    (500 <= Backoff.current_interval b)%N ->
    (elapsed <= 30000)%N ->
    (30250 < elapsed + 250 * N.of_nat fuel)%N ->
    exists out,
      Backoff.retry_loop op latency random fuel attempt elapsed b = Returned out.
Proof.
  intros Hop.
  induction fuel as [|fuel IH]; intros attempt elapsed b Hmax Hrf Hmul Hmi Hci He Hf.
  - simpl in Hf. lia.
  - cbn [Backoff.retry_loop].
    destruct (Hop attempt) as (r & -> & Hr).
    destruct r as [v | [e | e [d|]]]; [eauto | eauto | exfalso; eapply Hr; reflexivity |].
    unfold Backoff.next_backoff. rewrite Hmax, Hrf.
    destruct (30000 <? elapsed + latency attempt)%N eqn:Hlt; [eauto |].
    apply N.ltb_ge in Hlt.
    pose proof (random_wait_lower_bound (random attempt) _ Hci) as Hw.
    revert Hw.
    generalize (Backoff.get_random_value_from_interval 500 (random attempt)
                  (Backoff.current_interval b)).
    intros d Hw.
    destruct (elapsed + latency attempt + d <=? 30000)%N eqn:Hle; [| eauto].
    apply N.leb_le in Hle.
    apply IH;
      cbn [Backoff.set_current Backoff.max_elapsed_time
           Backoff.randomization_factor Backoff.multiplier
           Backoff.max_interval Backoff.current_interval];
      try assumption; [apply increment_keeps_floor; assumption | lia].
Qed.

Lemma retry_loop_budget {T E : Type}
    (op : nat -> option (Result T (Backoff.Error E)))
    (latency random : nat -> N) (fuel : nat) :
  Backoff.plain op ->
  forall attempt elapsed b out,
    Backoff.max_elapsed_time b = Some 30000%N ->
    Backoff.randomization_factor b = 500%N ->
    Backoff.multiplier b = 1500%N ->
    Backoff.max_interval b = 4000%N ->
    (500 <= Backoff.current_interval b)%N ->
    (elapsed <= 30000)%N ->
    Backoff.retry_loop op latency random fuel attempt elapsed b = Returned out ->
    exists start,
      (elapsed + 250 * N.of_nat (Backoff.attempts out - S attempt) <= start)%N
      /\ (start <= 30000)%N
      /\ Backoff.elapsed_ms out
         = (start + latency (Backoff.attempts out - 1)%nat)%N.
Proof.
  intros Hop.
  induction fuel as [|fuel IH];
    intros attempt elapsed b out Hmax Hrf Hmul Hmi Hci He H;
    [discriminate|].
  assert (Hstop : forall r,
            out = Backoff.mkOutcome r (S attempt) (elapsed + latency attempt) ->
            exists start,
              (elapsed + 250 * N.of_nat (Backoff.attempts out - S attempt) <= start)%N
              /\ (start <= 30000)%N
              /\ Backoff.elapsed_ms out
                 = (start + latency (Backoff.attempts out - 1)%nat)%N).
  { intros r ->. exists elapsed. cbn [Backoff.attempts Backoff.elapsed_ms].
    replace (S attempt - S attempt)%nat with 0%nat by lia.
    replace (S attempt - 1)%nat with attempt by lia.
    split; [lia|]. split; [assumption | reflexivity]. }
  cbn [Backoff.retry_loop] in H.
  destruct (Hop attempt) as (r & Hr & Hplain). rewrite Hr in H.
  destruct r as [v | [e | e [d|]]];
    [injection H as <-; eapply Hstop; reflexivity
    |injection H as <-; eapply Hstop; reflexivity
    |exfalso; eapply Hplain; reflexivity |].
  unfold Backoff.next_backoff in H. rewrite Hmax, Hrf in H.
  destruct (30000 <? elapsed + latency attempt)%N eqn:Hlt;
    [injection H as <-; eapply Hstop; reflexivity|].
  apply N.ltb_ge in Hlt.
  pose proof (random_wait_lower_bound (random attempt) _ Hci) as Hw.
  revert H Hw.
  generalize (Backoff.get_random_value_from_interval 500 (random attempt)
                (Backoff.current_interval b)).
  intros d H Hw.
  destruct (elapsed + latency attempt + d <=? 30000)%N eqn:Hle;
    [|injection H as <-; eapply Hstop; reflexivity].
  apply N.leb_le in Hle.
  pose proof (retry_loop_attempts _ _ _ _ _ _ _ _ H) as Hatt.
  apply IH in H;
    cbn [Backoff.set_current Backoff.max_elapsed_time
         Backoff.randomization_factor Backoff.multiplier
         Backoff.max_interval Backoff.current_interval];
    try assumption; [|apply increment_keeps_floor; assumption].
  destruct H as (start & Hlow & Hhigh & Hms).
  exists start. split; [|split; assumption].
  replace (Backoff.attempts out - S attempt)%nat
    with (S (Backoff.attempts out - S (S attempt))) by lia.
  lia.
Qed.

(** *** The closure of [chat] *)

Section WithClient.

Context {Msg : Type}.
Variable http : Network (OpenAIChatRequest Msg) (OpenAIChatResponse Msg).
Variable permanent : Classifier.
Variable self : LlmClient.

Lemma bearer_parse :
  header_value_parse ("Bearer " ++ api_key self)%string
  = if bearer_ok self then Some ("Bearer " ++ api_key self)%string else None.
Proof. reflexivity. Qed.

(** With a key that is no header value the closure panics at its first
    step, at every attempt. *)
Lemma operation_panics (request : OpenAIChatRequest Msg) (attempt : nat) :
  bearer_ok self = false -> operation http self request attempt = None.
Proof. intros H. unfold operation. rewrite bearer_parse, H. reflexivity. Qed.

(** How the closure classifies the answer to one request. *)
Lemma operation_answer (request : OpenAIChatRequest Msg) (attempt : nat) :
  bearer_ok self = true ->
  operation http self request attempt =
    Some
      match send http attempt
              (mkHttpRequest (chat_url self) (request_headers self) request) with
      | Err e => Err (Http e)
      | Ok reply =>
          if is_success (status reply) then
            match json reply with
            | Ok resp => Ok resp
            | Err e => Err (Http e)
            end
          else if (status reply =? 429)%N then Err RateLimited
          else if (status reply =? 401)%N then Err (Api 401 "Invalid API key")
          else Err (Api (status reply)
                      match text reply with Ok t => t | Err _ => "" end)
      end.
Proof.
  intros H. unfold operation. rewrite bearer_parse, H. f_equal.
  destruct (send http attempt _) as [reply|e]; [|reflexivity].
  cbv zeta. destruct (is_success (status reply)); [reflexivity|].
  destruct (status reply =? 429)%N; [reflexivity|].
  destruct (status reply =? 401)%N; [reflexivity|].
  destruct (500 <=? status reply)%N; reflexivity.
Qed.

Lemma classified_plain (request : OpenAIChatRequest Msg) :
  bearer_ok self = true ->
  Backoff.plain (fun attempt =>
           option_map (map_err (classify permanent))
             (operation http self request attempt)).
Proof.
  intros H a. rewrite (operation_answer request a H). cbn [option_map].
  eexists. split; [reflexivity|].
  intros e d. destruct (match send http a _ with Ok _ => _ | Err _ => _ end) as [v|e0];
    cbn [map_err]; [discriminate|].
  unfold classify. destruct (permanent e0); discriminate.
Qed.

Lemma send_with_retry_total (request : OpenAIChatRequest Msg) :
  bearer_ok self = true ->
  exists out, send_with_retry http permanent self retry_fuel request = Returned out.
Proof.
  intros H. unfold send_with_retry, Backoff.retry.
  apply retry_loop_total; [apply classified_plain, H | cbn; try reflexivity; lia ..].
Qed.

Lemma send_with_retry_panics (request : OpenAIChatRequest Msg) :
  bearer_ok self = false ->
  send_with_retry http permanent self retry_fuel request = Panicked.
Proof.
  intros H. unfold send_with_retry, Backoff.retry, retry_fuel.
  cbn [Backoff.retry_loop]. rewrite (operation_panics request 0 H). reflexivity.
Qed.

Lemma send_with_retry_within_budget (request : OpenAIChatRequest Msg)
    (fuel : nat)
    (out : Backoff.Outcome (OpenAIChatResponse Msg) LlmError) :
  bearer_ok self = true ->
  send_with_retry http permanent self fuel request = Returned out ->
  (0 < Backoff.attempts out)%nat
  /\ exists start,
       (250 * N.of_nat (Backoff.attempts out - 1) <= start)%N
       /\ (start <= 30000)%N
       /\ Backoff.elapsed_ms out
          = (start + latency http (Backoff.attempts out - 1)%nat)%N.
Proof.
  unfold send_with_retry, Backoff.retry. intros Hk H.
  split; [apply retry_loop_attempts in H; lia|].
  apply retry_loop_budget in H;
    [| apply classified_plain, Hk | try reflexivity; try (cbn; lia) ..].
  destruct H as (start & Hlow & Hhigh & Hms).
  exists start. split; [lia|]. split; assumption.
Qed.

(** The request that got a decoded success answer is the last one, and
    its body is the outcome of [retry]. *)
Lemma send_with_retry_answer (request : OpenAIChatRequest Msg) (fuel : nat)
    (out : Backoff.Outcome (OpenAIChatResponse Msg) LlmError)
    (k : nat) (reply : HttpReply (OpenAIChatResponse Msg))
    (resp : OpenAIChatResponse Msg) :
  bearer_ok self = true ->
  send_with_retry http permanent self fuel request = Returned out ->
  (k < Backoff.attempts out)%nat ->
  send http k (mkHttpRequest (chat_url self) (request_headers self) request)
    = Ok reply ->
  is_success (status reply) = true ->
  json reply = Ok resp ->
  Backoff.result out = Ok resp.
Proof.
  intros Hk H Hlt Hs Hst Hj. unfold send_with_retry, Backoff.retry in H.
  apply retry_loop_trace in H as [Hbefore Hlast].
  assert (Hop : option_map (map_err (classify permanent))
                  (operation http self request k) = Some (Ok resp)).
  { rewrite (operation_answer request k Hk), Hs, Hst, Hj. reflexivity. }
  destruct (Nat.eq_dec k (Backoff.attempts out - 1)) as [->|Hne].
  - rewrite Hop in Hlast. exact Hlast.
  - destruct (Hbefore k) as (e & ra & He); [lia|]. congruence.
Qed.

(** An outcome [Ok] comes from a decoded success answer to the last
    request. *)
Lemma send_with_retry_ok (request : OpenAIChatRequest Msg) (fuel : nat)
    (out : Backoff.Outcome (OpenAIChatResponse Msg) LlmError)
    (resp : OpenAIChatResponse Msg) :
  bearer_ok self = true ->
  send_with_retry http permanent self fuel request = Returned out ->
  Backoff.result out = Ok resp ->
  exists reply,
    send http (Backoff.attempts out - 1)
      (mkHttpRequest (chat_url self) (request_headers self) request) = Ok reply
    /\ is_success (status reply) = true
    /\ json reply = Ok resp.
Proof.
  intros Hk H Hres. unfold send_with_retry, Backoff.retry in H.
  apply retry_loop_trace in H as [_ Hlast].
  rewrite (operation_answer request _ Hk) in Hlast. cbn [option_map] in Hlast.
  destruct (send http _ _) as [reply|e]; cbn [map_err] in Hlast.
  - exists reply. split; [reflexivity|].
    destruct (is_success (status reply)).
    + destruct (json reply) as [r|e]; cbn [map_err] in Hlast.
      * split; [reflexivity|]. congruence.
      * unfold classify in Hlast. destruct (permanent _); congruence.
    + exfalso.
      destruct (status reply =? 429)%N;
        [|destruct (status reply =? 401)%N];
        cbn [map_err] in Hlast; unfold classify in Hlast;
        destruct (permanent _); congruence.
  - exfalso. unfold classify in Hlast. destruct (permanent _); congruence.
Qed.

End WithClient.

End LlmFacts.

Section LlmClaims.

Import Llm LlmSpec DemoNet.

(** C10. Whenever a request of [chat] or [chat_with_tools] is answered
    with a success status and a body that decodes, the call returns, and
    what it returns is decided by [choices] of that body: empty, the error
    [InvalidResponse "No choices in response"]; otherwise the first choice's
    message, its content from [chat], its content and its tool calls in
    order from [chat_with_tools].  A text that [chat] returns is always the
    content of the first choice of such an answer.  (Requests are sent only
    with a key that is a header value; [chat] wants it non-empty.  With a
    key that is no header value the closure panics before the first
    request.) *)
Theorem empty_choices_invalid_response
    (http : Network (OpenAIChatRequest ChatMessage) (OpenAIChatResponse ChatMessage))
    (http_t : Network (OpenAIChatRequest ToolChatMessage)
                      (OpenAIChatResponse ToolChatMessage))
    (permanent : Classifier) (self : LlmClient) (messages : list ChatMessage)
    (messages_t : list ToolChatMessage) (tools : list Json.Value) :
  let request :=
    mkRequest (Settings.model (config self)) messages None
      (Some (Settings.temperature (config self)))
      (Some (Settings.max_tokens (config self))) false in
  let request_t :=
    mkRequest (Settings.model (config self)) messages_t (Some tools)
      (Some (Settings.temperature (config self)))
      (Some (Settings.max_tokens (config self))) false in
  (api_key self <> "" -> bearer_ok self = true ->
   exists out,
     send_with_retry http permanent self retry_fuel request = Returned out
     /\ (exists r, chat http permanent self messages = Returned r)
     /\ forall k reply resp,
          (k < Backoff.attempts out)%nat ->
          send http k
            (mkHttpRequest (chat_url self) (request_headers self) request)
            = Ok reply ->
          is_success (status reply) = true ->
          json reply = Ok resp ->
          chat http permanent self messages =
            Returned match choices resp with
                     | [] => Err (InvalidResponse "No choices in response")
                     | c :: _ => Ok (content (message c))
                     end)
  /\ (bearer_ok self = true ->
      exists out,
        send_with_retry http_t permanent self retry_fuel request_t = Returned out
        /\ (exists r,
              chat_with_tools http_t permanent self messages_t tools = Returned r)
        /\ forall k reply resp,
             (k < Backoff.attempts out)%nat ->
             send http_t k
               (mkHttpRequest (chat_url self) (request_headers self) request_t)
               = Ok reply ->
             is_success (status reply) = true ->
             json reply = Ok resp ->
             chat_with_tools http_t permanent self messages_t tools =
               Returned match choices resp with
                        | [] => Err (InvalidResponse "No choices in response")
                        | c :: _ =>
                            Ok {| PlanTypes.content := t_content (message c);
                                  PlanTypes.tool_calls :=
                                    option_map
                                      (List.map (fun tc =>
                                         PlanTypes.mkToolCall (wire_id tc)
                                           (PlanTypes.mkToolFunction
                                              (name (wire_function tc))
                                              (arguments (wire_function tc)))))
                                      (t_tool_calls (message c)) |}
                        end)
  /\ (forall s,
        chat http permanent self messages = Returned (Ok s) ->
        exists k reply resp c rest,
          send http k
            (mkHttpRequest (chat_url self) (request_headers self) request)
            = Ok reply
          /\ is_success (status reply) = true
          /\ json reply = Ok resp
          /\ choices resp = c :: rest
          /\ s = content (message c))
  /\ (bearer_ok self = false ->
      (api_key self <> "" -> chat http permanent self messages = Panicked)
      /\ chat_with_tools http_t permanent self messages_t tools = Panicked).
Proof.
  intros request request_t.
  split; [|split; [|split]].
  - intros Hkey Hb.
    destruct (send_with_retry_total http permanent self request Hb) as [out Hout].
    exists out. split; [exact Hout|].
    assert (Hchat : chat http permanent self messages =
                    match Backoff.result out with
                    | Err e => Returned (Err e)
                    | Ok result =>
                        match choices result with
                        | c :: _ => Returned (Ok (content (message c)))
                        | [] => Returned (Err (InvalidResponse "No choices in response"))
                        end
                    end).
    { unfold chat. destruct (String.eqb (api_key self) "") eqn:Hk;
        [apply String.eqb_eq in Hk; contradiction|].
      fold request. rewrite Hout. reflexivity. }
    split.
    + rewrite Hchat. destruct (Backoff.result out) as [resp|e]; [|eauto].
      destruct (choices resp); eauto.
    + intros k reply resp Hlt Hs Hst Hj.
      rewrite Hchat,
        (send_with_retry_answer http permanent self request _ out k reply resp
           Hb Hout Hlt Hs Hst Hj).
      destruct (choices resp); reflexivity.
  - intros Hb.
    destruct (send_with_retry_total http_t permanent self request_t Hb)
      as [out Hout].
    exists out. split; [exact Hout|].
    unfold chat_with_tools. fold request_t. rewrite Hout. split.
    + destruct (Backoff.result out) as [resp|e]; [|eauto].
      destruct (choices resp); eauto.
    + intros k reply resp Hlt Hs Hst Hj.
      rewrite (send_with_retry_answer http_t permanent self request_t _ out k
                 reply resp Hb Hout Hlt Hs Hst Hj).
      destruct (choices resp); reflexivity.
  - intros s Hchat. unfold chat in Hchat.
    destruct (String.eqb (api_key self) ""); [discriminate|].
    fold request in Hchat.
    destruct (bearer_ok self) eqn:Hb;
      [|rewrite (send_with_retry_panics http permanent self request Hb) in Hchat;
        discriminate].
    destruct (send_with_retry http permanent self retry_fuel request)
      as [out| |] eqn:Hout; try discriminate.
    destruct (Backoff.result out) as [resp|e] eqn:Hres; [|discriminate].
    destruct (send_with_retry_ok http permanent self request _ out resp Hb Hout Hres)
      as (reply & Hs & Hst & Hj).
    destruct (choices resp) as [|c rest] eqn:Hc; [discriminate|].
    injection Hchat as <-.
    exists (Backoff.attempts out - 1)%nat, reply, resp, c, rest. auto.
  - intros Hb. split.
    + intros Hkey. unfold chat.
      destruct (String.eqb (api_key self) "") eqn:Hk;
        [apply String.eqb_eq in Hk; contradiction|].
      fold request.
      rewrite (send_with_retry_panics http permanent self request Hb).
      reflexivity.
    + unfold chat_with_tools. fold request_t.
      rewrite (send_with_retry_panics http_t permanent self request_t Hb).
      reflexivity.
Qed.

Lemma empty_choices_invalid_response_witness :
  chat (answers ChatMessage (no_choices ChatMessage)) all_transient client hello
    = Returned (Err (InvalidResponse "No choices in response"))
  /\ chat (answers ChatMessage two_choices) client_errors_permanent client hello
     = Returned (Ok "first")
  /\ chat_with_tools (answers ToolChatMessage tool_choice) all_transient
       client [] []
     = Returned (Ok (PlanTypes.mkLlmResponse None
                       (Some [PlanTypes.mkToolCall "call_1"
                                (PlanTypes.mkToolFunction "list_files" "{}")])))
  /\ chat (answers ChatMessage two_choices) all_transient newline_key_client
       hello
     = Panicked.
Proof.
  assert (Hkey : api_key client <> "") by discriminate.
  assert (Hbad : api_key newline_key_client <> "") by discriminate.
  split; [|split; [|split]].
  - destruct (empty_choices_invalid_response
                (answers ChatMessage (no_choices ChatMessage))
                (answers ToolChatMessage tool_choice)
                all_transient client hello [] []) as (H & _).
    destruct (H Hkey eq_refl) as (out & Hout & _ & Hany).
    apply (Hany 0%nat (mkHttpReply 200 (Ok (no_choices ChatMessage)) (Ok ""))
             (no_choices ChatMessage));
      [|reflexivity..].
    vm_compute in Hout. injection Hout as <-. cbn. lia.
  - destruct (empty_choices_invalid_response
                (answers ChatMessage two_choices)
                (answers ToolChatMessage tool_choice)
                client_errors_permanent client hello [] []) as (H & _).
    destruct (H Hkey eq_refl) as (out & Hout & _ & Hany).
    apply (Hany 0%nat (mkHttpReply 200 (Ok two_choices) (Ok "")) two_choices);
      [|reflexivity..].
    vm_compute in Hout. injection Hout as <-. cbn. lia.
  - destruct (empty_choices_invalid_response
                (answers ChatMessage two_choices)
                (answers ToolChatMessage tool_choice)
                all_transient client hello [] []) as (_ & H & _).
    destruct (H eq_refl) as (out & Hout & _ & Hany).
    apply (Hany 0%nat (mkHttpReply 200 (Ok tool_choice) (Ok "")) tool_choice);
      [|reflexivity..].
    vm_compute in Hout. injection Hout as <-. cbn. lia.
  - destruct (empty_choices_invalid_response
                (answers ChatMessage two_choices)
                (answers ToolChatMessage tool_choice)
                all_transient newline_key_client hello [] []) as (_ & _ & _ & H).
    destruct (H eq_refl) as [Hp _]. exact (Hp Hbad).
Defined.

End LlmClaims.

(** ** Plan mode *)

Section PlanFacts.

Import PlanTypes Plan PlanSpec.

Variable env : Env.

(** *** What each step leaves alone *)

Lemma log_extends_refl (run_id : string) (w : World) : log_extends run_id w w.
Proof.
  repeat split; try (exists []; now rewrite app_nil_r).
Qed.

Lemma log_extends_tick (run_id : string) (w : World) :
  log_extends run_id w (tick w).
Proof.
  repeat split; try (exists []; now rewrite app_nil_r).
Qed.

Lemma log_extends_trans (run_id : string) (w1 w2 w3 : World) :
  log_extends run_id w1 w2 -> log_extends run_id w2 w3 -> log_extends run_id w1 w3.
Proof.
  intros (A1 & A2 & A3 & [q1 A4] & [r1 [A5 A6]]) (B1 & B2 & B3 & [q2 B4] & [r2 [B5 B6]]).
  repeat split; try congruence.
  - exists (q1 ++ q2). rewrite B4, A4. now rewrite app_assoc.
  - exists (r1 ++ r2). split; [rewrite B5, A5; now rewrite app_assoc |].
    now apply Forall_app.
Qed.

Lemma same_requests_trans (w1 w2 w3 : World) :
  same_requests w1 w2 -> same_requests w2 w3 -> same_requests w1 w3.
Proof. unfold same_requests. congruence. Qed.

(** A relation that every step of a sequence respects is respected by the
    sequence. *)
Lemma bind_respects {E A B : Type} (R : World -> World -> Prop)
    (m : M E A) (k : A -> M E B) (w : World) :
  (forall w1 w2 w3, R w1 w2 -> R w2 w3 -> R w1 w3) ->
  R w (m w).2 ->
  (forall a w1, R w1 (k a w1).2) ->
  R w (bind m k w).2.
Proof.
  intros Htrans Hm Hk. unfold bind.
  destruct (m w) as [[a|e] w1]; simpl in *; [| assumption].
  eapply Htrans; [exact Hm | apply Hk].
Qed.

(** A sequence that comes back with a value went through each step. *)
Lemma bind_ok {E A B : Type} (m : M E A) (k : A -> M E B) (w w' : World)
    (b : B) :
  bind m k w = (Ok b, w') ->
  exists a w1, m w = (Ok a, w1) /\ k a w1 = (Ok b, w').
Proof.
  unfold bind. destruct (m w) as [[a|e] w1]; [eauto | discriminate].
Qed.

Lemma lift_ok {E A : Type} (r : Result A E) (w w' : World) (a : A) :
  lift r w = (Ok a, w') -> r = Ok a /\ w' = w.
Proof. unfold lift. intros H. inversion H. now split. Qed.

Lemma map_err_m_ok {E F A : Type} (f : E -> F) (m : M E A) (w w' : World)
    (a : A) :
  map_err_m f m w = (Ok a, w') -> m w = (Ok a, w').
Proof.
  unfold map_err_m. destruct (m w) as [[x|e] w1]; simpl; intros H;
    inversion H; reflexivity.
Qed.

Lemma bind_step_ok {E A B : Type} (m : M E A) (k : A -> M E B)
    (w w1 : World) (a : A) :
  m w = (Ok a, w1) -> bind m k w = k a w1.
Proof. unfold bind. intros ->. reflexivity. Qed.

Lemma bind_step_err {E A B : Type} (m : M E A) (k : A -> M E B)
    (w w1 : World) (e : E) :
  m w = (Err e, w1) -> bind m k w = (Err e, w1).
Proof. unfold bind. intros ->. reflexivity. Qed.

Lemma bind_err {E A B : Type} (m : M E A) (k : A -> M E B) (w w' : World)
    (e : E) :
  bind m k w = (Err e, w') ->
  m w = (Err e, w')
  \/ exists a w1, m w = (Ok a, w1) /\ k a w1 = (Err e, w').
Proof.
  unfold bind. destruct (m w) as [[a|e0] w1]; intros H.
  - right; eauto.
  - left. inversion H. reflexivity.
Qed.

Lemma map_err_m_err {E F A : Type} (f : E -> F) (m : M E A) (w w' : World)
    (e : F) :
  map_err_m f m w = (Err e, w') ->
  exists e0, m w = (Err e0, w') /\ e = f e0.
Proof.
  unfold map_err_m. destruct (m w) as [[x|e0] w1]; simpl; intros H;
    inversion H; eauto.
Qed.

Lemma lift_err {E A : Type} (r : Result A E) (w w' : World) (e : E) :
  lift r w = (Err e, w') -> r = Err e /\ w' = w.
Proof. unfold lift. intros H. inversion H. now split. Qed.

Lemma ignore_err_ok {E F A : Type} (m : M E A) (w : World) :
  @ignore_err E F A m w = (Ok tt, (m w).2).
Proof. unfold ignore_err. destruct (m w); reflexivity. Qed.

Lemma bind_cases {E A B : Type} (m : M E A) (k : A -> M E B) (w : World) :
  (exists e w1, m w = (Err e, w1) /\ bind m k w = (Err e, w1))
  \/ (exists a w1, m w = (Ok a, w1) /\ bind m k w = k a w1).
Proof.
  unfold bind. destruct (m w) as [[a|e] w1]; [right | left]; eauto.
Qed.

Lemma lift_world {E A : Type} (r : Result A E) (w w1 : World) (x : Result A E) :
  lift r w = (x, w1) -> w1 = w.
Proof. unfold lift. intros H. now inversion H. Qed.

Lemma add_message_log (run_id role content : string) (w : World) :
  log_extends run_id w (add_message env run_id role content w).2
  /\ same_requests w (add_message env run_id role content w).2.
Proof.
  unfold add_message, same_requests.
  destruct (db_error env (clock w)); simpl; split; try reflexivity.
  - apply log_extends_tick.
  - repeat split; try (exists []; now rewrite app_nil_r).
    eexists [_]. split; [reflexivity |]. now constructor.
Qed.

Lemma execute_single_tool_log (run_id project_id : string)
    (tool_call : ToolCall) (w : World) :
  log_extends run_id w (execute_single_tool env run_id project_id tool_call w).2
  /\ same_requests w (execute_single_tool env run_id project_id tool_call w).2.
Proof.
  unfold execute_single_tool, same_requests.
  destruct (from_str _ _); simpl; split; try reflexivity;
    [apply log_extends_tick | apply log_extends_refl].
Qed.

Lemma ignore_err_respects {E F A : Type} (R : World -> World -> Prop)
    (m : M E A) (w : World) :
  R w (m w).2 -> R w (@ignore_err E F A m w).2.
Proof. unfold ignore_err. now destruct (m w). Qed.

Lemma map_err_m_respects {E F A : Type} (R : World -> World -> Prop)
    (f : E -> F) (m : M E A) (w : World) :
  R w (m w).2 -> R w (map_err_m f m w).2.
Proof. unfold map_err_m. now destruct (m w). Qed.

Lemma execute_tool_calls_log (run_id project_id : string)
    (tool_calls : list ToolCall) :
  forall msgs w,
    log_extends run_id w
      (execute_tool_calls env run_id project_id tool_calls msgs w).2
    /\ same_requests w
      (execute_tool_calls env run_id project_id tool_calls msgs w).2.
Proof.
  induction tool_calls as [|tc rest IH]; intros msgs w; cbn [execute_tool_calls].
  - split; [apply log_extends_refl | reflexivity].
  - split.
    + apply bind_respects; [apply log_extends_trans | apply execute_single_tool_log |].
      intros payload w1.
      apply bind_respects; [apply log_extends_trans | |].
      * apply ignore_err_respects, add_message_log.
      * intros _ w2. apply IH.
    + apply bind_respects; [apply same_requests_trans | apply execute_single_tool_log |].
      intros payload w1.
      apply bind_respects; [apply same_requests_trans | |].
      * apply ignore_err_respects, add_message_log.
      * intros _ w2. apply IH.
Qed.

Section LoopFacts.

Variables (config : Settings.LlmConfig) (api_key : string).
Variables (run_id project_id : string) (tools : list Json.Value).

Lemma client_chat_log (msgs : list ChatMessage) (w : World) :
  log_extends run_id w (client_chat_with_tools env config api_key msgs tools w).2.
Proof.
  unfold client_chat_with_tools. simpl.
  repeat split; try (exists []; now rewrite app_nil_r). now exists [msgs].
Qed.

Lemma tool_call_loop_log (n : nat) :
  forall st w,
    log_extends run_id w
      (tool_call_loop env config api_key run_id project_id tools n st w).2.
Proof.
  induction n as [|n IH]; intros st w; cbn [tool_call_loop]; cbv zeta.
  - apply log_extends_refl.
  - apply bind_respects; [apply log_extends_trans | |].
    + apply map_err_m_respects, client_chat_log.
    + intros response w1.
      apply bind_respects; [apply log_extends_trans | |].
      * destruct (PlanTypes.content response).
        -- apply map_err_m_respects, add_message_log.
        -- apply log_extends_refl.
      * intros _ w2.
        destruct (PlanTypes.tool_calls response) as [[|c cs]|];
          try apply log_extends_refl.
        apply bind_respects; [apply log_extends_trans | |].
        -- apply execute_tool_calls_log.
        -- intros msgs' w3. apply IH.
Qed.

Lemma bind_requests_le {E A B : Type} (m : M E A) (k : A -> M E B)
    (w : World) (a b c : nat) :
  (a + b <= c)%nat ->
  (List.length (requests (m w).2) <= List.length (requests w) + a)%nat ->
  (forall x w1,
     (List.length (requests (k x w1).2) <= List.length (requests w1) + b)%nat) ->
  (List.length (requests (bind m k w).2) <= List.length (requests w) + c)%nat.
Proof.
  intros Hc Hm Hk. unfold bind.
  destruct (m w) as [[x|e] w1]; simpl in *; [| lia].
  specialize (Hk x w1). lia.
Qed.

Lemma same_requests_le (w w' : World) :
  same_requests w w' ->
  (List.length (requests w') <= List.length (requests w) + 0)%nat.
Proof. unfold same_requests. intros ->. lia. Qed.

(** The loop sends at most as many requests as it has iterations. *)
Lemma tool_call_loop_requests_le (n : nat) :
  forall st w,
    (List.length
       (requests (tool_call_loop env config api_key run_id project_id tools n st w).2)
     <= List.length (requests w) + n)%nat.
Proof.
  induction n as [|n IH]; intros st w; cbn [tool_call_loop]; cbv zeta.
  - simpl. lia.
  - apply (bind_requests_le _ _ _ 1 n); [lia | |].
    + unfold map_err_m, client_chat_with_tools. simpl. rewrite length_app. simpl. lia.
    + intros response w1.
      apply (bind_requests_le _ _ _ 0 n); [lia | |].
      * apply same_requests_le.
        destruct (PlanTypes.content response); [| reflexivity].
        apply map_err_m_respects, add_message_log.
      * intros _ w2.
        destruct (PlanTypes.tool_calls response) as [[|c cs]|];
          try (simpl; lia).
        apply (bind_requests_le _ _ _ 0 n); [lia | |].
        -- apply same_requests_le, execute_tool_calls_log.
        -- intros msgs' w3. apply IH.
Qed.

Lemma keeps_calling_step (first n : nat) :
  keeps_calling env first (S n) -> keeps_calling env (S first) n.
Proof. intros H k c a m t Hk. apply H. lia. Qed.

Lemma arguments_parse_step (first n : nat) :
  arguments_parse env first (S n) -> arguments_parse env (S first) n.
Proof. intros H k c a m t resp calls Hk. apply H. lia. Qed.

(** With a model that gives no final answer on the requests of the loop,
    a loop that comes back has used every iteration: the plan text is
    untouched, each iteration counted at least one tool call and sent one
    request. *)
Lemma tool_call_loop_exhausts (n : nat) :
  forall st w st' w',
    keeps_calling env (List.length (requests w)) n ->
    tool_call_loop env config api_key run_id project_id tools n st w = (Ok st', w') ->
    ls_final_plan st' = ls_final_plan st
    /\ (ls_tool_calls_count st + n <= ls_tool_calls_count st')%nat
    /\ List.length (requests w') = (List.length (requests w) + n)%nat.
Proof.
  induction n as [|n IH]; intros st w st' w' Hnf H.
  - simpl in H. inversion H; subst. repeat split; lia.
  - cbn [tool_call_loop] in H. cbv zeta in H.
    unfold bind at 1 in H.
    unfold map_err_m at 1, client_chat_with_tools in H.
    match type of H with context [chat_with_tools env ?k ?c ?a ?m ?t] =>
      destruct (Hnf k c a m t) as (resp & c0 & cs & Hresp & Hcalls); [lia|];
      rewrite Hresp in H end.
    cbn [map_err] in H.
    unfold bind at 1 in H.
    match type of H with
      context [match ?act ?w1 with pair _ _ => _ end] =>
        pose proof (eq_refl (act w1)) as Hact;
        assert (same_requests w1 (act w1).2) as Hsame
    end.
    { destruct (PlanTypes.content resp); [| reflexivity].
      apply map_err_m_respects, add_message_log. }
    match type of Hsame with same_requests _ (?act ?w1).2 =>
      destruct (act w1) as [[u|e] w2] end; [| discriminate].
    rewrite Hcalls in H.
    unfold bind at 1 in H.
    match type of H with context [execute_tool_calls env ?r ?p ?tcs ?m ?w2] =>
      pose proof (proj2 (execute_tool_calls_log r p tcs m w2)) as Hsame2;
      destruct (execute_tool_calls env r p tcs m w2) as [[msgs'|e] w3]
    end; [| discriminate].
    unfold same_requests in Hsame, Hsame2. cbn [snd] in Hsame, Hsame2.
    cbn [requests] in Hsame.
    assert (Hlen : List.length (requests w3) = S (List.length (requests w))).
    { rewrite Hsame2, Hsame, length_app. simpl. lia. }
    apply IH in H; [|rewrite Hlen; apply keeps_calling_step, Hnf].
    destruct H as (H1 & H2 & H3).
    cbn [ls_final_plan ls_tool_calls_count] in H1, H2.
    repeat split; [assumption | simpl List.length in H2; lia |].
    rewrite H3, Hlen. lia.
Qed.

Lemma add_message_succeeds (r role content : string) (w : World) :
  (forall n, db_error env n = None) ->
  exists w', add_message env r role content w = (Ok tt, w').
Proof. intros Hdb. unfold add_message. rewrite Hdb. eauto. Qed.

Lemma execute_single_tool_parsed (tool_call : ToolCall) (args : Json.Value)
    (w : World) :
  from_str (serde env) (arguments (function tool_call)) = Ok args ->
  execute_single_tool env run_id project_id tool_call w
    = (Ok (tool_payload env (clock w) run_id project_id tool_call args), tick w).
Proof.
  intros H. unfold execute_single_tool, tool_payload, with_project_id. rewrite H.
  now destruct (execute_repo_tool _ _ _ _ _ _).
Qed.

Lemma execute_single_tool_unparsed (tool_call : ToolCall) (e : string)
    (w : World) :
  from_str (serde env) (arguments (function tool_call)) = Err e ->
  execute_single_tool env run_id project_id tool_call w
    = (Err (mkPlanError "INVALID_ARGS"
              (String.append "Failed to parse tool args: " e)), w).
Proof. intros H. unfold execute_single_tool. now rewrite H. Qed.

Lemma execute_tool_calls_succeeds (tool_calls : list ToolCall) :
  Forall (parses env) tool_calls ->
  forall msgs w, exists msgs' w',
    execute_tool_calls env run_id project_id tool_calls msgs w = (Ok msgs', w')
    /\ same_requests w w'.
Proof.
  induction 1 as [|tc rest [v Hv] _ IH]; intros msgs w;
    cbn [execute_tool_calls].
  - unfold ret. eexists _, _. split; reflexivity.
  - unfold bind at 1.
    rewrite (execute_single_tool_parsed tc v w Hv).
    unfold bind at 1, ignore_err.
    match goal with |- context [add_message env ?a ?b ?c ?d] =>
      pose proof (proj2 (add_message_log a b c d)) as Hsame;
      destruct (add_message env a b c d) as [ra w2] end.
    match goal with |- context [execute_tool_calls env _ _ rest ?m w2] =>
      destruct (IH m w2) as (msgs' & w' & -> & Hsame') end.
    eexists _, _. split; [reflexivity|].
    unfold same_requests in *. cbn [snd tick requests] in Hsame.
    congruence.
Qed.

Lemma tool_call_loop_succeeds (n : nat) :
  (forall n, db_error env n = None) ->
  forall st w,
    keeps_calling env (List.length (requests w)) n ->
    arguments_parse env (List.length (requests w)) n ->
    exists st' w',
      tool_call_loop env config api_key run_id project_id tools n st w = (Ok st', w').
Proof.
  intros Hdb. induction n as [|n IH]; intros st w Hnf Hjson.
  - simpl. unfold ret. eauto.
  - cbn [tool_call_loop]. cbv zeta.
    unfold bind at 1.
    unfold map_err_m at 1, client_chat_with_tools.
    match goal with |- context [chat_with_tools env ?k ?c ?a ?m ?t] =>
      destruct (Hnf k c a m t) as (resp & c0 & cs & Hresp & Hcalls); [lia|];
      pose proof (Hjson k c a m t resp (c0 :: cs)) as Hparse;
      rewrite Hresp end.
    assert (Hp : Forall (parses env) (c0 :: cs)) by (apply Hparse; [lia | exact Hresp | exact Hcalls]).
    clear Hparse.
    cbn [map_err].
    unfold bind at 1.
    match goal with
      |- context [match ?act ?w1 with pair _ _ => _ end] =>
        assert (exists w2, act w1 = (Ok tt, w2) /\ same_requests w1 w2)
          as (w2 & -> & Hsame)
    end.
    { destruct (PlanTypes.content resp) as [c|];
        [| unfold ret; eexists; split; reflexivity].
      unfold map_err_m.
      match goal with |- context [add_message env ?a ?b ?c ?d] =>
        pose proof (proj2 (add_message_log a b c d)) as Hs;
        destruct (add_message_succeeds a b c d Hdb) as [w2 Hw2];
        rewrite Hw2 in Hs |- * end.
      simpl. eauto. }
    rewrite Hcalls. unfold bind at 1.
    match goal with |- context [execute_tool_calls env ?r ?p ?tcs ?m ?w2] =>
      destruct (execute_tool_calls_succeeds tcs Hp m w2) as (msgs' & w3 & -> & Hsame2)
    end.
    assert (Hlen : List.length (requests w3) = S (List.length (requests w))).
    { unfold same_requests in *. cbn [requests] in Hsame.
      rewrite Hsame2, Hsame, length_app. simpl. lia. }
    apply IH; rewrite Hlen;
      [apply keeps_calling_step, Hnf | apply arguments_parse_step, Hjson].
Qed.

End LoopFacts.

(** *** The steps around the loop *)

Lemma create_run_plan_cases (task_id : string) (w : World) :
  (exists e, create_run_plan env task_id w = (Err e, tick w))
  \/ (exists run,
        create_run_plan env task_id w
          = (Ok run,
             mkWorld (settings w) (runs w ++ [run]) (messages w) (artifacts w)
               (S (clock w)) (requests w))
        /\ ended_at run = None
        /\ r_task_id run = task_id
        /\ run_type run = "plan").
Proof.
  unfold create_run_plan, map_err_m, create_run.
  destruct (db_error env (clock w)) as [e|]; simpl.
  - left. eauto.
  - right. eexists. repeat split.
Qed.

Lemma upsert_artifact_cases (task_id : string) (phase_id : option string)
    (kind content : string) (w : World) :
  (exists e, upsert_artifact env task_id phase_id kind content w = (Err e, tick w))
  \/ (exists arts,
        upsert_artifact env task_id phase_id kind content w
          = (Ok tt,
             mkWorld (settings w) (runs w) (messages w) arts (S (clock w))
               (requests w))
        /\ exists a, In a arts /\ a_task_id a = task_id
                     /\ Plan.kind a = kind /\ a_content a = content).
Proof.
  unfold upsert_artifact.
  destruct (db_error env (clock w)) as [e|]; [left; eauto | right].
  eexists. split; [reflexivity |].
  destruct (existsb (same_slot task_id kind) (artifacts w)) eqn:Hex.
  - apply existsb_exists in Hex as (a & Hin & Ha).
    eexists. split.
    + apply in_map_iff. exists a. split; [reflexivity | exact Hin].
    + rewrite Ha. repeat split.
  - eexists. split; [apply in_or_app; right; left; reflexivity |]. repeat split.
Qed.

Lemma limit_reached (count : nat) :
  (12 <= count)%nat ->
  (MAX_TOOL_ITERATIONS <=? count)%nat && String.eqb "" "" = true.
Proof.
  intros H. unfold MAX_TOOL_ITERATIONS. apply Nat.leb_le in H. now rewrite H.
Qed.

Lemma read_error_none (w : World) :
  db_error env (clock w) = None -> read_error env w = None.
Proof. intros H. unfold read_error. rewrite H. reflexivity. Qed.

Lemma get_all_settings_cases (w : World) :
  (exists e, read_error env w = Some e
             /\ get_all_settings env w = (Err (settings_error env e), w))
  \/ (read_error env w = None
      /\ get_all_settings env w = (Ok (Settings.get_all_settings (settings w)), w)).
Proof.
  unfold get_all_settings. destruct (read_error env w) as [e|]; eauto.
Qed.

Lemma get_all_settings_read (w : World) :
  db_error env (clock w) = None ->
  get_all_settings env w = (Ok (Settings.get_all_settings (settings w)), w).
Proof.
  intros H. unfold get_all_settings. rewrite (read_error_none w H). reflexivity.
Qed.

Lemma get_all_settings_ok (w w1 : World) (stg : gmap string string) :
  get_all_settings env w = (Ok stg, w1) ->
  w1 = w /\ stg = Settings.get_all_settings (settings w)
  /\ read_error env w = None.
Proof.
  intros H. destruct (get_all_settings_cases w) as [(e & _ & He) | [Hdb Hok]];
    rewrite H in *; [discriminate|].
  inversion Hok. auto.
Qed.

Lemma generate_plan_requests_le (project_id task_id : string) (w : World) :
  (List.length (requests (generate_plan env project_id task_id w).2)
     <= List.length (requests w) + 12)%nat.
Proof.
  unfold generate_plan, MAX_TOOL_ITERATIONS.
  apply (bind_requests_le _ _ _ 0 12); [lia | unfold lift; cbn [snd]; lia |].
  intros task w1.
  apply (bind_requests_le _ _ _ 0 12); [lia | unfold lift; cbn [snd]; lia |].
  intros project w2.
  apply (bind_requests_le _ _ _ 0 12); [lia | |].
  { destruct (get_all_settings_cases w2) as [(e & _ & ->) | [_ ->]];
      cbn [snd]; lia. }
  intros settings w3.
  apply (bind_requests_le _ _ _ 0 12); [lia | unfold lift; cbn [snd]; lia |].
  intros key w4.
  apply (bind_requests_le _ _ _ 0 12); [lia | |].
  { destruct (create_run_plan_cases task_id w4) as [[e ->] | (run & -> & _)];
      cbn [snd tick requests]; lia. }
  intros run w5.
  apply (bind_requests_le _ _ _ 12 0); [lia | apply tool_call_loop_requests_le |].
  intros st w6.
  apply (bind_requests_le _ _ _ 0 0);
    [lia | | intros; unfold ret; cbn [snd]; lia].
  unfold map_err_m.
  match goal with |- context [upsert_artifact env ?a ?b ?c ?d w6] =>
    destruct (upsert_artifact_cases a b c d w6) as [[e ->] | (arts & -> & _)] end;
    cbn [snd tick requests]; lia.
Qed.

Lemma generate_plan_exhausted (project_id task_id : string) (w : World)
    (r : PlanResult) :
  keeps_calling env (List.length (requests w)) 12 ->
  (generate_plan env project_id task_id w).1 = Ok r ->
  List.length (requests (generate_plan env project_id task_id w).2)
    = (List.length (requests w) + 12)%nat
  /\ (12 <= tool_calls_count r)%nat
  /\ truncated r = true
  /\ plan_md r = limit_note ""
  /\ exists a, In a (artifacts (generate_plan env project_id task_id w).2)
               /\ a_task_id a = task_id
               /\ kind a = "plan_md" /\ a_content a = plan_md r.
Proof.
  intros Hnf.
  destruct (generate_plan env project_id task_id w) as [res w'] eqn:Hr.
  cbn [fst snd]. intros ->. unfold generate_plan in Hr.
  apply bind_ok in Hr as (task & w1 & Htask & Hr).
  apply lift_ok in Htask as [_ ->].
  apply bind_ok in Hr as (project & w1 & Hproject & Hr).
  apply lift_ok in Hproject as [_ ->].
  apply bind_ok in Hr as (settings & w1 & Hsettings & Hr).
  apply get_all_settings_ok in Hsettings as (-> & -> & _).
  apply bind_ok in Hr as (key & w1 & Hkey & Hr).
  apply lift_ok in Hkey as [_ ->].
  apply bind_ok in Hr as (run & w1 & Hrun & Hr).
  apply bind_ok in Hr as (st & w2 & Hloop & Hr).
  apply bind_ok in Hr as (u & w3 & Hup & Hr).
  apply map_err_m_ok in Hup.
  destruct (create_run_plan_cases task_id w) as [[e He] | (run' & Hrun' & _)];
    rewrite Hrun in *; [discriminate |].
  inversion Hrun'; subst run' w1. clear Hrun'.
  apply tool_call_loop_exhausts in Hloop; [|exact Hnf].
  destruct Hloop as (Hfinal & Hcount & Hreq).
  cbn [ls_final_plan ls_tool_calls_count requests] in Hfinal, Hcount, Hreq.
  rewrite Hfinal in Hr, Hup.
  rewrite (limit_reached (ls_tool_calls_count st)) in Hr, Hup
    by (unfold MAX_TOOL_ITERATIONS in *; lia).
  unfold ret in Hr. inversion Hr; subst r w'. clear Hr.
  match type of Hup with upsert_artifact env ?a ?b ?c ?d w2 = _ =>
    destruct (upsert_artifact_cases a b c d w2)
      as [[e He] | (arts & Hup' & a0 & Hin & Ha1 & Ha2 & Ha3)] end;
    rewrite Hup in *; [discriminate |].
  inversion Hup'; subst w3. clear Hup'.
  cbn [requests artifacts truncated plan_md tool_calls_count].
  unfold MAX_TOOL_ITERATIONS in Hreq, Hcount.
  split; [exact Hreq |]. split; [lia|]. split; [reflexivity |].
  split; [reflexivity |].
  exists a0. repeat split; assumption.
Qed.

Lemma generate_plan_returns (project_id task_id : string) (w : World)
    (task : Task) (project : Project) (key : string) :
  get_task env task_id = Ok task ->
  get_project env project_id = Ok project ->
  SPECTRAIL_API_KEY env = Some key ->
  (forall n, db_error env n = None) ->
  keeps_calling env (List.length (requests w)) 12 ->
  arguments_parse env (List.length (requests w)) 12 ->
  exists r, (generate_plan env project_id task_id w).1 = Ok r.
Proof.
  intros Htask Hproject Hkey Hdb Hnf Hjson.
  unfold generate_plan.
  unfold bind at 1. unfold lift at 1. rewrite Htask. cbn [map_err].
  unfold bind at 1. unfold lift at 1. rewrite Hproject. cbn [map_err].
  unfold bind at 1. rewrite (get_all_settings_read w (Hdb _)).
  unfold bind at 1. unfold lift at 1. unfold get_api_key. rewrite Hkey.
  unfold bind at 1.
  destruct (create_run_plan_cases task_id w) as [[e He] | (run & Hrun & _)].
  { unfold create_run_plan, map_err_m, create_run in He. rewrite Hdb in He.
    discriminate. }
  rewrite Hrun. unfold bind at 1.
  match goal with |- context [tool_call_loop env ?c ?k ?r ?p ?t ?n ?s ?w1] =>
    destruct (tool_call_loop_succeeds c k r p t n Hdb s w1 Hnf Hjson)
      as (st & w2 & ->)
  end.
  unfold bind at 1. unfold map_err_m.
  match goal with |- context [upsert_artifact env ?a ?b ?c ?d w2] =>
    destruct (upsert_artifact_cases a b c d w2) as [[e He] | (arts & Hup & _)] end.
  { unfold upsert_artifact in He. rewrite Hdb in He. discriminate. }
  rewrite Hup. cbn [map_err]. unfold ret. eauto.
Qed.

(** C1. [generate_plan] sends at most 12 requests to the provider.  If the
    model gives no final answer on any of them, a run that returns has sent
    exactly 12, has counted at least 12 tool calls, reports
    [truncated = true], and its plan, which is the stored [plan_md]
    artifact, is the truncation note appended to the (empty) final content;
    and such a run does return when task, project and key are there, SQLite
    accepts its writes and the arguments of the tool calls are JSON. *)
Theorem generate_plan_iteration_cap (project_id task_id : string) (w : World) :
  let out := generate_plan env project_id task_id w in
  let note := "

---

**Note**: Reached maximum tool call limit (12). Plan may be incomplete.
Consider breaking this task into smaller phases." in
  (List.length (requests out.2) <= List.length (requests w) + 12)%nat
  /\ (keeps_calling env (List.length (requests w)) 12 ->
      (forall r, out.1 = Ok r ->
         List.length (requests out.2) = (List.length (requests w) + 12)%nat
         /\ (12 <= tool_calls_count r)%nat
         /\ truncated r = true
         /\ plan_md r = note
         /\ exists a, In a (artifacts out.2) /\ a_task_id a = task_id
                      /\ kind a = "plan_md" /\ a_content a = note)
      /\ (forall task project key,
            get_task env task_id = Ok task ->
            get_project env project_id = Ok project ->
            SPECTRAIL_API_KEY env = Some key ->
            (forall n, db_error env n = None) ->
            arguments_parse env (List.length (requests w)) 12 ->
            exists r, out.1 = Ok r)).
Proof.
  cbv zeta. split; [apply generate_plan_requests_le |].
  intros Hnf. split.
  - intros r Hr.
    destruct (generate_plan_exhausted project_id task_id w r Hnf Hr)
      as (H1 & H2 & H3 & H4 & a & Hin & Ha1 & Ha2 & Ha3).
    split; [exact H1|]. split; [exact H2|]. split; [exact H3|].
    split; [exact H4|]. exists a. rewrite Ha3, H4. auto.
  - intros task project key Ht Hp Hk Hdb Hjson.
    now apply (generate_plan_returns _ _ _ task project key).
Qed.

End PlanFacts.

Section PlanClaims.

Import PlanTypes Plan PlanSpec Demo.

Lemma looping_env_keeps_calling (first count : nat) :
  keeps_calling looping_env first count.
Proof.
  intros n c k m t _. unfold looping_env, mk_env. cbn [chat_with_tools].
  unfold always_tools. do 3 eexists. split; reflexivity.
Qed.

Lemma looping_env_arguments_parse (first count : nat) :
  arguments_parse looping_env first count.
Proof.
  intros n c k m t resp calls _ Hresp Hcalls.
  unfold looping_env, mk_env in Hresp. cbn [chat_with_tools] in Hresp.
  unfold always_tools in Hresp. injection Hresp as <-.
  cbn [PlanTypes.tool_calls] in Hcalls. injection Hcalls as <-.
  constructor; [|constructor]. exists (Json.Object []). reflexivity.
Qed.

Lemma generate_plan_iteration_cap_witness :
  keeps_calling looping_env 0 12
  /\ arguments_parse looping_env 0 12
  /\ exists r,
       (generate_plan looping_env "proj-1" "task-1" fresh).1 = Ok r
       /\ tool_calls_count r = 12%nat
       /\ truncated r = true
       /\ plan_md r = limit_note "".
Proof.
  split; [apply looping_env_keeps_calling |].
  split; [apply looping_env_arguments_parse |].
  destruct (generate_plan_iteration_cap looping_env "proj-1" "task-1" fresh)
    as [_ H].
  destruct (H (looping_env_keeps_calling 0 12)) as [H1 H2].
  destruct (H2 the_task the_project "sk-test" eq_refl eq_refl eq_refl
              (fun _ => eq_refl) (looping_env_arguments_parse 0 12)) as [r Hr].
  exists r. destruct (H1 r Hr) as (_ & _ & B & C & _).
  split; [exact Hr |]. split; [|split; [exact B | exact C]].
  vm_compute in Hr. injection Hr as <-. reflexivity.
Defined.

(** *** [truncate_messages] by length *)

Lemma truncate_messages_short (msgs : list ChatMessage) (max_chars : N) :
  (List.length msgs < 3)%nat -> truncate_messages msgs max_chars = msgs.
Proof.
  intros H. unfold truncate_messages.
  apply Nat.ltb_lt in H. now rewrite H.
Qed.

(** Three to six messages: the window of six covers the system message too,
    which is then there twice; nothing is dropped. *)
Lemma truncate_messages_overlap (sys : ChatMessage) (rest : list ChatMessage)
    (max_chars : N) :
  (2 <= List.length rest <= 5)%nat ->
  truncate_messages (sys :: rest) max_chars = sys :: sys :: rest.
Proof.
  intros H. unfold truncate_messages.
  destruct (List.length (sys :: rest) <? 3)%nat eqn:Hlen.
  - apply Nat.ltb_lt in Hlen. simpl in Hlen. lia.
  - cbn [head]. rewrite firstn_all2 by (rewrite length_rev; simpl; lia).
    now rewrite rev_involutive.
Qed.

(** Seven messages or more: the system message and the last six remain. *)
Lemma truncate_messages_long (sys : ChatMessage)
    (dropped kept : list ChatMessage) (max_chars : N) :
  List.length kept = 6%nat ->
  truncate_messages (sys :: dropped ++ kept) max_chars = sys :: kept.
Proof.
  intros H. unfold truncate_messages.
  destruct (List.length (sys :: dropped ++ kept) <? 3)%nat eqn:Hlen.
  - apply Nat.ltb_lt in Hlen. simpl in Hlen. rewrite length_app in Hlen. lia.
  - cbn [head].
    replace (rev (sys :: dropped ++ kept)) with (rev kept ++ rev (sys :: dropped))
      by (change (sys :: dropped ++ kept) with ((sys :: dropped) ++ kept);
          now rewrite rev_app_distr).
    rewrite firstn_app, length_rev, H, Nat.sub_diag. cbn [firstn].
    rewrite app_nil_r, firstn_all2 by (rewrite length_rev; lia).
    now rewrite rev_involutive.
Qed.

(** C3 (the code at the failing input).  The model reads a file of 100,001
    bytes on its first turn.  Before the second request the context is the
    two seed messages, the tool message and the assistant message: more than
    100,000 characters, so it is pruned, and the result reports
    [truncated = true]; but what is sent has five messages, the system
    message twice, and nothing was dropped. *)
Theorem context_prune_duplicates_system :
  let out := generate_plan big_read_env "proj-1" "task-1" fresh in
  let sent := nth 1 (requests out.2) [] in
  List.map (List.map role) (requests out.2)
    = [["system"; "user"]; ["system"; "system"; "user"; "tool"; "assistant"]]
  /\ (MAX_CONTEXT_CHARS <? context_size (tl sent))%N = true
  /\ nth_error sent 0 = nth_error sent 1
  /\ List.map tool_call_id sent = [None; None; None; Some "call_1"; None]
  /\ out.1 = Ok (mkPlanResult "id-0" "# Implementation Plan: X" 1 true).
Proof.
  cbv zeta.
  split; [vm_compute; reflexivity |].
  split; [vm_compute; reflexivity |].
  split; [vm_compute; reflexivity |].
  split; vm_compute; reflexivity.
Qed.

(** C4 (the code at the failing input).  One tool call, then the answer:
    the context of the second request has the tool message for [call_1]
    before the assistant message that asked for [call_1], and breaks the
    transcript rule; the other order would keep it. *)
Theorem tool_message_precedes_its_request :
  let out := generate_plan reading_env "proj-1" "task-1" fresh in
  let seed := build_initial_messages the_task the_project in
  let tool_message :=
    mkChatMessage "tool" (Some (print_json files_result)) (Some "call_1") None in
  let assistant_message :=
    mkChatMessage "assistant" (Some "Let me look.") None
      (Some [call "call_1" "list_files" "{}"]) in
  requests out.2 = [seed; seed ++ [tool_message; assistant_message]]
  /\ tool_calls_answered (seed ++ [tool_message; assistant_message]) = false
  /\ tool_calls_answered (seed ++ [assistant_message; tool_message]) = true
  /\ List.map m_role (messages out.2) = ["assistant"; "tool"; "assistant"].
Proof.
  cbv zeta.
  split; [vm_compute; reflexivity |].
  split; [vm_compute; reflexivity |].
  split; vm_compute; reflexivity.
Qed.

(** An assistant turn without text leaves no row: with a model that only
    calls tools, the persisted rows are tool rows alone. *)
Example assistant_turn_without_content_not_persisted :
  List.map m_role (messages (generate_plan looping_env "proj-1" "task-1" fresh).2)
    = List.repeat "tool" 12.
Proof. vm_compute. reflexivity. Qed.

End PlanClaims.

Section PlanLoopSteps.

Import PlanTypes Plan PlanSpec PlanCommands.

Variable env : Env.
Variables (config : Settings.LlmConfig) (api_key : string).
Variables (run_id project_id : string) (tools : list Json.Value).

Lemma tool_call_loop_provider_error (n : nat) (st : LoopState) (w : World)
    (e : Llm.LlmError) :
  chat_with_tools env (List.length (requests w)) config api_key
    (sent_context st) tools = Err e ->
  tool_call_loop env config api_key run_id project_id tools (S n) st w
    = (Err (mkPlanError "LLM_ERROR" (Llm.LlmError_to_string e)),
       with_request w (sent_context st)).
Proof.
  intros He. cbn [tool_call_loop]. cbv zeta. fold (sent_context st).
  apply bind_step_err. unfold map_err_m, client_chat_with_tools.
  rewrite He. reflexivity.
Qed.

Lemma create_run_plan_ok (task_id : string) (w : World) :
  db_error env (clock w) = None ->
  create_run_plan env task_id w
    = (Ok (new_run env task_id "plan" w),
       with_run w (new_run env task_id "plan" w)).
Proof.
  intros Hdb. unfold create_run_plan, map_err_m, create_run.
  rewrite Hdb. reflexivity.
Qed.

Lemma seed_context (task : Task) (project : Project) (count : nat)
    (truncated : bool) (plan : string) :
  sent_context
    (mkLoopState (build_initial_messages task project) count truncated plan)
  = build_initial_messages task project.
Proof.
  unfold sent_context. cbn [ls_messages].
  destruct (_ <? _)%N; [|reflexivity].
  apply truncate_messages_short. cbn. lia.
Qed.

Lemma add_message_ok (r role content : string) (w : World) :
  db_error env (clock w) = None ->
  add_message env r role content w = (Ok tt, with_message env w r role content).
Proof. intros Hdb. unfold add_message. rewrite Hdb. reflexivity. Qed.

Lemma tool_call_loop_final (n : nat) (st : LoopState) (w : World)
    (resp : LlmResponse) :
  chat_with_tools env (List.length (requests w)) config api_key
    (sent_context st) tools = Ok resp ->
  PlanTypes.tool_calls resp = None \/ PlanTypes.tool_calls resp = Some [] ->
  db_error env (clock w) = None ->
  tool_call_loop env config api_key run_id project_id tools (S n) st w
    = (Ok (mkLoopState (sent_context st) (ls_tool_calls_count st)
             (if (MAX_CONTEXT_CHARS <? context_size (ls_messages st))%N
              then true else ls_truncated st)
             (unwrap_or_default (PlanTypes.content resp))),
       with_reply env (with_request w (sent_context st)) run_id
         (PlanTypes.content resp)).
Proof.
  intros Hresp Hfinal Hdb. cbn [tool_call_loop]. cbv zeta.
  fold (sent_context st).
  rewrite (bind_step_ok _ _ w (with_request w (sent_context st)) resp)
    by (unfold map_err_m, client_chat_with_tools; rewrite Hresp; reflexivity).
  rewrite (bind_step_ok _ _ _
             (with_reply env (with_request w (sent_context st)) run_id
                (PlanTypes.content resp)) tt).
  - destruct Hfinal as [-> | ->]; reflexivity.
  - destruct (PlanTypes.content resp) as [c|]; [|reflexivity].
    unfold map_err_m. rewrite add_message_ok by exact Hdb. reflexivity.
Qed.

End PlanLoopSteps.

Section ToolFailures.

Import PlanTypes Plan PlanSpec PlanCommands Demo.

Variable env : Env.
Variables (run_id project_id : string).

Lemma add_message_clock (r role content : string) (w : World) :
  clock (add_message env r role content w).2 = S (clock w)
  /\ requests (add_message env r role content w).2 = requests w.
Proof.
  unfold add_message. destruct (db_error env (clock w)); split; reflexivity.
Qed.

Lemma payload_of_parsed (clock : nat) (tool_call : ToolCall)
    (args : Json.Value) :
  from_str (serde env) (arguments (function tool_call)) = Ok args ->
  payload_of env clock run_id project_id tool_call
  = Some match execute_repo_tool env clock run_id project_id
                 (name (function tool_call))
                 (with_project_id project_id args) with
         | Ok val => to_string (serde env) val
         | Err e => to_string (serde env) (Json.Object [("error", Json.Str e)])
         end.
Proof. intros H. unfold payload_of, tool_payload, error_envelope. now rewrite H. Qed.

(** The calls of a turn, all with arguments that are JSON: one tool
    message per call, in order, each with the payload of its call. *)
Lemma execute_tool_calls_messages (tool_calls : list ToolCall) :
  Forall (parses env) tool_calls ->
  forall msgs w, exists w',
    execute_tool_calls env run_id project_id tool_calls msgs w
      = (Ok (msgs ++ tool_messages env (clock w) run_id project_id tool_calls), w')
    /\ requests w' = requests w.
Proof.
  induction 1 as [|tc rest [args Hargs] _ IH]; intros msgs w;
    cbn [execute_tool_calls tool_messages].
  - exists w. unfold ret. rewrite app_nil_r. split; reflexivity.
  - unfold bind at 1.
    rewrite (execute_single_tool_parsed env run_id project_id tc args w Hargs).
    unfold bind at 1, ignore_err.
    match goal with |- context [add_message env ?a ?b ?c ?d] =>
      destruct (add_message_clock a b c d) as [Hclock Hreq];
      destruct (add_message env a b c d) as [ra w2] end.
    cbn [snd tick clock requests] in Hclock, Hreq.
    match goal with |- context [execute_tool_calls env _ _ rest ?m w2] =>
      destruct (IH m w2) as (w' & -> & Hreq') end.
    exists w'. rewrite Hclock, <- app_assoc. cbn [app].
    unfold payload_of at 1. rewrite Hargs.
    split; [reflexivity | congruence].
Qed.

(** A call whose arguments are not JSON ends the loop over the calls. *)
Lemma execute_tool_calls_unparsed (parsed : list ToolCall) (bad : ToolCall)
    (rest : list ToolCall) (e : string) :
  Forall (parses env) parsed ->
  from_str (serde env) (arguments (function bad)) = Err e ->
  forall msgs w, exists w',
    execute_tool_calls env run_id project_id (parsed ++ bad :: rest) msgs w
      = (Err (mkPlanError "INVALID_ARGS"
                (String.append "Failed to parse tool args: " e)), w')
    /\ requests w' = requests w.
Proof.
  intros Hp Hbad. induction Hp as [|tc parsed [args Hargs] _ IH]; intros msgs w;
    cbn [app execute_tool_calls].
  - exists w. unfold bind at 1.
    rewrite (execute_single_tool_unparsed env run_id project_id bad e w Hbad).
    split; reflexivity.
  - unfold bind at 1.
    rewrite (execute_single_tool_parsed env run_id project_id tc args w Hargs).
    unfold bind at 1, ignore_err.
    match goal with |- context [add_message env ?a ?b ?c ?d] =>
      destruct (add_message_clock a b c d) as [_ Hreq];
      destruct (add_message env a b c d) as [ra w2] end.
    cbn [snd tick requests] in Hreq.
    match goal with |- context [execute_tool_calls env _ _ _ ?m w2] =>
      destruct (IH m w2) as (w' & -> & Hreq') end.
    exists w'. split; [reflexivity | congruence].
Qed.

Section Turn.

Variables (config : Settings.LlmConfig) (api_key : string).
Variable tools : list Json.Value.

(** Whatever comes of it, a turn begins with its request. *)
Lemma tool_call_loop_first_request (n : nat) (st : LoopState) (w : World) :
  exists more,
    requests (tool_call_loop env config api_key run_id project_id tools
                (S n) st w).2
    = requests w ++ sent_context st :: more.
Proof.
  cbn [tool_call_loop]. cbv zeta. fold (sent_context st).
  match goal with |- context [bind ?m ?k w] =>
    destruct (bind_cases m k w) as [(e & w1 & Hm & ->) | (resp & w1 & Hm & ->)]
  end;
    unfold map_err_m, client_chat_with_tools in Hm;
    destruct (chat_with_tools env _ _ _ _ _); inversion Hm; subst.
  { exists []. reflexivity. }
  match goal with |- context [requests (?act ?w1).2] =>
    assert (Hlog : log_extends run_id w1 (act w1).2) end.
  { apply bind_respects; [apply log_extends_trans | |].
    - destruct (PlanTypes.content resp).
      + apply map_err_m_respects, add_message_log.
      + apply log_extends_refl.
    - intros _ w2.
      destruct (PlanTypes.tool_calls resp) as [[|c cs]|];
        try apply log_extends_refl.
      apply bind_respects; [apply log_extends_trans | |].
      + apply execute_tool_calls_log.
      + intros msgs' w3. apply tool_call_loop_log. }
  destruct Hlog as (_ & _ & _ & [more Hreq] & _).
  cbn [requests] in Hreq. exists more. rewrite Hreq, <- app_assoc. reflexivity.
Qed.

(** A turn whose answer asks for tools, up to the calls. *)
Lemma tool_call_loop_asks (n : nat) (st : LoopState) (w : World)
    (resp : LlmResponse) (c : ToolCall) (cs : list ToolCall) :
  chat_with_tools env (List.length (requests w)) config api_key
    (sent_context st) tools = Ok resp ->
  PlanTypes.tool_calls resp = Some (c :: cs) ->
  (PlanTypes.content resp <> None -> db_error env (clock w) = None) ->
  tool_call_loop env config api_key run_id project_id tools (S n) st w
  = bind (execute_tool_calls env run_id project_id (c :: cs) (sent_context st))
      (fun msgs' =>
         tool_call_loop env config api_key run_id project_id tools n
           (mkLoopState
              (msgs' ++ [mkChatMessage "assistant" (PlanTypes.content resp)
                           None (PlanTypes.tool_calls resp)])
              (ls_tool_calls_count st + List.length (c :: cs))
              (if (MAX_CONTEXT_CHARS <? context_size (ls_messages st))%N
               then true else ls_truncated st)
              (ls_final_plan st)))
      (with_reply env (with_request w (sent_context st)) run_id
         (PlanTypes.content resp)).
Proof.
  intros Hresp Hcalls Hdb. cbn [tool_call_loop]. cbv zeta.
  fold (sent_context st).
  rewrite (bind_step_ok _ _ w (with_request w (sent_context st)) resp)
    by (unfold map_err_m, client_chat_with_tools; rewrite Hresp; reflexivity).
  rewrite (bind_step_ok _ _ _
             (with_reply env (with_request w (sent_context st)) run_id
                (PlanTypes.content resp)) tt).
  - rewrite Hcalls. reflexivity.
  - destruct (PlanTypes.content resp) as [text|]; [|reflexivity].
    unfold map_err_m.
    rewrite add_message_ok by (apply Hdb; discriminate). reflexivity.
Qed.

Lemma with_reply_facts (w : World) (msgs : list ChatMessage)
    (content : option string) :
  clock (with_reply env (with_request w msgs) run_id content)
    = tools_start w content
  /\ requests (with_reply env (with_request w msgs) run_id content)
     = requests w ++ [msgs].
Proof. destruct content; split; reflexivity. Qed.

End Turn.

End ToolFailures.

Section ToolFailureClaims.

Import PlanTypes Plan PlanSpec PlanCommands Demo.

(** C6 (as amended). In a turn whose answer asks for tools, a call whose
    arguments are JSON always yields a payload, the tool's result or
    [{"error": e}] when the tool fails, and the payload is the content of
    the tool message with the id of the call; when that holds of every call
    of the turn the loop goes on with the context extended by these tool
    messages and the assistant message, and the next request, if one is
    left, is made with it.  The first call whose arguments are not JSON ends
    the loop with the error [INVALID_ARGS], no further request is made, and
    [generate_plan] returns the error the loop ended with. *)
Theorem tool_errors_become_payloads (env : Env) :
  (forall clock run_id project_id tool_call args,
     from_str (serde env) (arguments (function tool_call)) = Ok args ->
     payload_of env clock run_id project_id tool_call
     = Some match execute_repo_tool env clock run_id project_id
                    (name (function tool_call))
                    (with_project_id project_id args) with
            | Ok val => to_string (serde env) val
            | Err e =>
                to_string (serde env) (Json.Object [("error", Json.Str e)])
            end)
  /\ (forall config api_key run_id project_id tools n st w resp c cs,
        chat_with_tools env (List.length (requests w)) config api_key
          (sent_context st) tools = Ok resp ->
        PlanTypes.tool_calls resp = Some (c :: cs) ->
        (PlanTypes.content resp <> None -> db_error env (clock w) = None) ->
        (Forall (parses env) (c :: cs) ->
         let st' := after_tools env run_id project_id st w resp (c :: cs) in
         exists w',
           tool_call_loop env config api_key run_id project_id tools (S n) st w
           = tool_call_loop env config api_key run_id project_id tools n st' w'
           /\ requests w' = requests w ++ [sent_context st]
           /\ (n <> 0%nat ->
               exists more,
                 requests
                   (tool_call_loop env config api_key run_id project_id tools
                      (S n) st w).2
                 = requests w ++ sent_context st :: sent_context st' :: more))
        /\ (forall parsed bad rest e,
              c :: cs = parsed ++ bad :: rest ->
              Forall (parses env) parsed ->
              from_str (serde env) (arguments (function bad)) = Err e ->
              exists w',
                tool_call_loop env config api_key run_id project_id tools
                  (S n) st w
                = (Err (mkPlanError "INVALID_ARGS"
                          (String.append "Failed to parse tool args: " e)), w')
                /\ requests w' = requests w ++ [sent_context st]))
  /\ (forall project_id task_id w task project key e w',
        get_task env task_id = Ok task ->
        get_project env project_id = Ok project ->
        SPECTRAIL_API_KEY env = Some key ->
        db_error env (clock w) = None ->
        tool_call_loop env
          (Settings.build_llm_config (serde env)
             (Settings.get_all_settings (settings w)))
          key (new_id env (clock w)) project_id (get_repo_tool_schemas env) 12
          (mkLoopState (build_initial_messages task project) 0 false "")
          (with_run w (new_run env task_id "plan" w))
        = (Err e, w') ->
        generate_plan env project_id task_id w = (Err e, w')).
Proof.
  split; [|split].
  - intros clock run_id project_id tool_call args H.
    now apply payload_of_parsed.
  - intros config api_key run_id project_id tools n st w resp c cs
      Hresp Hcalls Hdb.
    pose proof (tool_call_loop_asks env run_id project_id config api_key tools
                  n st w resp c cs Hresp Hcalls Hdb) as Hturn.
    destruct (with_reply_facts env run_id w (sent_context st)
                (PlanTypes.content resp)) as [Hclock Hreq].
    split.
    + intros Hp st'.
      destruct (execute_tool_calls_messages env run_id project_id (c :: cs) Hp
                  (sent_context st)
                  (with_reply env (with_request w (sent_context st)) run_id
                     (PlanTypes.content resp))) as (w' & Hex & Hreq').
      rewrite (bind_step_ok _ _ _ _ _ Hex) in Hturn.
      rewrite Hclock, <- app_assoc in Hturn.
      assert (Hgo : tool_call_loop env config api_key run_id project_id tools
                      (S n) st w
                    = tool_call_loop env config api_key run_id project_id tools
                        n st' w') by exact Hturn.
      clear Hturn. rename Hgo into Hturn.
      exists w'. split; [exact Hturn|].
      split; [congruence|].
      intros Hn. destruct n as [|m]; [contradiction|].
      destruct (tool_call_loop_first_request env run_id project_id config
                  api_key tools m st' w') as [more Hmore].
      exists more. rewrite Hturn, Hmore, Hreq', Hreq, <- app_assoc.
      reflexivity.
    + intros parsed bad rest e Hsplit Hp Hbad.
      destruct (execute_tool_calls_unparsed env run_id project_id parsed bad
                  rest e Hp Hbad (sent_context st)
                  (with_reply env (with_request w (sent_context st)) run_id
                     (PlanTypes.content resp))) as (w' & Hex & Hreq').
      rewrite <- Hsplit in Hex.
      rewrite (bind_step_err _ _ _ _ _ Hex) in Hturn.
      exists w'. split; [exact Hturn | congruence].
  - intros project_id task_id w task project key e w' Ht Hp Hk Hdb Hloop.
    unfold generate_plan.
    rewrite (bind_step_ok _ _ w w task) by (unfold lift; rewrite Ht; reflexivity).
    rewrite (bind_step_ok _ _ w w project)
      by (unfold lift; rewrite Hp; reflexivity).
    rewrite (bind_step_ok _ _ w w (Settings.get_all_settings (settings w)))
      by (apply get_all_settings_read, Hdb).
    rewrite (bind_step_ok _ _ w w key)
      by (unfold lift, get_api_key; rewrite Hk; reflexivity).
    rewrite (bind_step_ok _ _ w _ _ (create_run_plan_ok env task_id w Hdb)).
    apply bind_step_err. exact Hloop.
Qed.

(** The turn of [failing_tool_env]: the tool fails, its error is the
    content of the tool message, and the second request carries it. *)
Lemma tool_errors_become_payloads_witness :
  let seed := build_initial_messages the_task the_project in
  let tool_message :=
    mkChatMessage "tool"
      (Some (print_json (Json.Object [("error", Json.Str "path escape")])))
      (Some "call_1") None in
  let assistant_message :=
    mkChatMessage "assistant" (Some "Let me look.") None
      (Some [call "call_1" "read_file" "{}"]) in
  exists more,
    requests
      (tool_call_loop failing_tool_env
         (Settings.build_llm_config strict_serde
            (Settings.get_all_settings (settings fresh)))
         "sk-test" "id-0" "proj-1" [] 12 (mkLoopState seed 0 false "")
         (with_run fresh (new_run failing_tool_env "task-1" "plan" fresh))).2
    = [] ++ seed :: (seed ++ [tool_message; assistant_message]) :: more.
Proof.
  intros seed tool_message assistant_message.
  destruct (tool_errors_become_payloads failing_tool_env) as (_ & H & _).
  destruct (H (Settings.build_llm_config strict_serde
                 (Settings.get_all_settings (settings fresh)))
              "sk-test" "id-0" "proj-1" [] 11%nat (mkLoopState seed 0 false "")
              (with_run fresh (new_run failing_tool_env "task-1" "plan" fresh))
              (mkLlmResponse (Some "Let me look.")
                 (Some [call "call_1" "read_file" "{}"]))
              (call "call_1" "read_file" "{}") [] eq_refl eq_refl
              (fun _ => eq_refl)) as [Hgo _].
  destruct Hgo as (w' & _ & _ & Hnext).
  { constructor; [|constructor]. exists (Json.Object []). reflexivity. }
  destruct (Hnext ltac:(discriminate)) as [more Hmore].
  exists more. exact Hmore.
Defined.

(** C6 (as worded) fails: arguments that are not JSON end the run. *)
Lemma unparseable_arguments_abort :
  ~ Stated.tool_failures_recovered bad_args_env "id-0" "proj-1"
      (call "call_1" "read_file" "{path: README.md") fresh.
Proof.
  intros [payload H]. vm_compute in H. discriminate.
Qed.

Example unparseable_arguments_end_the_run :
  (generate_plan bad_args_env "proj-1" "task-1" fresh).1
    = Err (mkPlanError "INVALID_ARGS"
             "Failed to parse tool args: expected value at line 1 column 1")
  /\ List.length (requests (generate_plan bad_args_env "proj-1" "task-1" fresh).2)
     = 1%nat.
Proof. split; vm_compute; reflexivity. Qed.

Example failing_tool_run_goes_on :
  (generate_plan failing_tool_env "proj-1" "task-1" fresh).1
    = Ok (mkPlanResult "id-0" "# Implementation Plan: X" 1 false)
  /\ List.map m_content (messages (generate_plan failing_tool_env "proj-1" "task-1" fresh).2)
     = [ "Let me look.";
         print_json (Json.Object [("error", Json.Str "path escape")]);
         "# Implementation Plan: X" ].
Proof. split; vm_compute; reflexivity. Qed.

End ToolFailureClaims.

Section RunLifecycle.

Import PlanTypes Plan PlanSpec Demo.

Variable env : Env.

(** What [generate_plan] does to the run table.  Either it fails before a
    run exists and leaves runs and messages as they were, or it has appended
    exactly one run, of type [plan] for the task, and that row is as
    [create_run] wrote it when [generate_plan] returns, with success or with
    an error: no later step writes to it.  The rows appended to [messages]
    all belong to that run, and a result names it. *)
Lemma generate_plan_run_row (project_id task_id : string) (w : World) :
  let out := generate_plan env project_id task_id w in
  settings out.2 = settings w
  /\ ((runs out.2 = runs w /\ messages out.2 = messages w
       /\ is_ok out.1 = false)
      \/ exists run rows,
           runs out.2 = runs w ++ [run]
           /\ ended_at run = None
           /\ r_task_id run = task_id
           /\ run_type run = "plan"
           /\ messages out.2 = messages w ++ rows
           /\ Forall (fun m => m_run_id m = r_id run) rows
           /\ forall r, out.1 = Ok r -> run_id r = r_id run).
Proof.
  cbv zeta.
  destruct (generate_plan env project_id task_id w) as [res w'] eqn:Hgp.
  cbn [fst snd]. unfold generate_plan in Hgp.
  (* task *)
  match type of Hgp with bind ?m ?k ?w0 = _ =>
    destruct (bind_cases m k w0) as [(e & w1 & Hm & Hb) | (task & w1 & Hm & Hb)];
    rewrite Hb in Hgp; clear Hb; cbv beta in Hgp; apply lift_world in Hm; subst w1
  end.
  { inversion Hgp; subst. split; [reflexivity |]. left. repeat split. }
  (* project *)
  match type of Hgp with bind ?m ?k ?w0 = _ =>
    destruct (bind_cases m k w0) as [(e & w1 & Hm & Hb) | (project & w1 & Hm & Hb)];
    rewrite Hb in Hgp; clear Hb; cbv beta in Hgp; apply lift_world in Hm; subst w1
  end.
  { inversion Hgp; subst. split; [reflexivity |]. left. repeat split. }
  (* settings *)
  match type of Hgp with bind ?m ?k ?w0 = _ =>
    destruct (bind_cases m k w0) as [(e & w1 & Hm & Hb) | (stg & w1 & Hm & Hb)];
    rewrite Hb in Hgp; clear Hb; cbv beta in Hgp
  end.
  { destruct (get_all_settings_cases env w) as [(e0 & _ & He) | [_ Hok]];
      rewrite Hm in *; [|discriminate].
    inversion He; subst. inversion Hgp; subst.
    split; [reflexivity |]. left. repeat split. }
  apply get_all_settings_ok in Hm as (-> & -> & _).
  (* api key *)
  match type of Hgp with bind ?m ?k ?w0 = _ =>
    destruct (bind_cases m k w0) as [(e & w1 & Hm' & Hb) | (key & w1 & Hm' & Hb)];
    rewrite Hb in Hgp; clear Hb; cbv beta in Hgp; apply lift_world in Hm'; subst w1
  end.
  { inversion Hgp; subst. split; [reflexivity |]. left. repeat split. }
  (* run *)
  match type of Hgp with bind ?m ?k ?w0 = _ =>
    destruct (bind_cases m k w0) as [(e & w1 & Hrun & Hb) | (run & w1 & Hrun & Hb)];
    rewrite Hb in Hgp; clear Hb; cbv beta zeta in Hgp
  end.
  { destruct (create_run_plan_cases env task_id w) as [[e' He] | (run' & Hrun' & _)];
      rewrite Hrun in *; [| discriminate].
    inversion He; subst. inversion Hgp; subst.
    split; [reflexivity |]. left. repeat split. }
  destruct (create_run_plan_cases env task_id w)
    as [[e' He] | (run' & Hrun' & Hended & Htask & Htype)];
    rewrite Hrun in *; [discriminate |].
  inversion Hrun'; subst run' w1. clear Hrun'.
  (* loop *)
  match type of Hgp with bind ?m ?k ?w0 = _ =>
    destruct (bind_cases m k w0) as [(e & w2 & Hloop & Hb) | (st & w2 & Hloop & Hb)];
    rewrite Hb in Hgp; clear Hb; cbv beta zeta in Hgp
  end;
  match type of Hloop with
    tool_call_loop env ?c ?ky ?r ?p ?t ?n ?s ?w1 = _ =>
      pose proof (tool_call_loop_log env c ky r p t n s w1) as Hlog;
      rewrite Hloop in Hlog; cbn [snd] in Hlog;
      destruct Hlog as (L1 & L2 & _ & _ & rows & L5 & L6);
      cbn [Plan.settings runs messages] in L1, L2, L5
  end.
  { inversion Hgp; subst. split; [exact L1 |]. right. exists run, rows.
    repeat split; try assumption. intros r Hr. discriminate. }
  (* artifact *)
  match type of Hgp with bind ?m ?k ?w0 = _ =>
    destruct (bind_cases m k w0) as [(e & w3 & Hup & Hb) | (u & w3 & Hup & Hb)];
    rewrite Hb in Hgp; clear Hb; cbv beta in Hgp
  end;
  unfold map_err_m in Hup;
  match type of Hup with context [upsert_artifact env ?a ?b ?c ?d w2] =>
    destruct (upsert_artifact_cases env a b c d w2)
      as [[e' He] | (arts & Hup' & _)];
    rewrite ?He, ?Hup' in Hup; cbn [map_err] in Hup; inversion Hup; subst w3
  end;
  unfold ret in Hgp; inversion Hgp; subst; cbn [Plan.settings runs messages tick].
  - split; [exact L1 |]. right. exists run, rows.
    repeat split; try assumption. intros r Hr. discriminate.
  - split; [exact L1 |]. right. exists run, rows.
    repeat split; try assumption. intros r Hr. inversion Hr. reflexivity.
Qed.

End RunLifecycle.

Section RunLifecycleClaims.

Import PlanTypes Plan PlanSpec Demo.

(** C7 (the code at the failing input).  One tool call, then the plan:
    [generate_plan] returns the plan, and the run it created is in the
    table with [ended_at] still unset, so the run is not closed. *)
Theorem run_left_open :
  let out := generate_plan reading_env "proj-1" "task-1" fresh in
  out.1 = Ok (mkPlanResult "id-0" "# Implementation Plan: X" 1 false)
  /\ runs out.2
     = [mkRun "id-0" "task-1" None "plan" (Some "openai")
          (Some "z-ai/glm-4.7-flash") "2025-01-01T00:00:0" None]
  /\ ~ Stated.runs_closed reading_env "proj-1" "task-1" fresh.
Proof.
  cbv zeta. split; [vm_compute; reflexivity|]. split; [vm_compute; reflexivity|].
  intros H.
  apply (H (mkRun "id-0" "task-1" None "plan" (Some "openai")
              (Some "z-ai/glm-4.7-flash") "2025-01-01T00:00:0" None)).
  - vm_compute. left. reflexivity.
  - intros [].
  - reflexivity.
Qed.

(** The same after a failure that comes once the run exists: the provider
    is rate limited, [generate_plan] returns [LLM_ERROR], and the run stays
    open. *)
Example run_left_open_after_failure :
  let out := generate_plan PlanCommands.rate_limited_env "proj-1" "task-1" fresh in
  is_ok out.1 = false
  /\ List.map ended_at (runs out.2) = [None].
Proof. split; vm_compute; reflexivity. Qed.

End RunLifecycleClaims.

(** * Further properties of the code *)

(** ** Path gate: what the cleaning step does to a request *)

Section PathGuardMore.

Import PathGuard.

Lemma split_slash_app (a r cur : string) :
  split_slash (a ++ String "/" r)%string cur
    = split_slash a cur ++ split_slash r "".
Proof.
  revert cur; induction a as [|c a IH]; intros cur; simpl.
  - reflexivity.
  - destruct (Ascii.eqb c "/"); [rewrite IH; reflexivity | apply IH].
Qed.

Lemma split_slash_nonempty (a cur : string) : split_slash a cur <> [].
Proof.
  revert cur; induction a as [|c a IH]; intros cur; simpl; [discriminate|].
  destruct (Ascii.eqb c "/"); [discriminate | apply IH].
Qed.

Lemma has_root_app (a r : string) :
  has_root (a ++ String "/" r)%string = has_root (a ++ String "/" EmptyString)%string.
Proof. destruct a; reflexivity. Qed.

Lemma filter_concat_pieces (ps qs : list string) :
  List.filter (fun c => negb (is_parent_dir c))
    (List.concat (List.map piece_component (ps ++ ".." :: qs)))
  = List.filter (fun c => negb (is_parent_dir c))
      (List.concat (List.map piece_component (ps ++ qs))).
Proof.
  rewrite !List.map_app, !List.concat_app, !List.filter_app. reflexivity.
Qed.

Lemma cleaned_dotdot (a b : string) :
  cleaned (a ++ "/../" ++ b)%string = cleaned (a ++ "/" ++ b)%string.
Proof.
  unfold cleaned, components.
  change ("/../" ++ b)%string with (String "/" (".." ++ String "/" b))%string.
  change ("/" ++ b)%string with (String "/" b).
  rewrite (has_root_app a (".." ++ String "/" b)%string), (has_root_app a b).
  rewrite !split_slash_app.
  change (split_slash ".." "") with [".."].
  destruct (has_root _).
  - cbn [List.filter negb is_parent_dir app]. f_equal.
    apply filter_concat_pieces.
  - destruct (split_slash a "") as [|p ps] eqn:E;
      [exfalso; eapply split_slash_nonempty; eassumption|].
    cbn [app]. rewrite !List.filter_app. f_equal.
    apply filter_concat_pieces.
Qed.

(** X1. A [..] between two slashes of a request is dropped by the
    cleaning step: [a/../b] is treated exactly as [a/b], whatever the
    file system is, so [sanitize_path] returns the same path or the same
    refusal for both. *)
Theorem sanitize_path_ignores_dotdot
    (canonicalize : PathBuf -> option PathBuf) (base : PathBuf) (a b : string) :
  cleaned (a ++ "/../" ++ b)%string = cleaned (a ++ "/" ++ b)%string
  /\ sanitize_path canonicalize base (a ++ "/../" ++ b)%string
     = sanitize_path canonicalize base (a ++ "/" ++ b)%string.
Proof.
  split; [apply cleaned_dotdot|].
  unfold sanitize_path. rewrite cleaned_dotdot. reflexivity.
Qed.

End PathGuardMore.

(** ** Command runner: what can reach the operating system *)

Section RunnerMore.

Import Runner.

Lemma prefix_split (a c : string) :
  String.prefix a c = true -> exists r, c = (a ++ r)%string.
Proof.
  revert c; induction a as [|x a IH]; intros c H.
  - exists c; reflexivity.
  - destruct c as [|y c]; [discriminate|]. simpl in H.
    destruct (ascii_dec x y) as [e|]; [subst y|discriminate].
    destruct (IH _ H) as [r e]. subst c. exists r; reflexivity.
Qed.

Lemma prefix_refl (a : string) : String.prefix a a = true.
Proof.
  induction a as [|x a IH]; simpl; [reflexivity|].
  destruct (ascii_dec x x); [exact IH | congruence].
Qed.

Lemma prefix_app_l (a b : string) : String.prefix a (a ++ b)%string = true.
Proof.
  induction a as [|x a IH]; [destruct b; reflexivity|].
  change (String.prefix (String x a) (String x (a ++ b)) = true)%string.
  simpl. destruct (ascii_dec x x); [exact IH | congruence].
Qed.

Lemma append_assoc (a b c : string) :
  ((a ++ b) ++ c)%string = (a ++ (b ++ c))%string.
Proof.
  induction a as [|x a IH]; [reflexivity|].
  change (String x ((a ++ b) ++ c) = String x (a ++ (b ++ c)))%string.
  f_equal; exact IH.
Qed.

Lemma prefix_trans (a b c : string) :
  String.prefix a b = true -> String.prefix b c = true -> String.prefix a c = true.
Proof.
  intros H1 H2. apply prefix_split in H1 as [r1 ->].
  apply prefix_split in H2 as [r2 ->].
  rewrite append_assoc. apply prefix_app_l.
Qed.

Lemma append_nonempty (cur : string) (c : ascii) :
  String.eqb (cur ++ String c EmptyString)%string "" = false.
Proof. destruct cur; reflexivity. Qed.

(** The first token of [split_ws s cur] begins with the characters
    collected so far. *)
Lemma split_ws_first (s cur : string) :
  String.eqb cur "" = false ->
  exists tok toks,
    split_ws s cur 0 = tok :: toks /\ String.prefix cur tok = true.
Proof.
  revert cur; induction s as [|c s IH]; intros cur Hcur; cbn [split_ws].
  - unfold flush. rewrite Hcur.
    eexists _, _; split; [reflexivity | apply prefix_refl].
  - destruct (white_space_width c s) as [|k].
    + destruct (IH _ (append_nonempty cur c)) as (tok & toks & E & P).
      exists tok, toks; split; [exact E|].
      eapply prefix_trans; [apply prefix_app_l | exact P].
    + unfold flush. rewrite Hcur. cbn [app].
      eexists _, _; split; [reflexivity | apply prefix_refl].
Qed.

(** The programs an allow-listed prefix lets through. *)
Lemma allowed_prefix_program (allowed command : string) :
  In allowed ALLOWED_COMMANDS ->
  String.prefix allowed command = true ->
  exists program rest,
    split_whitespace command = program :: rest
    /\ (In program ["npm"; "pnpm"; "yarn"; "cargo"; "python"]
        \/ String.prefix "pytest" program = true).
Proof.
  intros Hin Hp. apply prefix_split in Hp as [r ->].
  unfold ALLOWED_COMMANDS in Hin. unfold split_whitespace.
  repeat (destruct Hin as [<-|Hin]);
    try (eexists _, _; split; [reflexivity | left; cbn; tauto]);
    try (destruct Hin).
  change (split_ws ("pytest" ++ r) "" 0) with (split_ws r "pytest" 0).
  destruct (split_ws_first r "pytest" eq_refl) as (tok & toks & E & P).
  rewrite E. eexists _, _; split; [reflexivity | right; exact P].
Qed.

(** X2. [run_command] starts a process only for a command that begins
    with an entry of the allow-list; the process then runs the
    whitespace-separated words of the command in the repository directory,
    and its program is npm, pnpm, yarn, cargo or python, or has a name
    that begins with pytest.  In every other case nothing is started and
    the call fails with "command required" or DisallowedCommand. *)
Theorem run_command_spawn_envelope (repo_path : string) (args : Json.Value)
    (os : Os) :
  let out := run_command repo_path args os in
  (spawned out.2 = spawned os
   /\ (out.1 = Err (InvalidArgs "command required")
       \/ out.1 = Err DisallowedCommand))
  \/ exists command allowed program rest,
       Json.get args "command" ≫= Json.as_str = Some command
       /\ In allowed ALLOWED_COMMANDS
       /\ String.prefix allowed command = true
       /\ split_whitespace command = program :: rest
       /\ (In program ["npm"; "pnpm"; "yarn"; "cargo"; "python"]
           \/ String.prefix "pytest" program = true)
       /\ spawned out.2
          = spawned os ++
              [mkSpawn program rest repo_path true
                 (default 120%Z (Json.get args "timeout_secs" ≫= Json.as_u64))]
       /\ out.1 = match os_output os
                          (mkSpawn program rest repo_path true
                             (default 120%Z
                                (Json.get args "timeout_secs" ≫= Json.as_u64))) with
                  | Ok o => Ok (output_json o)
                  | Err e => Err (Execution e)
                  end.
Proof.
  intros out; subst out. unfold run_command.
  destruct (Json.get args "command" ≫= Json.as_str) as [command|] eqn:Hc;
    [|left; split; [reflexivity | left; reflexivity]].
  destruct (existsb _ ALLOWED_COMMANDS) eqn:Hex; cbn [negb];
    [|left; split; [reflexivity | right; reflexivity]].
  right. apply existsb_exists in Hex as (allowed & Hin & Hp).
  destruct (allowed_prefix_program _ _ Hin Hp) as (program & rest & Hs & Hprog).
  exists command, allowed, program, rest.
  rewrite Hs. unfold spawn.
  destruct (Json.get args "timeout_secs" ≫= Json.as_u64) as [t|]; cbn [default];
    destruct (os_output os _); cbn; auto 10.
Qed.

(** White space beyond ASCII separates words too: a no-break space
    (U+00A0), an em space (U+2003), an ideographic space (U+3000). *)
Example run_command_unicode_white_space :
  let nbsp := String (ascii_of_nat 194) (String (ascii_of_nat 160) "") in
  let em := String (ascii_of_nat 226) (String (ascii_of_nat 128)
              (String (ascii_of_nat 131) "")) in
  let wide := String (ascii_of_nat 227) (String (ascii_of_nat 128)
                (String (ascii_of_nat 128) "")) in
  let command := ("pytest" ++ nbsp ++ "-x" ++ em ++ wide ++ "tests")%string in
  split_whitespace command = ["pytest"; "-x"; "tests"]
  /\ spawned
       (run_command "/repo" (Json.Object [("command", Json.Str command)])
          quiet_os).2
     = [mkSpawn "pytest" ["-x"; "tests"] "/repo" true 120].
Proof. split; vm_compute; reflexivity. Qed.

(** X3. Every entry of the allow-list, given verbatim, is accepted: its
    words are started in the repository directory with [kill_on_drop] and
    the 120 s default (or the [timeout_secs] of the call), and the answer
    of the process, or its start-up error, is what the call returns. *)
Theorem run_command_allowed_runs (allowed repo_path : string)
    (args : Json.Value) (os : Os) :
  In allowed ALLOWED_COMMANDS ->
  Json.get args "command" = Some (Json.Str allowed) ->
  exists program rest,
    split_whitespace allowed = program :: rest
    /\ In (program :: rest) allowed_argv
    /\ let sp :=
         mkSpawn program rest repo_path true
           (default 120%Z (Json.get args "timeout_secs" ≫= Json.as_u64)) in
       run_command repo_path args os
       = (match os_output os sp with
          | Ok o => Ok (output_json o)
          | Err e => Err (Execution e)
          end,
          mkOs (spawned os ++ [sp]) (os_output os)).
Proof.
  intros Hin Hget. unfold run_command. rewrite Hget. cbn [mbind option_bind Json.as_str].
  assert (Hex : existsb (fun a => String.prefix a allowed) ALLOWED_COMMANDS = true).
  { apply existsb_exists. exists allowed; split; [exact Hin | apply prefix_refl]. }
  rewrite Hex. cbn [negb].
  assert (Hargv : In (split_whitespace allowed) allowed_argv)
    by (apply in_map; exact Hin).
  destruct (split_whitespace allowed) as [|program rest] eqn:Hs.
  { exfalso. unfold ALLOWED_COMMANDS in Hin.
    repeat (destruct Hin as [<-|Hin]; [discriminate Hs|]). destruct Hin. }
  exists program, rest. split; [reflexivity|]. split; [exact Hargv|].
  cbn zeta. unfold spawn.
  destruct (Json.get args "timeout_secs" ≫= Json.as_u64) as [t|]; cbn [default];
    destruct (os_output os _); reflexivity.
Qed.

Lemma run_command_allowed_runs_witness :
  In "cargo test" ALLOWED_COMMANDS
  /\ exists program rest,
       split_whitespace "cargo test" = program :: rest
       /\ In (program :: rest) allowed_argv
       /\ let sp :=
            mkSpawn program rest "/repo" true
              (default 120%Z
                 (Json.get (Json.Object [("command", Json.Str "cargo test");
                                         ("timeout_secs", Json.Number 30)])
                    "timeout_secs" ≫= Json.as_u64)) in
          run_command "/repo"
            (Json.Object [("command", Json.Str "cargo test");
                          ("timeout_secs", Json.Number 30)]) quiet_os
          = (match os_output quiet_os sp with
             | Ok o => Ok (output_json o)
             | Err e => Err (Execution e)
             end,
             mkOs (spawned quiet_os ++ [sp]) (os_output quiet_os)).
Proof.
  split; [cbn; tauto|].
  apply (run_command_allowed_runs "cargo test" "/repo"
           (Json.Object [("command", Json.Str "cargo test");
                         ("timeout_secs", Json.Number 30)]) quiet_os);
    [cbn; tauto | reflexivity].
Defined.

End RunnerMore.

(** ** Settings: the migration run again *)

Section SettingsMore.

Import Settings.

Lemma insert_or_ignore_fold (now : string) (rows : list (string * string)) :
  forall (tbl : gmap string Row) (k : string),
    foldl (insert_or_ignore now) tbl rows !! k =
      match tbl !! k with
      | Some r => Some r
      | None =>
          (fun v => mkRow v now) <$> (list_to_map rows : gmap string string) !! k
      end.
Proof.
  induction rows as [|[k0 v0] rows IH]; intros tbl k; simpl.
  - rewrite lookup_empty. destruct (tbl !! k); reflexivity.
  - rewrite IH, insert_or_ignore_lookup. simpl.
    destruct (tbl !! k) as [r|]; [reflexivity|].
    case_bool_decide as Hk.
    + subst k0. rewrite lookup_insert_eq. reflexivity.
    + rewrite lookup_insert_ne by assumption. reflexivity.
Qed.

(** X4. Migration 002 only fills gaps: after it a key holds the row it
    held before, or else its seed value stamped with the time of the
    migration, and keys outside the seed list stay absent.  Running the
    migration a second time, at any later time, changes nothing. *)
Theorem migration_002_idempotent (now now' : string) (tbl : gmap string Row) :
  (forall k,
     migration_002 now tbl !! k =
       match tbl !! k with
       | Some r => Some r
       | None =>
           (fun v => mkRow v now)
             <$> (list_to_map seed_rows : gmap string string) !! k
       end)
  /\ migration_002 now' (migration_002 now tbl) = migration_002 now tbl.
Proof.
  split; [intros k; apply insert_or_ignore_fold|].
  apply map_eq; intros k. unfold migration_002.
  rewrite (insert_or_ignore_fold now' seed_rows).
  destruct (foldl (insert_or_ignore now) tbl seed_rows !! k) as [r|] eqn:E;
    [reflexivity|].
  rewrite insert_or_ignore_fold in E.
  destruct (tbl !! k); [discriminate|].
  destruct (list_to_map seed_rows !! k); [discriminate | reflexivity].
Qed.

End SettingsMore.

(** ** The client: headers, URL and the time budget of the retries *)

Section LlmMore.

Import Llm LlmSpec.

Lemma header_get_map_ne (k v name : string) (h : list (string * string)) :
  k <> name ->
  header_get name
    (List.map (fun kv => if String.eqb kv.1 k then (k, v) else kv) h)
  = header_get name h.
Proof.
  intros Hne. induction h as [|[k' v'] h IH]; simpl; [reflexivity|].
  destruct (String.eqb k' k) eqn:E; simpl.
  - apply String.eqb_eq in E; subst k'.
    destruct (String.eqb k name) eqn:E2;
      [apply String.eqb_eq in E2; contradiction | exact IH].
  - rewrite IH. reflexivity.
Qed.

Lemma header_get_map_eq (k v : string) (h : list (string * string)) :
  existsb (fun kv => String.eqb kv.1 k) h = true ->
  header_get k
    (List.map (fun kv => if String.eqb kv.1 k then (k, v) else kv) h)
  = Some v.
Proof.
  induction h as [|[k' v'] h IH]; simpl; [discriminate|].
  destruct (String.eqb k' k) eqn:E; simpl.
  - rewrite String.eqb_refl. reflexivity.
  - rewrite E. exact IH.
Qed.

Lemma header_get_app (name : string) (h1 h2 : list (string * string)) :
  header_get name (h1 ++ h2) =
    match header_get name h1 with
    | Some v => Some v
    | None => header_get name h2
    end.
Proof.
  induction h1 as [|[k v] h1 IH]; simpl; [reflexivity|].
  destruct (String.eqb k name); [reflexivity | exact IH].
Qed.

Lemma header_get_absent (k : string) (h : list (string * string)) :
  existsb (fun kv => String.eqb kv.1 k) h = false -> header_get k h = None.
Proof.
  induction h as [|[k' v'] h IH]; simpl; [reflexivity|].
  destruct (String.eqb k' k); simpl; [discriminate | exact IH].
Qed.

Lemma header_get_insert (k v name : string) (h : list (string * string)) :
  header_get name (header_insert k v h) =
    if String.eqb k name then Some v else header_get name h.
Proof.
  unfold header_insert.
  destruct (existsb _ h) eqn:Hex.
  - destruct (String.eqb k name) eqn:E.
    + apply String.eqb_eq in E; subst name. apply header_get_map_eq, Hex.
    + apply header_get_map_ne. intros ->. rewrite String.eqb_refl in E. discriminate.
  - rewrite header_get_app. simpl.
    destruct (String.eqb k name) eqn:E.
    + apply String.eqb_eq in E; subst name.
      rewrite (header_get_absent _ _ Hex). reflexivity.
    + destruct (header_get name h); reflexivity.
Qed.

Lemma header_get_add_extra (name : string) (h : list (string * string))
    (kv : string * Json.Value) :
  header_get name (add_extra_header h kv) =
    match entry_value name kv with
    | Some v => Some v
    | None => header_get name h
    end.
Proof.
  unfold add_extra_header, entry_value.
  destruct (Json.as_str kv.2) as [s|]; [|reflexivity].
  destruct (header_name_from_bytes kv.1) as [n|]; [|reflexivity].
  destruct (header_value_parse s) as [v|]; [|reflexivity].
  rewrite header_get_insert. destruct (String.eqb n name); reflexivity.
Qed.

Lemma header_get_fold (name : string) (obj : list (string * Json.Value)) :
  forall h,
    header_get name (foldl add_extra_header h obj) =
      match extra_value name obj with
      | Some v => Some v
      | None => header_get name h
      end.
Proof.
  induction obj as [|kv obj IH]; intros h; simpl; [reflexivity|].
  rewrite IH, header_get_add_extra.
  destruct (extra_value name obj); reflexivity.
Qed.

Lemma header_insert_names (k v : string) (h : list (string * string)) :
  List.map fst (header_insert k v h) =
    if existsb (fun kv => String.eqb kv.1 k) h
    then List.map fst h else List.map fst h ++ [k].
Proof.
  unfold header_insert. destruct (existsb _ h) eqn:Hex.
  - clear Hex. induction h as [|[k' v'] h IH]; simpl; [reflexivity|].
    rewrite IH. destruct (String.eqb k' k) eqn:E; simpl; [|reflexivity].
    apply String.eqb_eq in E; subst; reflexivity.
  - rewrite List.map_app. reflexivity.
Qed.

Lemma header_insert_NoDup (k v : string) (h : list (string * string)) :
  NoDup (List.map fst h) -> NoDup (List.map fst (header_insert k v h)).
Proof.
  intros Hnd. rewrite header_insert_names.
  destruct (existsb _ h) eqn:Hex; [exact Hnd|].
  apply NoDup_app. split; [exact Hnd|]. split; [|apply NoDup_singleton].
  intros x Hx Hk. apply list_elem_of_singleton in Hk; subst x.
  apply list_elem_of_fmap in Hx as ([k' v'] & Hk' & Hin). simpl in Hk'; subst k'.
  apply list_elem_of_In in Hin.
  assert (existsb (fun kv => String.eqb kv.1 k) h = true).
  { apply existsb_exists. exists (k, v'); split; [exact Hin | apply String.eqb_refl]. }
  congruence.
Qed.

Lemma add_extra_header_NoDup (h : list (string * string))
    (kv : string * Json.Value) :
  NoDup (List.map fst h) -> NoDup (List.map fst (add_extra_header h kv)).
Proof.
  intros Hnd. unfold add_extra_header.
  destruct (Json.as_str kv.2) as [s|]; [|exact Hnd].
  destruct (header_name_from_bytes kv.1) as [n|]; [|exact Hnd].
  destruct (header_value_parse s) as [v|]; [|exact Hnd].
  apply header_insert_NoDup, Hnd.
Qed.

Lemma fold_extra_NoDup (obj : list (string * Json.Value)) :
  forall h, NoDup (List.map fst h) ->
    NoDup (List.map fst (foldl add_extra_header h obj)).
Proof.
  induction obj as [|kv obj IH]; intros h Hnd; simpl; [exact Hnd|].
  apply IH, add_extra_header_NoDup, Hnd.
Qed.

Lemma fixed_headers (api_key name : string) :
  let h0 :=
    header_insert "content-type" "application/json"
      (header_insert "authorization" ("Bearer " ++ api_key) []) in
  NoDup (List.map fst h0)
  /\ header_get name h0 = fixed_header api_key name.
Proof.
  cbv zeta. split.
  - do 2 apply header_insert_NoDup. constructor.
  - unfold fixed_header. rewrite !header_get_insert. cbn [header_get].
    destruct (String.eqb "authorization" name) eqn:E1;
      destruct (String.eqb "content-type" name) eqn:E2; try reflexivity.
    apply String.eqb_eq in E1, E2. congruence.
Qed.

(** X5. The headers [chat] sends, as a map: a header name occurs once;
    its value is the one given by the last entry of [extra_headers] whose
    key is that name up to letter case and whose value is a string (both
    well-formed), and otherwise the client's own [authorization] or
    [content-type] header.  No other header is sent, and entries that are
    not strings or not well-formed are skipped. *)
Theorem request_headers_map (self : LlmClient) (name : string) :
  NoDup (List.map fst (request_headers self))
  /\ header_get name (request_headers self) =
       match
         match Settings.extra_headers (config self) with
         | Json.Object obj => extra_value name obj
         | _ => None
         end
       with
       | Some v => Some v
       | None => fixed_header (api_key self) name
       end.
Proof.
  unfold request_headers.
  destruct (fixed_headers (api_key self) name) as [Hnd Hget].
  destruct (Settings.extra_headers (config self)) as [| | | | |obj];
    try (split; [exact Hnd | exact Hget]).
  split; [apply fold_extra_NoDup, Hnd|].
  rewrite header_get_fold, Hget. reflexivity.
Qed.

Lemma header_get_unique (name v : string) (h : list (string * string)) :
  NoDup (List.map fst h) ->
  header_get name h = Some v ->
  Forall (fun kv => kv.1 = name -> kv.2 = v) h.
Proof.
  induction h as [|[k' v'] h IH]; intros Hnd Hget; [constructor|].
  simpl in Hnd. apply NoDup_cons in Hnd as [Hnotin Hnd].
  simpl in Hget. destruct (String.eqb k' name) eqn:E.
  - apply String.eqb_eq in E; subst k'. injection Hget as ->.
    constructor; [intros _; reflexivity|].
    apply Forall_forall. intros [k2 v2] Hin Hk; simpl in *; subst k2.
    exfalso. apply Hnotin. apply list_elem_of_fmap. exists (name, v2).
    split; [reflexivity | exact Hin].
  - constructor; [|apply IH; assumption].
    simpl. intros ->. rewrite String.eqb_refl in E. discriminate.
Qed.

Lemma entry_value_some (name : string) (kv : string * Json.Value)
    (v : string) :
  entry_value name kv = Some v ->
  kv.2 = Json.Str v
  /\ header_name_from_bytes kv.1 = Some name
  /\ header_value_parse v = Some v.
Proof.
  unfold entry_value. destruct kv as [k j]. cbn [fst snd].
  destruct j; cbn [Json.as_str]; try discriminate.
  destruct (header_name_from_bytes k) as [n|]; [|discriminate].
  unfold header_value_parse.
  destruct (string_forallb is_value_char s) eqn:Hs; [|discriminate].
  destruct (String.eqb_spec n name) as [->|]; [|discriminate].
  intros H; injection H as <-. rewrite Hs. auto.
Qed.

Lemma entry_value_wf (name k v : string) :
  header_name_from_bytes k = Some name ->
  header_value_parse v = Some v ->
  entry_value name (k, Json.Str v) = Some v.
Proof.
  intros Hk Hv. unfold entry_value. cbn [fst snd Json.as_str].
  rewrite Hk, Hv, String.eqb_refl. reflexivity.
Qed.

Lemma extra_value_In (name : string) (obj : list (string * Json.Value))
    (v : string) :
  extra_value name obj = Some v ->
  exists k, In (k, Json.Str v) obj
            /\ header_name_from_bytes k = Some name
            /\ header_value_parse v = Some v.
Proof.
  induction obj as [|[k j] obj IH]; cbn [extra_value]; [discriminate|].
  destruct (extra_value name obj) as [v0|].
  - intros H; injection H as ->.
    destruct (IH eq_refl) as (k' & Hin & Hwf). exists k'. split; [right; exact Hin | exact Hwf].
  - intros H. apply entry_value_some in H as (Hj & Hk & Hv).
    cbn [fst snd] in Hj, Hk. subst j. exists k. split; [left; reflexivity | auto].
Qed.

Lemma extra_value_wf (name : string) (obj : list (string * Json.Value))
    (k v : string) :
  In (k, Json.Str v) obj ->
  header_name_from_bytes k = Some name ->
  header_value_parse v = Some v ->
  extra_value name obj <> None.
Proof.
  intros Hin Hk Hv. induction obj as [|kv obj IH]; [contradiction|].
  cbn [extra_value]. destruct (extra_value name obj) as [v0|]; [discriminate|].
  destruct Hin as [-> | Hin]; [|exfalso; exact (IH Hin eq_refl)].
  rewrite (entry_value_wf name k v Hk Hv). discriminate.
Qed.

Lemma extra_value_app (name : string) (o1 o2 : list (string * Json.Value)) :
  extra_value name (o1 ++ o2) =
    match extra_value name o2 with
    | Some v => Some v
    | None => extra_value name o1
    end.
Proof.
  induction o1 as [|kv o1 IH]; cbn [app extra_value].
  - destruct (extra_value name o2); reflexivity.
  - rewrite IH. destruct (extra_value name o2); reflexivity.
Qed.

Lemma extra_value_none (name : string) (obj : list (string * Json.Value)) :
  (forall k v, In (k, Json.Str v) obj ->
     header_name_from_bytes k = Some name -> header_value_parse v = None) ->
  extra_value name obj = None.
Proof.
  intros H. destruct (extra_value name obj) as [v|] eqn:E; [|reflexivity].
  apply extra_value_In in E as (k & Hin & Hk & Hv).
  rewrite (H k v Hin Hk) in Hv. discriminate.
Qed.

(** X6. The bearer credential can be displaced by configuration.  When
    [extra_headers] has, at any place, a string entry whose key reads
    [authorization] in lower case and whose value is a header value, the
    one Authorization header of the request carries the value of such an
    entry and not the client's own: the value of that very entry when no
    later entry is of the kind.  Entries whose value is no header value are
    skipped. *)
Theorem extra_header_replaces_authorization (self : LlmClient)
    (obj : list (string * Json.Value)) (k v : string) :
  Settings.extra_headers (config self) = Json.Object obj ->
  In (k, Json.Str v) obj ->
  header_name_from_bytes k = Some "authorization" ->
  header_value_parse v = Some v ->
  (exists k' v',
     In (k', Json.Str v') obj
     /\ header_name_from_bytes k' = Some "authorization"
     /\ header_value_parse v' = Some v'
     /\ header_get "authorization" (request_headers self) = Some v'
     /\ Forall (fun kv => kv.1 = "authorization" -> kv.2 = v')
          (request_headers self))
  /\ (forall obj1 obj2,
        obj = obj1 ++ (k, Json.Str v) :: obj2 ->
        (forall k2 v2,
           In (k2, Json.Str v2) obj2 ->
           header_name_from_bytes k2 = Some "authorization" ->
           header_value_parse v2 = None) ->
        header_get "authorization" (request_headers self) = Some v).
Proof.
  intros Hobj Hin Hk Hv.
  destruct (fixed_headers (api_key self) "authorization") as [Hnd _].
  assert (Hget : header_get "authorization" (request_headers self)
                 = extra_value "authorization" obj).
  { unfold request_headers. rewrite Hobj, header_get_fold.
    destruct (extra_value "authorization" obj) eqn:E; [reflexivity|].
    exfalso. exact (extra_value_wf _ _ _ _ Hin Hk Hv E). }
  split.
  - destruct (extra_value "authorization" obj) as [v'|] eqn:E;
      [|exfalso; exact (extra_value_wf _ _ _ _ Hin Hk Hv E)].
    destruct (extra_value_In _ _ _ E) as (k' & Hin' & Hk' & Hv').
    exists k', v'. repeat (split; [assumption|]).
    apply header_get_unique; [|exact Hget].
    unfold request_headers. rewrite Hobj. apply fold_extra_NoDup, Hnd.
  - intros obj1 obj2 -> Hlater. rewrite Hget.
    rewrite extra_value_app. cbn [extra_value].
    rewrite (extra_value_none _ _ Hlater).
    rewrite (entry_value_wf _ _ _ Hk Hv). reflexivity.
Qed.

Lemma extra_header_replaces_authorization_witness :
  header_get "authorization" (request_headers overriding_client)
    = Some "Basic dXNlcjpwdw==".
Proof.
  destruct (extra_header_replaces_authorization overriding_client
              [("Authorization", Json.Str "Basic dXNlcjpwdw==")]
              "Authorization" "Basic dXNlcjpwdw==" eq_refl
              (or_introl eq_refl) eq_refl eq_refl) as [_ H].
  apply (H [] []); [reflexivity|].
  intros k2 v2 [].
Defined.

(** Two such entries and a malformed one between them: the last
    well-formed one is sent. *)
Example extra_header_last_wins :
  let config :=
    Settings.mkLlmConfig "openai" "https://api.example.com/v1" "m"
      Settings.f64_0_2 4000
      (Json.Object
         [ ("Authorization", Json.Str "Basic Zmlyc3Q=");
           ("AUTHORIZATION", Json.Str "Basic c2Vjb25k");
           ("authorization",
            Json.Str (String.append "bad" (String (ascii_of_nat 10) EmptyString)));
           ("authorization", Json.Number 1) ]) in
  request_headers (new config "sk-test")
  = [("authorization", "Basic c2Vjb25k"); ("content-type", "application/json")].
Proof. reflexivity. Qed.

Lemma trim_end_slashes_slash (s : string) :
  trim_end_slashes (s ++ "/")%string = trim_end_slashes s.
Proof.
  induction s as [|c s IH]; [reflexivity|].
  change (String c s ++ "/")%string with (String c (s ++ "/"))%string.
  cbn [trim_end_slashes]. rewrite IH. reflexivity.
Qed.

Lemma trim_end_slashes_no_slash (s t : string) :
  trim_end_slashes s <> (t ++ "/")%string.
Proof.
  revert t; induction s as [|c s IH]; intros t; cbn [trim_end_slashes].
  - destruct t; discriminate.
  - destruct (trim_end_slashes s) as [|c' r] eqn:E.
    + destruct (Ascii.eqb c "/") eqn:Ec.
      * destruct t; discriminate.
      * destruct t as [|x [|y t]]; try discriminate.
        intros H; injection H as ->. discriminate.
    + destruct t as [|x t]; [discriminate|].
      change (String x t ++ "/")%string with (String x (t ++ "/"))%string.
      intros H; injection H as _ H. exact (IH _ H).
Qed.

Lemma append_length (a b : string) :
  String.length (a ++ b)%string = (String.length a + String.length b)%nat.
Proof.
  induction a as [|x a IH]; [reflexivity|].
  change (String x a ++ b)%string with (String x (a ++ b))%string.
  cbn [String.length]. rewrite IH. reflexivity.
Qed.

Lemma append_cancel_r (a b c : string) :
  (a ++ c)%string = (b ++ c)%string -> a = b.
Proof.
  revert b; induction a as [|x a IH]; intros [|y b] H.
  - reflexivity.
  - apply (f_equal String.length) in H. rewrite !append_length in H.
    cbn [String.length] in H. lia.
  - apply (f_equal String.length) in H. rewrite !append_length in H.
    cbn [String.length] in H. lia.
  - change (String x (a ++ c) = String y (b ++ c))%string in H.
    injection H as -> H. f_equal. exact (IH _ H).
Qed.

(** X7. Trailing slashes of the configured base URL do not reach the
    provider: the request URL is the base URL without them followed by
    [/chat/completions], so a base URL with one more trailing slash gives
    the same URL, and the path never starts with a doubled slash. *)
Theorem chat_url_trailing_slash (self : LlmClient) (url : string) :
  chat_url (with_base_url self (url ++ "/")%string)
    = chat_url (with_base_url self url)
  /\ forall t, chat_url (with_base_url self url)
               <> (t ++ "/" ++ "/chat/completions")%string.
Proof.
  unfold chat_url, with_base_url; cbn [config Settings.base_url]. split.
  - rewrite trim_end_slashes_slash. reflexivity.
  - intros t H.
    apply (trim_end_slashes_no_slash url t).
    apply (append_cancel_r _ _ "/chat/completions").
    rewrite H. symmetry. apply append_assoc.
Qed.

End LlmMore.

(** *** What [chat] returns after its retries *)

Section ChatLastAnswer.

Import Llm LlmSpec.

Variable http : Network (OpenAIChatRequest ChatMessage)
                        (OpenAIChatResponse ChatMessage).
Variable permanent : Classifier.
Variable self : LlmClient.

Lemma classify_transient (e0 e : LlmError) (ra : option N) :
  classify permanent e0 = Backoff.Transient e ra -> permanent e0 = false.
Proof. unfold classify. destruct (permanent e0); [discriminate | reflexivity]. Qed.

Lemma classify_error (e0 : LlmError) :
  match classify permanent e0 with
  | Backoff.Permanent e => e = e0
  | Backoff.Transient e _ => e = e0
  end.
Proof. unfold classify. destruct (permanent e0); reflexivity. Qed.

(** X29. Whatever [retry] takes for permanent, a call of [chat] with a
    key that returns hands back what its last request gave: the first
    choice's text of a decoded success; [RateLimited] for a 429; the error
    [Api 401] with the text [Invalid API key] for a 401; for any other
    status the [Api] error with that status and the body text; an [Http]
    error when the request or the decoding failed.  Every request before
    the last ended in an error that was not taken for permanent. *)
Theorem chat_returns_last_answer (messages : list ChatMessage)
    (r : Result string LlmError) :
  let request :=
    mkRequest (Settings.model (config self)) messages None
      (Some (Settings.temperature (config self)))
      (Some (Settings.max_tokens (config self))) false in
  api_key self <> "" ->
  chat http permanent self messages = Returned r ->
  exists out,
    send_with_retry http permanent self retry_fuel request = Returned out
    /\ (1 <= Backoff.attempts out)%nat
    /\ r = match send http (Backoff.attempts out - 1)
                   (mkHttpRequest (chat_url self) (request_headers self)
                      request) with
           | Err e => Err (Http e)
           | Ok reply =>
               if is_success (status reply) then
                 match json reply with
                 | Ok resp =>
                     match choices resp with
                     | c :: _ => Ok (content (message c))
                     | [] => Err (InvalidResponse "No choices in response")
                     end
                 | Err e => Err (Http e)
                 end
               else if (status reply =? 429)%N then Err RateLimited
               else if (status reply =? 401)%N
                    then Err (Api 401 "Invalid API key")
               else Err (Api (status reply)
                           match text reply with Ok t => t | Err _ => "" end)
           end
    /\ forall k, (k < Backoff.attempts out - 1)%nat ->
         exists e, operation http self request k = Some (Err e)
                   /\ permanent e = false.
Proof.
  intros request Hkey H. unfold chat in H.
  destruct (String.eqb_spec (api_key self) "") as [Hk|_]; [contradiction|].
  cbv zeta in H. fold request in H.
  destruct (send_with_retry http permanent self retry_fuel request)
    as [out| |] eqn:Hsend; try discriminate.
  exists out. split; [reflexivity|].
  unfold send_with_retry, Backoff.retry in Hsend.
  pose proof (retry_loop_attempts _ _ _ _ _ _ _ _ Hsend) as Hatt.
  apply retry_loop_trace in Hsend as [Htrace Hlast].
  split; [lia|].
  assert (Hb : bearer_ok self = true).
  { destruct (bearer_ok self) eqn:Hb; [reflexivity|].
    rewrite (operation_panics http self request _ Hb) in Hlast.
    contradiction. }
  split.
  - rewrite (operation_answer http self request _ Hb) in Hlast.
    cbn [option_map] in Hlast.
    destruct (send http (Backoff.attempts out - 1) _) as [reply|e];
      cbn [map_err] in Hlast.
    + cbv zeta in Hlast.
      destruct (is_success (status reply)).
      * destruct (json reply) as [resp|e]; cbn [map_err] in Hlast.
        -- rewrite Hlast in H.
           destruct (choices resp); injection H as <-; reflexivity.
        -- pose proof (classify_error (Http e)) as Hc.
           destruct (classify permanent (Http e)); subst;
             rewrite Hlast in H; injection H as <-; reflexivity.
      * destruct (status reply =? 429)%N; [|destruct (status reply =? 401)%N;
          [|destruct (500 <=? status reply)%N]];
          cbn [map_err] in Hlast;
          match type of Hlast with
          | match classify permanent ?e0 with _ => _ end =>
              pose proof (classify_error e0) as Hc;
              destruct (classify permanent e0); subst;
              rewrite Hlast in H; injection H as <-; reflexivity
          end.
    + pose proof (classify_error (Http e)) as Hc.
      destruct (classify permanent (Http e)); subst;
        rewrite Hlast in H; injection H as <-; reflexivity.
  - intros k Hk. destruct (Htrace k) as (e & ra & He); [lia|].
    destruct (operation http self request k) as [[resp|e0]|];
      cbn [option_map map_err] in He; try discriminate.
    exists e0. split; [reflexivity|].
    injection He as He. exact (classify_transient _ _ _ He).
Qed.

End ChatLastAnswer.

Lemma chat_returns_last_answer_witness :
  Llm.api_key DemoNet.client <> ""
  /\ Llm.chat (DemoNet.always_status Llm.ChatMessage 401) DemoNet.all_transient
       DemoNet.client DemoNet.hello
     = Returned (Err (Llm.Api 401 "Invalid API key"))
  /\ exists out,
       Llm.send_with_retry (DemoNet.always_status Llm.ChatMessage 401)
         DemoNet.all_transient DemoNet.client Llm.retry_fuel
         DemoNet.hello_request = Returned out
       /\ (1 <= Backoff.attempts out)%nat.
Proof.
  split; [discriminate|]. split; [vm_compute; reflexivity|].
  destruct (chat_returns_last_answer
              (DemoNet.always_status Llm.ChatMessage 401) DemoNet.all_transient
              DemoNet.client DemoNet.hello
              (Err (Llm.Api 401 "Invalid API key"))
              ltac:(discriminate) ltac:(vm_compute; reflexivity))
    as (out & H1 & H2 & _).
  exists out. split; [exact H1 | exact H2].
Defined.

Section RetryBudget.

Import Llm LlmSpec.

(** X8. The retry loop of [chat] and [chat_with_tools] keeps within the
    budget of its policy, whichever errors are handed to [retry] as
    permanent.  When [Bearer <key>] is a header value the loop returns, it
    has sent at least one and at most 121 requests, and the last of them was
    started no later than 30 s after the loop began (the time the loop takes
    is that start plus the duration of the last request).  When it is no
    header value the closure panics before the first request. *)
Theorem send_with_retry_budget {Msg : Type}
    (http : Network (OpenAIChatRequest Msg) (OpenAIChatResponse Msg))
    (permanent : Classifier) (self : LlmClient)
    (request : OpenAIChatRequest Msg) :
  if string_forallb is_value_char ("Bearer " ++ api_key self)%string then
    exists out start,
      send_with_retry http permanent self retry_fuel request = Returned out
      /\ (1 <= Backoff.attempts out <= 121)%nat
      /\ (start <= 30000)%N
      /\ Backoff.elapsed_ms out
         = (start + latency http (Backoff.attempts out - 1)%nat)%N
  else send_with_retry http permanent self retry_fuel request = Panicked.
Proof.
  fold (bearer_ok self). destruct (bearer_ok self) eqn:Hb.
  - destruct (send_with_retry_total http permanent self request Hb) as [out Hout].
    destruct (send_with_retry_within_budget http permanent self request _ out
                Hb Hout) as (Hatt & start & Hlow & Hhigh & Hms).
    exists out, start. split; [exact Hout|]. split; [lia|]. split; assumption.
  - apply send_with_retry_panics, Hb.
Qed.

Example send_with_retry_budget_runs :
  send_with_retry (DemoNet.always_status ChatMessage 503) DemoNet.all_transient
    DemoNet.client retry_fuel DemoNet.hello_request
  = Returned (Backoff.mkOutcome (Err (Api 503 "denied")) 11 26387)
  /\ send_with_retry (DemoNet.always_status ChatMessage 404)
       DemoNet.client_errors_permanent DemoNet.client retry_fuel
       DemoNet.hello_request
     = Returned (Backoff.mkOutcome (Err (Api 404 "denied")) 1 0)
  /\ send_with_retry (DemoNet.always_status ChatMessage 503) DemoNet.all_transient
       DemoNet.newline_key_client retry_fuel DemoNet.hello_request
     = Panicked.
Proof. repeat split; vm_compute; reflexivity. Qed.

End RetryBudget.

(** ** Plan mode: failures, the shortest run, and the tool log *)

Section PlanMore.

Import PlanTypes Plan PlanSpec PlanCommands.

Variable env : Env.

Lemma execute_tool_calls_err (run_id project_id : string)
    (tool_calls : list ToolCall) :
  forall msgs w e w',
    execute_tool_calls env run_id project_id tool_calls msgs w = (Err e, w') ->
    code e = "INVALID_ARGS".
Proof.
  induction tool_calls as [|tc rest IH]; intros msgs w e w' H;
    cbn [execute_tool_calls] in H; [discriminate|].
  apply bind_err in H as [H | (payload & w1 & _ & H)].
  - destruct (from_str (serde env) (arguments (function tc))) as [args|e0] eqn:Hp.
    + rewrite (execute_single_tool_parsed env _ _ _ _ _ Hp) in H. discriminate.
    + rewrite (execute_single_tool_unparsed env _ _ _ _ _ Hp) in H.
      inversion H. reflexivity.
  - apply bind_err in H as [H | (u & w2 & _ & H)].
    + rewrite ignore_err_ok in H. discriminate.
    + exact (IH _ _ _ _ H).
Qed.

Lemma tool_call_loop_err (config : Settings.LlmConfig)
    (api_key run_id project_id : string) (tools : list Json.Value) (n : nat) :
  forall st w e w',
    tool_call_loop env config api_key run_id project_id tools n st w
      = (Err e, w') ->
    In (code e) ["LLM_ERROR"; "LOG_ERROR"; "INVALID_ARGS"].
Proof.
  induction n as [|n IH]; intros st w e w' H; cbn [tool_call_loop] in H;
    [discriminate|].
  cbv zeta in H.
  apply bind_err in H as [H | (resp & w1 & _ & H)].
  { apply map_err_m_err in H as (e0 & _ & ->). left; reflexivity. }
  apply bind_err in H as [H | (u & w2 & _ & H)].
  { destruct (PlanTypes.content resp); [|discriminate].
    apply map_err_m_err in H as (e0 & _ & ->). right; left; reflexivity. }
  destruct (PlanTypes.tool_calls resp) as [[|tc tcs]|]; try discriminate.
  apply bind_err in H as [H | (msgs' & w3 & _ & H)].
  - apply execute_tool_calls_err in H. rewrite H. right; right; left; reflexivity.
  - exact (IH _ _ _ _ H).
Qed.

Lemma generate_plan_err (project_id task_id : string) (w w' : World)
    (e : PlanError) :
  generate_plan env project_id task_id w = (Err e, w') ->
  (In (code e) ERROR_CODES
   \/ exists msg,
        read_error env w = Some msg /\ e = settings_error env msg)
  /\ artifacts w' = artifacts w
  /\ (In (code e) ["TASK_NOT_FOUND"; "PROJECT_NOT_FOUND"; "NO_API_KEY"]
      \/ (exists msg,
            read_error env w = Some msg /\ e = settings_error env msg) ->
      w' = w).
Proof.
  unfold generate_plan, ERROR_CODES. intros H.
  apply bind_err in H as [H | (task & w1 & Htask & H)].
  { apply lift_err in H as [H ->]. destruct (get_task env task_id); inversion H.
    cbn; tauto. }
  apply lift_ok in Htask as [_ ->].
  apply bind_err in H as [H | (project & w1 & Hproject & H)].
  { apply lift_err in H as [H ->]. destruct (get_project env project_id);
      inversion H. cbn; tauto. }
  apply lift_ok in Hproject as [_ ->].
  apply bind_err in H as [H | (stg & w1 & Hstg & H)].
  { destruct (get_all_settings_cases env w) as [(msg & Hdb & He) | [_ Hok]];
      rewrite H in *; [|discriminate].
    inversion He; subst. split; [right; eauto|]. split; [reflexivity|].
    intros _. reflexivity. }
  apply get_all_settings_ok in Hstg as (-> & -> & Hread).
  assert (Hnot : ~ exists msg,
              read_error env w = Some msg /\ e = settings_error env msg).
  { intros (msg & Hmsg & _). congruence. }
  apply bind_err in H as [H | (key & w1 & Hkey & H)].
  { apply lift_err in H as [H ->]. unfold get_api_key in H.
    destruct (SPECTRAIL_API_KEY env); inversion H. cbn; tauto. }
  apply lift_ok in Hkey as [_ ->].
  assert (Hlate : forall c : string,
            In c ["RUN_CREATE_ERROR"; "LLM_ERROR"; "LOG_ERROR"; "INVALID_ARGS";
                  "ARTIFACT_ERROR"] ->
            c = code e ->
            (In (code e) ["TASK_NOT_FOUND"; "PROJECT_NOT_FOUND"; "NO_API_KEY";
                  "RUN_CREATE_ERROR"; "LLM_ERROR"; "LOG_ERROR"; "INVALID_ARGS";
                  "ARTIFACT_ERROR"]
             \/ exists msg,
                  read_error env w = Some msg
                  /\ e = settings_error env msg)
            /\ (In (code e) ["TASK_NOT_FOUND"; "PROJECT_NOT_FOUND"; "NO_API_KEY"]
                \/ (exists msg,
                      read_error env w = Some msg
                      /\ e = settings_error env msg) ->
                w' = w)).
  { intros c Hc <-. split; [left; cbn in Hc |- *; tauto|].
    intros [Hc' | Hc']; [|contradiction]. exfalso.
    cbn in Hc, Hc'. intuition (subst; congruence). }
  apply bind_err in H as [H | (run & w1 & Hrun & H)].
  { destruct (create_run_plan_cases env task_id w) as [[e' He] | (run & Hrun & _)];
      rewrite H in *; [|discriminate].
    inversion He; subst e' w'.
    unfold create_run_plan in H. apply map_err_m_err in H as (e0 & _ & ->).
    destruct (Hlate "RUN_CREATE_ERROR") as [H1 H2]; [cbn; tauto | reflexivity |].
    split; [exact H1|]. split; [reflexivity | exact H2]. }
  destruct (create_run_plan_cases env task_id w) as [[e' He] | (run' & Hrun' & _)];
    rewrite Hrun in *; [discriminate|].
  inversion Hrun'; subst run' w1. clear Hrun'.
  apply bind_err in H as [H | (st & w2 & Hloop & H)].
  { match type of H with tool_call_loop env ?c ?k ?r ?p ?t ?n ?s ?w1 = _ =>
      pose proof (tool_call_loop_log env c k r p t n s w1) as Hlog end.
    rewrite H in Hlog. destruct Hlog as (_ & _ & Hart & _).
    apply tool_call_loop_err in H.
    destruct (Hlate (code e)) as [H1 H2]; [cbn in H |- *; tauto | reflexivity |].
    split; [exact H1|]. split; [exact Hart | exact H2]. }
  match type of Hloop with tool_call_loop env ?c ?k ?r ?p ?t ?n ?s ?w1 = _ =>
    pose proof (tool_call_loop_log env c k r p t n s w1) as Hlog end.
  rewrite Hloop in Hlog. destruct Hlog as (_ & _ & Hart & _).
  cbn [snd artifacts] in Hart.
  apply bind_err in H as [H | (u & w3 & _ & H)]; [|discriminate].
  apply map_err_m_err in H as (e0 & H & ->).
  match type of H with upsert_artifact env ?a ?b ?c ?d w2 = _ =>
    destruct (upsert_artifact_cases env a b c d w2)
      as [[e' He] | (arts & Hup' & _)] end;
    rewrite H in *; [|discriminate].
  inversion He; subst e' w'.
  destruct (Hlate "ARTIFACT_ERROR") as [H1 H2]; [cbn; tauto | reflexivity |].
  split; [exact H1|]. split; [exact Hart | exact H2].
Qed.

(** X9. Whatever goes wrong, [generate_plan_command] reports it as the
    code in square brackets followed by the message.  The error is the one
    the failed read of the settings was turned into, or it carries one of
    eight codes; no artifact has been written or changed; and when the code
    is TASK_NOT_FOUND, PROJECT_NOT_FOUND or NO_API_KEY, or the settings could
    not be read, the database and the request log are exactly as before. *)
Theorem generate_plan_command_errors (project_id task_id : string)
    (w : World) (s : string) :
  (generate_plan_command env project_id task_id w).1 = Err s ->
  exists e,
    s = String.append "[" (String.append (code e) (String.append "] " (message e)))
    /\ (In (code e)
          [ "TASK_NOT_FOUND"; "PROJECT_NOT_FOUND"; "NO_API_KEY";
            "RUN_CREATE_ERROR"; "LLM_ERROR"; "LOG_ERROR"; "INVALID_ARGS";
            "ARTIFACT_ERROR" ]
        \/ exists msg,
             read_error env w = Some msg /\ e = settings_error env msg)
    /\ artifacts (generate_plan_command env project_id task_id w).2 = artifacts w
    /\ (In (code e) ["TASK_NOT_FOUND"; "PROJECT_NOT_FOUND"; "NO_API_KEY"]
        \/ (exists msg,
              read_error env w = Some msg /\ e = settings_error env msg) ->
        (generate_plan_command env project_id task_id w).2 = w).
Proof.
  destruct (generate_plan_command env project_id task_id w) as [res w'] eqn:H.
  cbn [fst snd]. intros ->. unfold generate_plan_command in H.
  apply map_err_m_err in H as (e & H & ->).
  apply generate_plan_err in H as (Hc & Hart & Hw).
  exists e. auto.
Qed.

(** X10. Four checks come before the run is created, in this order: a
    missing task gives TASK_NOT_FOUND, then a missing project
    PROJECT_NOT_FOUND, then a read of the settings that SQLite refuses gives
    the error that read is turned into, then an unset SPECTRAIL_API_KEY
    gives NO_API_KEY; each with no run created, no request sent and nothing
    written.  The key comes from the environment: the settings table is not
    consulted for it. *)
Theorem generate_plan_preconditions (project_id task_id : string) (w : World) :
  (forall e,
     get_task env task_id = Err e ->
     generate_plan env project_id task_id w
       = (Err (mkPlanError "TASK_NOT_FOUND" e), w))
  /\ (forall task e,
        get_task env task_id = Ok task ->
        get_project env project_id = Err e ->
        generate_plan env project_id task_id w
          = (Err (mkPlanError "PROJECT_NOT_FOUND" e), w))
  /\ (forall task project msg,
        get_task env task_id = Ok task ->
        get_project env project_id = Ok project ->
        read_error env w = Some msg ->
        generate_plan env project_id task_id w
          = (Err (settings_error env msg), w))
  /\ (forall task project,
        get_task env task_id = Ok task ->
        get_project env project_id = Ok project ->
        read_error env w = None ->
        SPECTRAIL_API_KEY env = None ->
        generate_plan env project_id task_id w
          = (Err (mkPlanError "NO_API_KEY"
                    "SPECTRAIL_API_KEY environment variable not set"), w)).
Proof.
  unfold generate_plan. split; [|split; [|split]].
  - intros e He. apply bind_step_err. unfold lift. rewrite He. reflexivity.
  - intros task e Ht He.
    rewrite (bind_step_ok _ _ w w task) by (unfold lift; rewrite Ht; reflexivity).
    apply bind_step_err. unfold lift. rewrite He. reflexivity.
  - intros task project msg Ht Hp Hdb.
    rewrite (bind_step_ok _ _ w w task) by (unfold lift; rewrite Ht; reflexivity).
    rewrite (bind_step_ok _ _ w w project)
      by (unfold lift; rewrite Hp; reflexivity).
    apply bind_step_err. unfold get_all_settings. rewrite Hdb. reflexivity.
  - intros task project Ht Hp Hdb Hk.
    rewrite (bind_step_ok _ _ w w task) by (unfold lift; rewrite Ht; reflexivity).
    rewrite (bind_step_ok _ _ w w project)
      by (unfold lift; rewrite Hp; reflexivity).
    rewrite (bind_step_ok _ _ w w (Settings.get_all_settings (settings w)))
      by (unfold get_all_settings; rewrite Hdb; reflexivity).
    apply bind_step_err. unfold lift, get_api_key. rewrite Hk. reflexivity.
Qed.

End PlanMore.

Section PlanShortRuns.

Import PlanTypes Plan PlanSpec PlanCommands.

Variable env : Env.

(** X11. When the provider fails on the first request, the call ends with
    LLM_ERROR and the provider's error text; by then the run row exists,
    still open, and the one request has been made, and nothing else has
    changed: no message row, no artifact. *)
Theorem generate_plan_provider_failure (pid task_id : string) (w : World)
    (task : Task) (project : Project) (key : string) (e : Llm.LlmError) :
  get_task env task_id = Ok task ->
  get_project env pid = Ok project ->
  SPECTRAIL_API_KEY env = Some key ->
  db_error env (clock w) = None ->
  chat_with_tools env (List.length (requests w))
    (Settings.build_llm_config (serde env)
       (Settings.get_all_settings (settings w)))
    key (build_initial_messages task project) (get_repo_tool_schemas env)
    = Err e ->
  generate_plan env pid task_id w
    = (Err (mkPlanError "LLM_ERROR" (Llm.LlmError_to_string e)),
       with_request (with_run w (new_run env task_id "plan" w))
         (build_initial_messages task project)).
Proof.
  intros Ht Hp Hk Hdb He. unfold generate_plan.
  rewrite (bind_step_ok _ _ w w task) by (unfold lift; rewrite Ht; reflexivity).
  rewrite (bind_step_ok _ _ w w project)
    by (unfold lift; rewrite Hp; reflexivity).
  rewrite (bind_step_ok _ _ w w (Settings.get_all_settings (settings w)))
    by (apply get_all_settings_read, Hdb).
  rewrite (bind_step_ok _ _ w w key)
    by (unfold lift, get_api_key; rewrite Hk; reflexivity).
  rewrite (bind_step_ok _ _ w _ _ (create_run_plan_ok env task_id w Hdb)).
  apply bind_step_err.
  change MAX_TOOL_ITERATIONS with (S 11).
  rewrite <- (seed_context task project 0 false "") at 2.
  apply tool_call_loop_provider_error.
  rewrite seed_context. exact He.
Qed.

(** X12. When the first answer of the model carries no tool call and the
    database accepts the writes, [generate_plan] succeeds after that one
    request: the plan is the answer's text (empty when there is none), no
    tool call is counted, the text is logged as one assistant row, and the
    plan is stored as the task's [plan_md] artifact. *)
Theorem generate_plan_immediate_answer (pid task_id : string) (w : World)
    (task : Task) (project : Project) (key : string) (resp : LlmResponse) :
  get_task env task_id = Ok task ->
  get_project env pid = Ok project ->
  SPECTRAIL_API_KEY env = Some key ->
  (forall n, db_error env n = None) ->
  chat_with_tools env (List.length (requests w))
    (Settings.build_llm_config (serde env)
       (Settings.get_all_settings (settings w)))
    key (build_initial_messages task project) (get_repo_tool_schemas env)
    = Ok resp ->
  PlanTypes.tool_calls resp = None \/ PlanTypes.tool_calls resp = Some [] ->
  let out := generate_plan env pid task_id w in
  let plan := unwrap_or_default (PlanTypes.content resp) in
  out.1 = Ok (mkPlanResult (new_id env (clock w)) plan 0
                (MAX_CONTEXT_CHARS
                   <? context_size (build_initial_messages task project))%N)
  /\ requests out.2 = requests w ++ [build_initial_messages task project]
  /\ runs out.2 = runs w ++ [new_run env task_id "plan" w]
  /\ messages out.2
     = messages w ++
         match PlanTypes.content resp with
         | Some c =>
             [mkMessageRow (new_id env (S (clock w))) (new_id env (clock w))
                "assistant" c (now_iso env (S (clock w)))]
         | None => []
         end
  /\ exists a, In a (artifacts out.2) /\ a_task_id a = task_id
               /\ kind a = "plan_md" /\ a_content a = plan.
Proof.
  intros Ht Hp Hk Hdb Hresp Hfinal out plan.
  set (w2 := with_reply env
               (with_request (with_run w (new_run env task_id "plan" w))
                  (build_initial_messages task project))
               (new_id env (clock w)) (PlanTypes.content resp)).
  assert (Hout : exists arts a,
            out = (Ok (mkPlanResult (new_id env (clock w)) plan 0
                         (MAX_CONTEXT_CHARS
                            <? context_size
                                 (build_initial_messages task project))%N),
                   mkWorld (settings w2) (runs w2) (messages w2) arts
                     (S (clock w2)) (requests w2))
            /\ In a arts /\ a_task_id a = task_id
            /\ kind a = "plan_md" /\ a_content a = plan).
  { subst out. unfold generate_plan.
    rewrite (bind_step_ok _ _ w w task)
      by (unfold lift; rewrite Ht; reflexivity).
    rewrite (bind_step_ok _ _ w w project)
      by (unfold lift; rewrite Hp; reflexivity).
    rewrite (bind_step_ok _ _ w w (Settings.get_all_settings (settings w)))
      by (apply get_all_settings_read, Hdb).
    rewrite (bind_step_ok _ _ w w key)
      by (unfold lift, get_api_key; rewrite Hk; reflexivity).
    rewrite (bind_step_ok _ _ w _ _ (create_run_plan_ok env task_id w (Hdb _))).
    change MAX_TOOL_ITERATIONS with (S 11) at 1.
    erewrite bind_step_ok; cycle 1.
    { apply tool_call_loop_final; [|exact Hfinal|apply Hdb].
      rewrite seed_context. exact Hresp. }
    rewrite seed_context.
    cbn [ls_tool_calls_count ls_final_plan ls_truncated ls_messages].
    change (MAX_TOOL_ITERATIONS <=? 0)%nat with false. cbn [andb].
    fold plan. change (r_id (new_run env task_id "plan" w)) with (new_id env (clock w)).
    fold w2.
    destruct (upsert_artifact_cases env task_id None "plan_md" plan w2)
      as [[e He] | (arts & Hup & a0 & Hin & Ha)].
    { unfold upsert_artifact in He. rewrite Hdb in He. discriminate. }
    erewrite bind_step_ok
      by (unfold map_err_m; rewrite Hup; reflexivity).
    exists arts, a0. split; [|split; assumption].
    unfold ret. destruct (_ <? _)%N; reflexivity. }
  destruct Hout as (arts & a0 & -> & Hin & Ha).
  cbn [fst snd requests runs messages artifacts].
  split; [reflexivity|].
  subst w2.
  destruct (PlanTypes.content resp) as [c|];
    cbn [with_reply with_message with_request with_run requests runs messages
         clock new_run r_id];
    (split; [reflexivity|]); (split; [reflexivity|]);
    (split; [try reflexivity; symmetry; apply app_nil_r|]);
    exists a0; split; assumption.
Qed.

End PlanShortRuns.

Section ToolLog.

Import PlanTypes Plan PlanSpec PlanCommands.

Variable env : Env.

Lemma rows_of_role_app (role : string) (a b : list MessageRow) :
  rows_of_role role (a ++ b) = rows_of_role role a ++ rows_of_role role b.
Proof. apply List.filter_app. Qed.

(** One [add_message]: at most one row more, of the given role, and
    exactly one when the write is accepted. *)
Lemma add_message_rows (run_id role content : string) (w : World) :
  exists k,
    (k <= 1)%nat
    /\ ((forall n, db_error env n = None) -> k = 1%nat)
    /\ forall r,
         List.length (rows_of_role r (messages (add_message env run_id role content w).2))
         = (List.length (rows_of_role r (messages w))
            + if String.eqb role r then k else 0)%nat.
Proof.
  unfold add_message. destruct (db_error env (clock w)) as [e|] eqn:Hdb.
  - exists 0%nat. split; [lia|]. split.
    + intros H. rewrite H in Hdb. discriminate.
    + intros r. cbn [snd tick messages]. destruct (String.eqb role r); lia.
  - exists 1%nat. split; [lia|]. split; [reflexivity|].
    intros r. cbn [snd messages]. rewrite rows_of_role_app, length_app.
    unfold rows_of_role at 2. cbn [List.filter m_role].
    destruct (String.eqb role r); reflexivity.
Qed.

Lemma execute_tool_calls_rows (run_id project_id : string)
    (tool_calls : list ToolCall) :
  forall msgs w msgs' w',
    execute_tool_calls env run_id project_id tool_calls msgs w = (Ok msgs', w') ->
    exists k,
      (k <= List.length tool_calls)%nat
      /\ ((forall n, db_error env n = None) -> k = List.length tool_calls)
      /\ List.length (rows_of_role "tool" (messages w'))
         = (List.length (rows_of_role "tool" (messages w)) + k)%nat.
Proof.
  induction tool_calls as [|tc rest IH]; intros msgs w msgs' w' H;
    cbn [execute_tool_calls] in H.
  - inversion H; subst. exists 0%nat. cbn. split; [lia|]. split; [reflexivity | lia].
  - apply bind_ok in H as (payload & w1 & Hexec & H).
    apply bind_ok in H as (u & w2 & Hadd & H).
    rewrite ignore_err_ok in Hadd. inversion Hadd; subst w2. clear Hadd.
    apply IH in H as (k & Hk & Hkeq & Hrows).
    assert (Hw1 : messages w1 = messages w).
    { pose proof (proj1 (execute_single_tool_log env run_id project_id tc w)) as Hl.
      rewrite Hexec in Hl.
      destruct (from_str (serde env) (arguments (function tc))) as [args|e0] eqn:Hp.
      - rewrite (execute_single_tool_parsed env _ _ _ _ _ Hp) in Hexec.
        inversion Hexec. reflexivity.
      - rewrite (execute_single_tool_unparsed env _ _ _ _ _ Hp) in Hexec.
        discriminate. }
    match type of Hrows with context [add_message env ?r ?ro ?c w1] =>
      destruct (add_message_rows r ro c w1) as (j & Hj & Hjeq & Hjrows) end.
    specialize (Hjrows "tool"). rewrite String.eqb_refl in Hjrows.
    exists (j + k)%nat. cbn [List.length].
    split; [lia|]. split.
    + intros Hdb. rewrite (Hjeq Hdb), (Hkeq Hdb). reflexivity.
    + rewrite Hrows, Hjrows, Hw1. lia.
Qed.

Lemma tool_call_loop_rows (config : Settings.LlmConfig)
    (api_key run_id project_id : string) (tools : list Json.Value) (n : nat) :
  forall st w st' w',
    tool_call_loop env config api_key run_id project_id tools n st w
      = (Ok st', w') ->
    exists k,
      (ls_tool_calls_count st + k <= ls_tool_calls_count st')%nat
      /\ ((forall n, db_error env n = None) ->
          (ls_tool_calls_count st + k)%nat = ls_tool_calls_count st')
      /\ List.length (rows_of_role "tool" (messages w'))
         = (List.length (rows_of_role "tool" (messages w)) + k)%nat.
Proof.
  induction n as [|n IH]; intros st w st' w' H; cbn [tool_call_loop] in H.
  - inversion H; subst. exists 0%nat. split; [lia|]. split; [intros; lia | lia].
  - cbv zeta in H.
    apply bind_ok in H as (resp & w1 & Hchat & H).
    apply map_err_m_ok in Hchat. unfold client_chat_with_tools in Hchat.
    assert (Hm1 : messages w1 = messages w) by (inversion Hchat; reflexivity).
    clear Hchat.
    apply bind_ok in H as (u & w2 & Hlog & H).
    assert (Hm2 : List.length (rows_of_role "tool" (messages w2))
                  = List.length (rows_of_role "tool" (messages w1))).
    { destruct (PlanTypes.content resp) as [c|].
      - apply map_err_m_ok in Hlog.
        destruct (add_message_rows run_id "assistant" c w1) as (j & _ & _ & Hj).
        specialize (Hj "tool"). rewrite Hlog in Hj. cbn [snd] in Hj.
        assert (E : String.eqb "assistant" "tool" = false) by reflexivity.
        rewrite E in Hj. lia.
      - inversion Hlog. reflexivity. }
    clear Hlog.
    assert (Hstop : forall s0 : LoopState,
              ls_tool_calls_count s0 = ls_tool_calls_count st ->
              (@Ok LoopState PlanError s0, w2) = (Ok st', w') ->
              exists k,
                (ls_tool_calls_count st + k <= ls_tool_calls_count st')%nat
                /\ ((forall n, db_error env n = None) ->
                    (ls_tool_calls_count st + k)%nat = ls_tool_calls_count st')
                /\ List.length (rows_of_role "tool" (messages w'))
                   = (List.length (rows_of_role "tool" (messages w)) + k)%nat).
    { intros s0 Hs0 Heq. inversion Heq; subst s0 w2. exists 0%nat.
      split; [lia|]. split; [intros; lia|]. rewrite Hm2, Hm1. lia. }
    destruct (PlanTypes.tool_calls resp) as [[|tc tcs]|];
      [eapply Hstop; [|exact H]; reflexivity | | eapply Hstop; [|exact H]; reflexivity].
    clear Hstop.
    apply bind_ok in H as (msgs' & w3 & Hexec & H).
    apply execute_tool_calls_rows in Hexec as (j & Hj & Hjeq & Hjrows).
    apply IH in H as (k & Hk & Hkeq & Hrows).
    cbn [ls_tool_calls_count] in Hk, Hkeq.
    exists (j + k)%nat. split; [lia|]. split.
    + intros Hdb. specialize (Hjeq Hdb). specialize (Hkeq Hdb). lia.
    + rewrite Hrows, Hjrows, Hm2, Hm1. lia.
Qed.

(** X13. The tool rows of the run log follow the reported count: a
    [generate_plan] that succeeds has appended at most
    [tool_calls_count] rows of role [tool], and exactly that many when the
    database accepted every write (a tool row that cannot be written is
    dropped without failing the run). *)
Theorem tool_rows_follow_count (project_id task_id : string) (w : World)
    (r : PlanResult) :
  let out := generate_plan env project_id task_id w in
  out.1 = Ok r ->
  exists k,
    List.length (rows_of_role "tool" (messages out.2))
      = (List.length (rows_of_role "tool" (messages w)) + k)%nat
    /\ (k <= tool_calls_count r)%nat
    /\ ((forall n, db_error env n = None) -> k = tool_calls_count r).
Proof.
  intros out. subst out.
  destruct (generate_plan env project_id task_id w) as [res w'] eqn:Hr.
  cbn [fst snd]. intros ->. unfold generate_plan in Hr.
  apply bind_ok in Hr as (task & w1 & Htask & Hr).
  apply lift_ok in Htask as [_ ->].
  apply bind_ok in Hr as (project & w1 & Hproject & Hr).
  apply lift_ok in Hproject as [_ ->].
  apply bind_ok in Hr as (stg & w1 & Hstg & Hr).
  apply (get_all_settings_ok env) in Hstg as (-> & -> & _).
  apply bind_ok in Hr as (key & w1 & Hkey & Hr).
  apply lift_ok in Hkey as [_ ->].
  apply bind_ok in Hr as (run & w1 & Hrun & Hr).
  apply bind_ok in Hr as (st & w2 & Hloop & Hr).
  apply bind_ok in Hr as (u & w3 & Hup & Hr).
  apply map_err_m_ok in Hup.
  destruct (create_run_plan_cases env task_id w) as [[e He] | (run' & Hrun' & _)];
    rewrite Hrun in *; [discriminate |].
  inversion Hrun'; subst run' w1. clear Hrun' Hrun.
  apply tool_call_loop_rows in Hloop as (k & Hk & Hkeq & Hrows).
  cbn [ls_tool_calls_count messages] in Hk, Hkeq, Hrows.
  match type of Hup with upsert_artifact env ?a ?b ?c ?d w2 = _ =>
    destruct (upsert_artifact_cases env a b c d w2)
      as [[e He] | (arts & Hup' & _)] end;
    rewrite Hup in *; [discriminate |].
  inversion Hup'; subst w3. clear Hup' Hup.
  unfold ret in Hr. inversion Hr; subst r w'. clear Hr.
  cbn [messages tool_calls_count].
  exists k. split; [exact Hrows|]. split; [lia|].
  intros Hdb. specialize (Hkeq Hdb). lia.
Qed.

End ToolLog.

Section ProjectIdDefault.

Import PlanTypes Plan PlanSpec PlanCommands.

Variable env : Env.

Lemma assoc_app (k : string) (a b : list (string * Json.Value)) :
  Json.assoc k (a ++ b) =
    match Json.assoc k a with
    | Some v => Some v
    | None => Json.assoc k b
    end.
Proof.
  induction a as [|[k' v'] a IH]; simpl; [reflexivity|].
  destruct (String.eqb k k'); [reflexivity | exact IH].
Qed.

Lemma with_project_id_get (project_id : string) (args : Json.Value)
    (k : string) :
  Json.get (with_project_id project_id args) k =
    match args with
    | Json.Object obj =>
        if String.eqb k "project_id"
        then Some (default (Json.Str project_id) (Json.assoc "project_id" obj))
        else Json.assoc k obj
    | _ => None
    end.
Proof.
  destruct args as [| | | | |obj]; try reflexivity.
  unfold with_project_id, Json.entry_or_insert. cbn [Json.get].
  destruct (String.eqb k "project_id") eqn:E.
  - apply String.eqb_eq in E; subst k.
    destruct (Json.assoc "project_id" obj) as [v|] eqn:Hv; cbn [default].
    + exact Hv.
    + rewrite assoc_app, Hv. reflexivity.
  - destruct (Json.assoc "project_id" obj) as [v|] eqn:Hv; [reflexivity|].
    rewrite assoc_app. cbn [Json.assoc]. rewrite E.
    destruct (Json.assoc k obj); reflexivity.
Qed.

(** X14. The project id a tool call runs with is a default, not a
    constraint: when the model's arguments are an object, the tool receives
    them with [project_id] set to the task's project only if the model gave
    none; a [project_id] chosen by the model, of any JSON type, is passed
    on as it is, and so is every other field.  Arguments that are not an
    object are passed on unchanged. *)
Theorem project_id_is_a_default (run_id project_id : string)
    (tool_call : ToolCall) (args : Json.Value) (w : World) :
  from_str (serde env) (arguments (function tool_call)) = Ok args ->
  exists sent,
    execute_single_tool env run_id project_id tool_call w
      = (Ok match execute_repo_tool env (clock w) run_id project_id
                    (name (function tool_call)) sent with
            | Ok val => to_string (serde env) val
            | Err e => to_string (serde env) (Json.Object [("error", Json.Str e)])
            end,
         tick w)
    /\ (forall k,
          Json.get sent k =
            match args with
            | Json.Object obj =>
                if String.eqb k "project_id"
                then Some (default (Json.Str project_id)
                             (Json.assoc "project_id" obj))
                else Json.assoc k obj
            | _ => None
            end)
    /\ ((forall obj, args <> Json.Object obj) -> sent = args).
Proof.
  intros Hp. exists (with_project_id project_id args).
  split; [|split].
  - rewrite (execute_single_tool_parsed env _ _ _ _ _ Hp). reflexivity.
  - apply with_project_id_get.
  - intros Hno. destruct args; try reflexivity. exfalso. eapply Hno; reflexivity.
Qed.

End ProjectIdDefault.

Section PlanMoreWitnesses.

Import PlanTypes Plan PlanSpec PlanCommands Demo.

Lemma generate_plan_command_errors_witness :
  (generate_plan_command bad_args_env "proj-1" "task-1" fresh).1
    = Err "[INVALID_ARGS] Failed to parse tool args: expected value at line 1 column 1"
  /\ (generate_plan_command locked_env "proj-1" "task-1" fresh).1
     = Err "[SETTINGS_ERROR] database is locked"
  /\ exists e,
       "[SETTINGS_ERROR] database is locked"
         = String.append "[" (String.append (code e) (String.append "] " (message e)))
       /\ (generate_plan_command locked_env "proj-1" "task-1" fresh).2 = fresh.
Proof.
  split; [vm_compute; reflexivity|]. split; [vm_compute; reflexivity|].
  destruct (generate_plan_command_errors locked_env "proj-1" "task-1" fresh
              "[SETTINGS_ERROR] database is locked")
    as (e & Hs & [Hc | Hread] & _ & Hw); [vm_compute; reflexivity | |].
  - exists e. split; [exact Hs|]. apply Hw. right.
    exists "database is locked". split; [reflexivity|].
    destruct e as [c m]. cbn [code message] in Hs, Hc.
    exfalso. cbn in Hc.
    repeat (destruct Hc as [<- | Hc]; [discriminate Hs|]). exact Hc.
  - exists e. split; [exact Hs|]. apply Hw. right. exact Hread.
Defined.

(** With the settings read and the insert of the run refused, the call
    ends with RUN_CREATE_ERROR. *)
Example generate_plan_command_write_refused :
  generate_plan_command full_env "proj-1" "task-1" fresh
  = (Err "[RUN_CREATE_ERROR] database or disk is full", tick fresh).
Proof. vm_compute. reflexivity. Qed.

Lemma generate_plan_provider_failure_witness :
  generate_plan rate_limited_env "proj-1" "task-1" fresh
    = (Err (mkPlanError "LLM_ERROR" (Llm.LlmError_to_string Llm.RateLimited)),
       with_request (with_run fresh (new_run rate_limited_env "task-1" "plan" fresh))
         (build_initial_messages the_task the_project)).
Proof.
  exact (generate_plan_provider_failure rate_limited_env "proj-1" "task-1" fresh
           the_task the_project "sk-test" Llm.RateLimited
           eq_refl eq_refl eq_refl eq_refl eq_refl).
Defined.

Lemma generate_plan_immediate_answer_witness :
  let out := generate_plan final_at_once_env "proj-1" "task-1" fresh in
  out.1 = Ok (mkPlanResult "id-0" "# Implementation Plan: X" 0 false)
  /\ List.map m_role (messages out.2) = ["assistant"]
  /\ List.length (requests out.2) = 1%nat.
Proof.
  destruct (generate_plan_immediate_answer final_at_once_env "proj-1" "task-1"
              fresh the_task the_project "sk-test"
              (mkLlmResponse (Some "# Implementation Plan: X") None)
              eq_refl eq_refl eq_refl (fun _ => eq_refl) eq_refl
              (or_introl eq_refl))
    as (H1 & H2 & _ & H4 & _).
  cbv zeta. rewrite H1, H2, H4. repeat split.
Defined.

Lemma tool_rows_follow_count_witness :
  (generate_plan reading_env "proj-1" "task-1" fresh).1
    = Ok (mkPlanResult "id-0" "# Implementation Plan: X" 1 false)
  /\ exists k,
       List.length
         (rows_of_role "tool"
            (messages (generate_plan reading_env "proj-1" "task-1" fresh).2))
       = (List.length (rows_of_role "tool" (messages fresh)) + k)%nat
       /\ (k <= 1)%nat
       /\ ((forall n, db_error reading_env n = None) -> k = 1%nat).
Proof.
  split; [vm_compute; reflexivity|].
  apply (tool_rows_follow_count reading_env "proj-1" "task-1" fresh
           (mkPlanResult "id-0" "# Implementation Plan: X" 1 false)).
  vm_compute; reflexivity.
Defined.

Lemma project_id_is_a_default_witness :
  from_str (serde foreign_env) "{}" = Ok foreign_args
  /\ exists sent,
       execute_single_tool foreign_env "id-0" "proj-1"
         (call "call_1" "read_file" "{}") fresh
       = (Ok match execute_repo_tool foreign_env (clock fresh) "id-0" "proj-1"
                     "read_file" sent with
             | Ok val => to_string (serde foreign_env) val
             | Err e =>
                 to_string (serde foreign_env) (Json.Object [("error", Json.Str e)])
             end,
          tick fresh)
       /\ Json.get sent "project_id" = Some (Json.Str "proj-2").
Proof.
  split; [reflexivity|].
  destruct (project_id_is_a_default foreign_env "id-0" "proj-1"
              (call "call_1" "read_file" "{}") foreign_args fresh eq_refl)
    as (sent & H1 & H2 & _).
  exists sent. split; [exact H1|]. rewrite H2. reflexivity.
Defined.

End PlanMoreWitnesses.

Section PruneShape.

Import PlanTypes Plan.

Lemma recent_is_suffix (msgs : list ChatMessage) :
  rev (take 6 (rev msgs)) = drop (List.length msgs - 6) msgs.
Proof. rewrite List.firstn_rev, List.rev_involutive. reflexivity. Qed.

(** X15. What pruning keeps: a context of fewer than three messages is
    left alone; a longer one becomes its first message followed by its last
    six, in their order.  So the result never has more than seven messages
    and holds messages of the input only, and [max_chars] plays no part;
    its size in characters is not bounded by this step. *)
Theorem truncate_messages_shape (msgs : list ChatMessage) (max_chars : N) :
  let out := truncate_messages msgs max_chars in
  ((List.length msgs < 3)%nat -> out = msgs)
  /\ ((3 <= List.length msgs)%nat ->
      exists sys, head msgs = Some sys
                  /\ out = sys :: drop (List.length msgs - 6) msgs)
  /\ (List.length out <= 7)%nat
  /\ (forall m, In m out -> In m msgs)
  /\ out = truncate_messages msgs 0.
Proof.
  intros out; subst out. unfold truncate_messages.
  rewrite recent_is_suffix.
  destruct (List.length msgs <? 3)%nat eqn:Hlen; cbv beta iota.
  - apply Nat.ltb_lt in Hlen.
    split; [reflexivity|]. split; [intros; lia|]. split; [idtac|].
    lia.
    split; [tauto | reflexivity].
  - apply Nat.ltb_ge in Hlen.
    destruct msgs as [|sys rest]; [simpl in Hlen; lia|].
    cbn [head]. split; [intros; lia|].
    split; [intros _; exists sys; split; reflexivity|].
    split; [|split; [|reflexivity]].
    + cbn [app List.length]. rewrite length_drop. cbn [List.length]. lia.
    + intros m [<-|Hin]; [left; reflexivity|].
      rewrite <- (List.firstn_skipn (List.length (sys :: rest) - 6) (sys :: rest)).
      apply in_or_app. right. exact Hin.
Qed.

End PruneShape.

(** ** Repository tools *)

Section RepoToolsFacts.

Import PathGuard Runner RepoTools.

Lemma substring_prefix (n : nat) (s : string) :
  String.prefix (String.substring 0 n s) s = true.
Proof.
  revert n; induction s as [|c s IH]; intros [|n]; simpl; try reflexivity.
  destruct (ascii_dec c c); [apply IH | congruence].
Qed.

Lemma substring_length (n : nat) (s : string) :
  (n <= String.length s)%nat ->
  String.length (String.substring 0 n s) = n.
Proof.
  revert n; induction s as [|c s IH]; intros [|n] H; simpl in *;
    try reflexivity; try lia.
  rewrite IH by lia. reflexivity.
Qed.

Lemma get_some_lt (n : nat) (s : string) (b : ascii) :
  String.get n s = Some b -> (n < String.length s)%nat.
Proof.
  revert n; induction s as [|c s IH]; intros [|n] H; simpl in *;
    try discriminate; try lia.
  apply IH in H. lia.
Qed.

Lemma slice_to_some (s t : string) (n : nat) :
  slice_to s n = Some t ->
  t = String.substring 0 n s
  /\ String.length t = n
  /\ String.prefix t s = true.
Proof.
  unfold slice_to, is_char_boundary. intros H.
  assert (Hn : (n <= String.length s)%nat).
  { destruct (n =? 0)%nat eqn:E; [apply Nat.eqb_eq in E; lia|].
    destruct (String.get n s) as [b|] eqn:G.
    - apply get_some_lt in G. lia.
    - destruct (n =? String.length s)%nat eqn:E2; [|discriminate].
      apply Nat.eqb_eq in E2. lia. }
  destruct (if (n =? 0)%nat then true else _); [|discriminate].
  injection H as <-. split; [reflexivity|].
  split; [apply substring_length, Hn | apply substring_prefix].
Qed.

Lemma slice_to_inside_character (s : string) (n : nat) (b : ascii) :
  (0 < n)%nat ->
  String.get n s = Some b ->
  is_utf8_char_boundary b = false ->
  slice_to s n = None.
Proof.
  intros Hn Hg Hb. unfold slice_to, is_char_boundary.
  destruct (n =? 0)%nat eqn:E; [apply Nat.eqb_eq in E; lia|].
  rewrite Hg, Hb. reflexivity.
Qed.

Lemma sanitize_path_ok (canon : PathBuf -> option PathBuf) (base : PathBuf)
    (requested : string) (full : PathBuf) :
  sanitize_path canon base requested = Ok full ->
  canon (join base (cleaned requested)) = Some full
  /\ exists root rest, canon base = Some root /\ full = root ++ rest.
Proof.
  unfold sanitize_path.
  destruct (canon (join base (cleaned requested))) as [c|]; [|discriminate].
  destruct (canon base) as [r|]; [|discriminate].
  destruct (starts_with c r) eqn:Hs; cbn [negb]; [|discriminate].
  intros H; injection H as <-. split; [reflexivity|].
  apply starts_with_prefix in Hs as [rest ->]. eauto.
Qed.

(** X16. What [read_file] returns was read below the repository root: a
    result that is returned names a path whose canonical form extends the
    canonical form of the root, and its [content] is a prefix of that
    file's text: the whole text with [truncated = false], or exactly
    [max_size] bytes of it with [truncated = true] and the size the file
    system reported as [total_size]. *)
Theorem read_file_returns (fs : Fs) (repo_path : string) (args v : Json.Value) :
  read_file fs repo_path args = Some (Ok v) ->
  exists path full root rest content shown,
    Json.get args "path" ≫= Json.as_str = Some path
    /\ canonicalize fs (join (components repo_path) (cleaned path)) = Some full
    /\ canonicalize fs (components repo_path) = Some root
    /\ full = root ++ rest
    /\ read_to_string fs full = Ok content
    /\ Json.get v "content" = Some (Json.Str shown)
    /\ String.prefix shown content = true
    /\ ((Json.get v "truncated" = Some (Json.Bool false) /\ shown = content)
        \/ (Json.get v "truncated" = Some (Json.Bool true)
            /\ Z.of_nat (String.length shown)
               = default 50000%Z (Json.get args "max_size" ≫= Json.as_u64)
            /\ exists len,
                 metadata_len fs full = Ok len
                 /\ Json.get v "total_size" = Some (Json.Number len))).
Proof.
  unfold read_file.
  destruct (Json.get args "path" ≫= Json.as_str) as [path|]; [|discriminate].
  set (max_size := default 50000%Z (Json.get args "max_size" ≫= Json.as_u64)).
  assert (Hmax : (0 <= max_size)%Z).
  { unfold max_size.
    destruct (Json.get args "max_size") as [[| |n| | |]|]; cbn; try lia.
    destruct (_ && _) eqn:E; cbn; [|lia].
    apply andb_true_iff in E as [E _]. apply Z.leb_le in E. exact E. }
  destruct (sanitize_path _ _ path) as [full|e] eqn:Hs; [|discriminate].
  apply sanitize_path_ok in Hs as (Hfull & root & rest & Hroot & ->).
  destruct (metadata_len fs (root ++ rest)) as [len|e] eqn:Hm; [|discriminate].
  destruct (max_size <? len)%Z.
  - destruct (read_to_string fs (root ++ rest)) as [content|e] eqn:Hr;
      [|discriminate].
    destruct (slice_to content (Z.to_nat max_size)) as [shown|] eqn:Hsl;
      [|discriminate].
    intros H; injection H as <-.
    apply slice_to_some in Hsl as (_ & Hlen & Hpre).
    exists path, (root ++ rest), root, rest, content, shown.
    repeat (split; [first [reflexivity | assumption]|]).
    right. split; [reflexivity|]. split; [rewrite Hlen; lia|].
    exists len. split; [exact Hm | reflexivity].
  - destruct (read_to_string fs (root ++ rest)) as [content|e] eqn:Hr;
      [|discriminate].
    intros H; injection H as <-.
    exists path, (root ++ rest), root, rest, content, content.
    repeat (split; [first [reflexivity | assumption | apply prefix_refl]|]).
    left. split; reflexivity.
Qed.

Lemma read_file_returns_witness :
  read_file demo "/repo" (read_args "README.md" 3)
    = Some (Ok (Json.Object [ ("content", Json.Str "hel");
                              ("truncated", Json.Bool true);
                              ("total_size", Json.Number 5) ]))
  /\ exists full content,
       canonicalize demo (join (components "/repo") (cleaned "README.md"))
         = Some full
       /\ read_to_string demo full = Ok content
       /\ String.prefix "hel" content = true.
Proof.
  split; [reflexivity|].
  destruct (read_file_returns demo "/repo" (read_args "README.md" 3) _ eq_refl)
    as (path & full & root & rest & content & shown
        & Hpath & Hfull & _ & _ & Hread & Hshown & Hpre & _).
  exists full, content.
  change (Some "README.md" = Some path) in Hpath. injection Hpath as <-.
  injection Hshown as <-. split; [exact Hfull|]. split; [exact Hread | exact Hpre].
Defined.

(** X17. [read_file] cuts a file that is over the limit at a byte offset,
    and the cut panics when that offset falls inside a multi-byte
    character: with a limit of [max_size > 0] bytes, a file reported larger
    than the limit whose byte at offset [max_size] continues a UTF-8
    sequence gives no result at all. *)
Theorem read_file_cut_inside_character (fs : Fs) (repo_path : string)
    (args : Json.Value) (path : string) (max_size len : Z) (full : PathBuf)
    (content : string) (b : ascii) :
  Json.get args "path" ≫= Json.as_str = Some path ->
  Json.get args "max_size" ≫= Json.as_u64 = Some max_size ->
  sanitize_path (canonicalize fs) (components repo_path) path = Ok full ->
  metadata_len fs full = Ok len ->
  (0 < max_size < len)%Z ->
  read_to_string fs full = Ok content ->
  String.get (Z.to_nat max_size) content = Some b ->
  is_utf8_char_boundary b = false ->
  read_file fs repo_path args = None.
Proof.
  intros Hpath Hmax Hs Hm Hlt Hr Hg Hb. unfold read_file.
  rewrite Hpath, Hmax, Hs, Hm. change (default 50000%Z (Some max_size)) with max_size.
  replace (max_size <? len)%Z with true by (symmetry; apply Z.ltb_lt; lia).
  rewrite Hr.
  assert (Hpos : (0 < Z.to_nat max_size)%nat) by lia.
  rewrite (slice_to_inside_character content _ b Hpos Hg Hb).
  reflexivity.
Qed.

Lemma read_file_cut_inside_character_witness :
  String.get 4 ("caf" ++ two_byte ++ " au lait")%string = Some (ascii_of_nat 169)
  /\ read_file demo "/repo" (read_args "src/main.rs" 4) = None.
Proof.
  split; [reflexivity|].
  apply (read_file_cut_inside_character demo "/repo"
           (read_args "src/main.rs" 4) "src/main.rs" 4 13
           [RootDir; Normal "repo"; Normal "src"; Normal "main.rs"]
           ("caf" ++ two_byte ++ " au lait")%string (ascii_of_nat 169));
    first [reflexivity | lia].
Defined.

End RepoToolsFacts.

Section GitAndTests.

Import PathGuard Runner RepoTools.

Lemma git_status_shape (repo_path : string) (p : Procs) :
  let cmd := mkCommand "git" ["status"; "--porcelain"; "-b"] repo_path in
  started (git_status repo_path p).2 = started p ++ [cmd]
  /\ (git_status repo_path p).1
     = match output_of p cmd with
       | Err e => Err (Execution e)
       | Ok o =>
           if success o
           then Ok (Json.Object [("status", Json.Str (stdout o))])
           else Err (Execution "git status failed")
       end.
Proof.
  cbv zeta. unfold git_status, output.
  destruct (output_of p _) as [o|e]; [|split; reflexivity].
  destruct (success o); split; reflexivity.
Qed.

Lemma get_none_ge (n : nat) (s : string) :
  String.get n s = None -> (String.length s <= n)%nat.
Proof.
  revert n; induction s as [|c s IH]; intros [|n] H; simpl in *;
    try discriminate; try lia.
  apply IH in H. lia.
Qed.

(** X18. [git_diff] starts exactly one process, [git diff] in the
    repository directory with [--cached] when [staged] or [cached] is
    true, and passes nothing else of its arguments on.  It does not look at
    the exit status.  An output of at most 100,000 bytes is returned whole
    with [truncated = false].  A longer one is cut after 100,000 bytes, with
    [truncated = true], unless the byte at offset 100,000 continues a UTF-8
    sequence: then the cut falls inside a character and the call panics.
    [total_bytes] is the full length in both cases. *)
Theorem git_diff_shape (repo_path : string) (args : Json.Value) (p : Procs) :
  let out := git_diff repo_path args p in
  let cmd :=
    mkCommand "git"
      ("diff" :: if default false (Json.get args "staged" ≫= as_bool)
                    || default false (Json.get args "cached" ≫= as_bool)
                 then ["--cached"] else [])
      repo_path in
  started out.2 = started p ++ [cmd]
  /\ match output_of p cmd with
     | Err e => out.1 = Some (Err (Execution e))
     | Ok o =>
         let total := Z.of_nat (String.length (stdout o)) in
         match String.get (N.to_nat 100000) (stdout o) with
         | None =>
             out.1 = Some (Ok (Json.Object
                                 [ ("diff", Json.Str (stdout o));
                                   ("truncated", Json.Bool false);
                                   ("total_bytes", Json.Number total) ]))
         | Some b =>
             if (128 <=? nat_of_ascii b)%nat && (nat_of_ascii b <? 192)%nat
             then out.1 = None
             else
               exists diff,
                 out.1 = Some (Ok (Json.Object
                                     [ ("diff", Json.Str diff);
                                       ("truncated", Json.Bool true);
                                       ("total_bytes", Json.Number total) ]))
                 /\ String.length diff = N.to_nat 100000
                 /\ String.prefix diff (stdout o) = true
         end
     end.
Proof.
  intros out cmd. subst out. unfold git_diff. cbv zeta.
  change (["diff"] ++ ?l) with ("diff" :: l). fold cmd.
  unfold output. destruct (output_of p cmd) as [o|e]; [|split; reflexivity].
  assert (Hpos : (0 < N.to_nat 100000)%nat) by lia.
  revert Hpos. generalize (N.to_nat 100000). intros max_len Hpos.
  cbn [fst snd started]. 
  destruct (String.get max_len (stdout o)) as [b|] eqn:G.
  - pose proof (get_some_lt _ _ _ G) as Hlt.
    apply Nat.ltb_lt in Hlt. rewrite Hlt.
    unfold slice_to, is_char_boundary. rewrite G.
    destruct (max_len =? 0)%nat eqn:E; [apply Nat.eqb_eq in E; lia|].
    unfold is_utf8_char_boundary. cbv zeta.
    apply Nat.ltb_lt in Hlt.
    destruct (Nat.ltb_spec (nat_of_ascii b) 128);
      destruct (Nat.leb_spec 192 (nat_of_ascii b));
      destruct (Nat.leb_spec 128 (nat_of_ascii b));
      destruct (Nat.ltb_spec (nat_of_ascii b) 192);
      cbn [orb andb fst snd]; try lia;
      try (split; reflexivity);
      (split; [reflexivity|]; eexists; split; [reflexivity|];
       split; [apply substring_length; lia | apply substring_prefix]).
  - pose proof (get_none_ge _ _ G) as Hge.
    apply Nat.ltb_ge in Hge. rewrite Hge. split; reflexivity.
Qed.

Example git_diff_cut_inside_character :
  let long :=
    (Demo.repeat_string (N.to_nat 99999) "x" ++ two_byte ++ "y")%string in
  (git_diff "/repo" (Json.Object [])
     (mkProcs [] (fun _ => Ok (mkOutput true (Some 0%Z) long "")))).1
  = None.
Proof. vm_compute. reflexivity. Qed.

Lemma run_command_fixed (command program : string) (rest : list string)
    (repo_path : string) (os : Os) :
  In command ALLOWED_COMMANDS ->
  split_whitespace command = program :: rest ->
  run_command repo_path (command_args command) os
  = (match os_output os (mkSpawn program rest repo_path true 120) with
     | Ok o => Ok (output_json o)
     | Err e => Err (Execution e)
     end,
     mkOs (spawned os ++ [mkSpawn program rest repo_path true 120])
       (os_output os)).
Proof.
  intros Hin Hs. unfold run_command, command_args.
  cbn [Json.get Json.assoc String.eqb Ascii.eqb Bool.eqb mbind option_bind
       Json.as_str].
  change (Json.get (Json.Object [("command", Json.Str command)]) "timeout_secs"
            ≫= Json.as_u64) with (@None Z).
  assert (Hex : existsb (fun a => String.prefix a command) ALLOWED_COMMANDS = true).
  { apply existsb_exists. exists command; split; [exact Hin | apply prefix_refl]. }
  rewrite Hex, Hs. cbn [negb]. unfold spawn.
  destruct (os_output os _); reflexivity.
Qed.

(** X19. [run_tests] never runs anything outside the allow-list and never
    fails on it: either no marker file is found, nothing is started and
    the answer is [skipped]; or exactly one process is started in the
    repository directory, one of [pnpm test], [yarn test], [npm test],
    [cargo test], [pytest], with the 120 s default, and its outcome is the
    answer.  A [package.json] decides for a JavaScript runner before
    [Cargo.toml] and the Python markers are looked at. *)
Theorem run_tests_stays_on_allowlist (fs : Fs) (has_pytest : bool)
    (repo_path : string) (os : Os) :
  let out := run_tests fs has_pytest repo_path os in
  (out = (Ok skipped, os) /\ marker fs repo_path "package.json" = false)
  \/ exists program rest,
       In (program, rest) TEST_COMMANDS
       /\ In (program :: rest) allowed_argv
       /\ (marker fs repo_path "package.json" = true ->
           In program ["pnpm"; "yarn"; "npm"])
       /\ spawned out.2
          = spawned os ++ [mkSpawn program rest repo_path true 120]
       /\ out.1 = match os_output os
                          (mkSpawn program rest repo_path true 120) with
                  | Ok o => Ok (output_json o)
                  | Err e => Err (Execution e)
                  end.
Proof.
  intros out. subst out. unfold run_tests.
  assert (Hgo : forall command program rest,
            In command ALLOWED_COMMANDS ->
            split_whitespace command = program :: rest ->
            In (program, rest) TEST_COMMANDS ->
            (marker fs repo_path "package.json" = true ->
             In program ["pnpm"; "yarn"; "npm"]) ->
            exists program rest,
              In (program, rest) TEST_COMMANDS
              /\ In (program :: rest) allowed_argv
              /\ (marker fs repo_path "package.json" = true ->
                  In program ["pnpm"; "yarn"; "npm"])
              /\ spawned (run_command repo_path (command_args command) os).2
                 = spawned os ++ [mkSpawn program rest repo_path true 120]
              /\ (run_command repo_path (command_args command) os).1
                 = match os_output os
                           (mkSpawn program rest repo_path true 120) with
                   | Ok o => Ok (output_json o)
                   | Err e => Err (Execution e)
                   end).
  { intros command program rest Hin Hs Ht Hjs.
    exists program, rest. rewrite (run_command_fixed _ _ _ _ _ Hin Hs).
    split; [exact Ht|]. split; [rewrite <- Hs; apply in_map, Hin|].
    split; [exact Hjs|]. split; reflexivity. }
  destruct (marker fs repo_path "package.json") eqn:Hjs.
  - right.
    destruct (marker fs repo_path "pnpm-lock.yaml");
      [|destruct (marker fs repo_path "yarn.lock")];
      eapply Hgo; try reflexivity; cbn; tauto.
  - destruct (marker fs repo_path "Cargo.toml");
      [right; eapply Hgo; try reflexivity; cbn; (tauto || discriminate)|].
    destruct (_ && _);
      [right; eapply Hgo; try reflexivity; cbn; (tauto || discriminate)|].
    left. split; reflexivity.
Qed.

End GitAndTests.

(** ** Saving and loading settings *)

Section SettingsRoundTrip.

Import SettingsCommands.

(** Undoing a statement gives back the rows it found. *)
Lemma undo_upsert (updated_at : string) (tx : Transaction)
    (pair : SettingInput) :
  undo (tx_rows (upsert updated_at tx pair)) (key pair, tx_rows tx !! key pair)
  = tx_rows tx.
Proof.
  unfold undo, upsert. cbn [tx_rows fst snd].
  destruct (tx_rows tx !! key pair) as [row|] eqn:Hk.
  - rewrite insert_insert_eq. apply insert_id, Hk.
  - apply delete_insert_id, Hk.
Qed.

(** So a rollback after one more statement ends where a rollback before
    it ends. *)
Lemma rollback_upsert (updated_at : string) (tx : Transaction)
    (pair : SettingInput) :
  rollback (upsert updated_at tx pair) = rollback tx.
Proof.
  unfold rollback at 1. cbn [upsert tx_journal foldl].
  change (<[key pair:=Settings.mkRow (value pair) updated_at]> (tx_rows tx))
    with (tx_rows (upsert updated_at tx pair)).
  rewrite undo_upsert. reflexivity.
Qed.

Lemma execute_pairs_facts (db : Sqlite) (updated_at : string)
    (pairs : list SettingInput) :
  forall n tx r tx',
    execute_pairs db updated_at n pairs tx = (r, tx') ->
    rollback tx' = rollback tx
    /\ (r = Ok tt ->
        forall k,
          tx_rows tx' !! k =
            match last_value k pairs with
            | Some v => Some (Settings.mkRow v updated_at)
            | None => tx_rows tx !! k
            end).
Proof.
  induction pairs as [|item rest IH]; intros n tx r tx' H; simpl in H.
  - injection H as <- <-. split; [reflexivity|]. intros _ k. reflexivity.
  - destruct (execute_error db n).
    + injection H as <- <-. split; [reflexivity | discriminate].
    + apply IH in H as [Hroll Hrows]. split.
      * rewrite Hroll. apply rollback_upsert.
      * intros Hr k. rewrite (Hrows Hr k). cbn [last_value].
        destruct (last_value k rest); [reflexivity|].
        unfold upsert. cbn [tx_rows].
        destruct (String.eqb (key item) k) eqn:E.
        -- apply String.eqb_eq in E. rewrite <- E. apply lookup_insert_eq.
        -- apply lookup_insert_ne. intros Heq. rewrite Heq, String.eqb_refl in E.
           discriminate.
Qed.

Lemma set_settings_cases (db : Sqlite) (updated_at : string)
    (pairs : list SettingInput) (tbl : gmap string Settings.Row) :
  (exists e, set_settings db updated_at pairs tbl = (Err e, tbl))
  \/ exists tbl',
       set_settings db updated_at pairs tbl = (Ok tt, tbl')
       /\ forall k,
            tbl' !! k =
              match last_value k pairs with
              | Some v => Some (Settings.mkRow v updated_at)
              | None => tbl !! k
              end.
Proof.
  unfold set_settings.
  destruct (connect_error db); [left; eauto|].
  destruct (transaction_error db); [left; eauto|].
  destruct (execute_pairs db updated_at 0 pairs (transaction tbl))
    as [[[]|e] tx] eqn:H;
    apply execute_pairs_facts in H as [Hroll Hrows];
    change (rollback (transaction tbl)) with tbl in Hroll.
  - destruct (commit_error db); [left; rewrite Hroll; eauto|].
    right. exists (commit tx). split; [reflexivity|].
    exact (Hrows eq_refl).
  - left. rewrite Hroll. eauto.
Qed.

(** X20. [set_settings] is all or nothing.  When it fails, be it at the
    connection, at the start of the transaction, at one of the statements
    or at the commit, the rollback of the dropped transaction has undone
    every statement made so far and the settings table is as it was.  When
    it succeeds, every key among the pairs holds the value of its last pair,
    stamped with the one time of the call, and every other key keeps its
    row. *)
Theorem set_settings_all_or_nothing (db : Sqlite) (updated_at : string)
    (pairs : list SettingInput) (tbl : gmap string Settings.Row) :
  let out := set_settings db updated_at pairs tbl in
  match out.1 with
  | Err _ => out.2 = tbl
  | Ok _ =>
      forall k,
        out.2 !! k =
          match last_value k pairs with
          | Some v => Some (Settings.mkRow v updated_at)
          | None => tbl !! k
          end
  end.
Proof.
  intros out; subst out.
  destruct (set_settings_cases db updated_at pairs tbl)
    as [[e ->] | (tbl' & -> & H)]; [reflexivity | exact H].
Qed.

(** A save of two pairs whose second statement is refused: the first
    statement was made in the transaction, and the table is as before. *)
Example set_settings_rolls_back :
  let db :=
    mkSqlite None None
      (fun n => if (n =? 1)%nat then Some "database or disk is full" else None)
      None in
  let tbl : gmap string Settings.Row :=
    {["model" := Settings.mkRow "old" "2025-01-01"]} in
  let pairs :=
    [mkSettingInput "model" "new"; mkSettingInput "temperature" "0.3"] in
  let tx := (execute_pairs db "2025-01-02" 0 pairs (transaction tbl)).2 in
  tx_rows tx !! "model" = Some (Settings.mkRow "new" "2025-01-02")
  /\ tx_journal tx = [("model", Some (Settings.mkRow "old" "2025-01-01"))]
  /\ set_settings db "2025-01-02" pairs tbl
     = (Err "database or disk is full", tbl).
Proof. vm_compute. repeat split. Qed.

Lemma saved_lookup (db : Sqlite) (updated_at : string) (s : SettingsMap)
    (tbl tbl' : gmap string Settings.Row) :
  set_settings db updated_at (handleSave s) tbl = (Ok tt, tbl') ->
  tbl' !! "provider_name" = Some (Settings.mkRow (provider_name s) updated_at)
  /\ tbl' !! "base_url" = Some (Settings.mkRow (base_url s) updated_at)
  /\ tbl' !! "model" = Some (Settings.mkRow (model s) updated_at)
  /\ tbl' !! "api_key" = Some (Settings.mkRow (api_key s) updated_at)
  /\ tbl' !! "temperature" = Some (Settings.mkRow (temperature s) updated_at)
  /\ tbl' !! "max_tokens" = Some (Settings.mkRow (max_tokens s) updated_at).
Proof.
  intros H.
  destruct (set_settings_cases db updated_at (handleSave s) tbl)
    as [[e He] | (tbl2 & Heq & Hk)]; rewrite H in *; [discriminate|].
  injection Heq as <-.
  repeat split; rewrite Hk; reflexivity.
Qed.

(** X21. What the settings page saves is what the client is configured
    with, also after migration 002 has run again: provider, base URL and
    model are the saved strings as they are, empty ones included, and the
    numbers are the saved strings parsed, with the code's own fallbacks when
    the parse fails (0.2 and 4000 in plan mode, 0.7 and 4096 in
    [get_llm_config]); whatever [f64] the temperature parses to is taken,
    [NaN] and the infinities included.  The saved [api_key] row is kept in
    the table. *)
Theorem saved_settings_configure_the_client (db : Sqlite) (sd : Serde)
    (now now' : string) (s : SettingsMap) (tbl : gmap string Settings.Row) :
  let out := set_settings db now (handleSave s) tbl in
  let tbl' := Settings.migration_002 now' out.2 in
  let plan_config :=
    Settings.build_llm_config sd (Settings.get_all_settings tbl') in
  let test_config := Settings.get_llm_config sd tbl' in
  out.1 = Ok tt ->
  (Settings.provider_name plan_config = provider_name s
   /\ Settings.base_url plan_config = base_url s
   /\ Settings.model plan_config = model s
   /\ Settings.temperature plan_config
      = default 0x1.999999999999ap-3%float (parse_f64 sd (temperature s))
   /\ Settings.max_tokens plan_config
      = default 4000%Z (parse_i64 (max_tokens s)))
  /\ (Settings.provider_name test_config = provider_name s
      /\ Settings.base_url test_config = base_url s
      /\ Settings.model test_config = model s
      /\ Settings.temperature test_config
         = default 0x1.6666666666666p-1%float (parse_f64 sd (temperature s))
      /\ Settings.max_tokens test_config
         = default 4096%Z (parse_i64 (max_tokens s)))
  /\ tbl' !! "api_key" = Some (Settings.mkRow (api_key s) now).
Proof.
  intros out tbl' plan_config test_config Hok.
  destruct out as [res tbl1] eqn:Hout. cbn [fst snd] in *. subst res.
  apply saved_lookup in Hout as (H1 & H2 & H3 & H4 & H5 & H6).
  assert (Hget : forall k v,
            tbl1 !! k = Some (Settings.mkRow v now) ->
            Settings.get_all_settings tbl' !! k = Some v).
  { intros k v Hk. unfold Settings.get_all_settings, tbl'.
    rewrite lookup_fmap, (migration_002_keeps now' tbl1 k _ Hk). reflexivity. }
  subst plan_config test_config.
  unfold Settings.get_llm_config, Settings.build_llm_config,
    Settings.from_settings.
  cbn [Settings.provider_name Settings.base_url Settings.model
       Settings.temperature Settings.max_tokens].
  rewrite (Hget _ _ H1), (Hget _ _ H2), (Hget _ _ H3), (Hget _ _ H5),
    (Hget _ _ H6).
  split; [|split].
  - repeat split; reflexivity.
  - repeat split; reflexivity.
  - unfold tbl'. apply migration_002_keeps, H4.
Qed.

Lemma saved_settings_configure_the_client_witness :
  (set_settings healthy "2025-01-02" (handleSave a_form) ∅).1 = Ok tt
  /\ Settings.model
       (Settings.build_llm_config Demo.strict_serde
          (Settings.get_all_settings
             (Settings.migration_002 "2025-01-03"
                (set_settings healthy "2025-01-02" (handleSave a_form) ∅).2)))
     = "z-ai/glm-4.7-flash"
  /\ Settings.max_tokens
       (Settings.get_llm_config Demo.strict_serde
          (Settings.migration_002 "2025-01-03"
             (set_settings healthy "2025-01-02" (handleSave a_form) ∅).2))
     = 2000%Z.
Proof.
  split; [reflexivity|].
  destruct (saved_settings_configure_the_client healthy Demo.strict_serde
              "2025-01-02" "2025-01-03" a_form ∅ eq_refl)
    as ((_ & _ & Hm & _) & (_ & _ & _ & _ & Ht) & _).
  split; [exact Hm | exact Ht].
Defined.

Lemma last_value_handleSave (s : SettingsMap) (k : string) :
  last_value k (handleSave s) =
    if String.eqb k "provider_name" then Some (provider_name s)
    else if String.eqb k "base_url" then Some (base_url s)
    else if String.eqb k "model" then Some (model s)
    else if String.eqb k "api_key" then Some (api_key s)
    else if String.eqb k "temperature" then Some (temperature s)
    else if String.eqb k "max_tokens" then Some (max_tokens s)
    else None.
Proof.
  unfold handleSave. cbn [last_value key value].
  rewrite !(String.eqb_sym _ k).
  repeat
    match goal with
    | |- context [String.eqb k ?c] =>
        let E := fresh "E" in
        destruct (String.eqb k c) eqn:E;
        [apply String.eqb_eq in E; subst k; reflexivity | clear E]
    end.
  reflexivity.
Qed.

Lemma loadSettings_rows (data data' : list SettingInput) :
  (forall k, last_value k data = last_value k data') ->
  loadSettings data = loadSettings data'.
Proof.
  intros H. unfold loadSettings, or_default. rewrite !H. reflexivity.
Qed.

Lemma loadSettings_handleSave (s : SettingsMap) :
  loadSettings (handleSave s) = with_defaults s.
Proof.
  unfold loadSettings, or_default, with_defaults, or_else.
  rewrite !last_value_handleSave. reflexivity.
Qed.

(** X22. Save, then load, on the settings page: after a save that
    succeeded, loading from the rows of the table, in whatever order they
    come, shows every field as it was typed, except that a field saved
    empty is shown with its built-in default (the table holds the empty
    string). *)
Theorem settings_page_round_trip (db : Sqlite) (now : string) (s : SettingsMap)
    (tbl : gmap string Settings.Row) (data : list SettingInput) :
  (set_settings db now (handleSave s) tbl).1 = Ok tt ->
  rows_of (set_settings db now (handleSave s) tbl).2 data ->
  loadSettings data = with_defaults s
  /\ loadSettings (handleSave s) = with_defaults s.
Proof.
  intros Hok Hrows. split; [|apply loadSettings_handleSave].
  rewrite <- loadSettings_handleSave.
  destruct (set_settings db now (handleSave s) tbl) as [res tbl1] eqn:Hout.
  cbn [fst snd] in *. subst res.
  apply saved_lookup in Hout as (H1 & H2 & H3 & H4 & H5 & H6).
  unfold loadSettings, or_default.
  rewrite !Hrows, H1, H2, H3, H4, H5, H6, !last_value_handleSave.
  reflexivity.
Qed.

Lemma rows_of_saved (db : Sqlite) (now : string) (pairs : list SettingInput)
    (tbl' : gmap string Settings.Row) :
  set_settings db now pairs ∅ = (Ok tt, tbl') -> rows_of tbl' pairs.
Proof.
  intros H k.
  destruct (set_settings_cases db now pairs ∅)
    as [[e He] | (tbl2 & Heq & Hk)]; rewrite H in *; [discriminate|].
  injection Heq as <-. rewrite Hk, lookup_empty.
  destruct (last_value k pairs); reflexivity.
Qed.

Lemma settings_page_round_trip_witness :
  (set_settings healthy "2025-01-02" (handleSave a_form) ∅).1 = Ok tt
  /\ loadSettings (handleSave a_form) = with_defaults a_form
  /\ temperature (with_defaults a_form) = "0.2".
Proof.
  split; [reflexivity|].
  destruct (settings_page_round_trip healthy "2025-01-02" a_form ∅
              (handleSave a_form) eq_refl
              (rows_of_saved healthy "2025-01-02" (handleSave a_form) _ eq_refl))
    as [H _].
  split; [exact H | reflexivity].
Defined.

End SettingsRoundTrip.

(** ** Schemas and dispatcher *)

Section DispatcherFacts.

Import Dispatcher.

(** X23. The tools offered to the model and the tools the dispatcher
    knows are the same seven, in the same order: a call under the name of
    the i-th schema goes to the i-th tool function with the arguments,
    repository path and run id unchanged, and any other name is answered
    with [Unknown tool: name] without a tool being run.  Every schema
    declares [project_id], and requires it. *)
Theorem schemas_match_dispatcher (h : Handlers) (name : string)
    (args : Json.Value) (repo_path run_id : string) :
  dispatch_repo_tool h name args repo_path run_id
    = match handler_for name
              (zip (List.map schema_name repo_tool_schemas)
                   (handlers_in_order h)) with
      | Some f => f repo_path args run_id
      | None => Err ("Unknown tool: " ++ name)%string
      end
  /\ NoDup (List.map schema_name repo_tool_schemas)
  /\ Forall (fun s => In (Json.Str "project_id") (schema_required s)
                      /\ In "project_id" (schema_properties s)
                      /\ Json.get s "type" = Some (Json.Str "function"))
       repo_tool_schemas.
Proof.
  split; [|split].
  - unfold dispatch_repo_tool.
    change (zip (List.map schema_name repo_tool_schemas) (handlers_in_order h))
      with [ (Some "list_files", list_files h); (Some "read_file", read_file h);
             (Some "grep", grep h); (Some "git_status", git_status h);
             (Some "git_diff", git_diff h);
             (Some "git_log_short", git_log_short h);
             (Some "run_command", run_command h) ].
    cbn [handler_for].
    repeat
      match goal with
      | |- context [String.eqb name ?c] =>
          let E := fresh "E" in
          destruct (String.eqb name c) eqn:E;
          [ apply String.eqb_eq in E; subst name; reflexivity
          | apply String.eqb_neq in E;
            rewrite (bool_decide_eq_false_2 (Some c = Some name))
              by (intros [= Heq]; congruence) ]
      end.
    reflexivity.
  - apply (bool_decide_unpack _). vm_compute. exact I.
  - repeat constructor.
Qed.

End DispatcherFacts.

(** ** The connection test and the simple chat *)

Section CommandsFacts.

Import Plan PlanCommands Commands.

Variable env : Env.
Variable http : Http.
Variable permanent : Llm.Classifier.

(** How [chat] ends: at once without a key, with a panic when the key is
    no header value, and with a result otherwise. *)
Lemma chat_ending (self : Llm.LlmClient) (msgs : list Llm.ChatMessage) :
  match Llm.chat http permanent self msgs with
  | Returned r =>
      (Llm.api_key self = "" /\ r = Err Llm.MissingApiKey)
      \/ (Llm.api_key self <> "" /\ LlmSpec.bearer_ok self = true)
  | Panicked => Llm.api_key self <> "" /\ LlmSpec.bearer_ok self = false
  | Unfinished => False
  end.
Proof.
  unfold Llm.chat. destruct (String.eqb_spec (Llm.api_key self) "") as [Hk|Hk].
  { left. auto. }
  cbv zeta. destruct (LlmSpec.bearer_ok self) eqn:Hb.
  - match goal with
    | |- context [Llm.send_with_retry http permanent self Llm.retry_fuel ?req] =>
        destruct (send_with_retry_total http permanent self req Hb) as [out ->]
    end.
    destruct (Backoff.result out) as [resp|e]; [|auto].
    destruct (Llm.choices resp); auto.
  - rewrite (send_with_retry_panics http permanent self _ Hb). auto.
Qed.

Lemma add_message_cases (run_id role content : string) (w : World) :
  (exists e, db_error env (clock w) = Some e
             /\ add_message env run_id role content w = (Err e, tick w))
  \/ (db_error env (clock w) = None
      /\ add_message env run_id role content w
         = (Ok tt, with_message env w run_id role content)).
Proof.
  unfold add_message. destruct (db_error env (clock w)); [left; eauto | right; auto].
Qed.

(** X24. [llm_simple_chat] touches nothing but the message log, and the
    user's message is written before the provider is asked.  When the
    settings cannot be read or the first write is refused, the call returns
    that error and has appended nothing.  Otherwise the user row is in the
    log, and the call ends as [chat] does: the provider's error is returned
    as its text; an answer is logged as the assistant row and returned,
    unless that write is refused, which is returned instead; and the panic
    of [chat] on a key that is no header value ends the call with the user
    row already written.  Without a key the missing-key text is returned.
    An assistant row is never written without a success. *)
Theorem llm_simple_chat_log (run_id user_message : string) (db : Db) :
  let request :=
    Llm.chat http permanent
      (Llm.new (Settings.get_llm_config (serde env) (settings (store db)))
         (get_api_key env))
      [Llm.mkChatMessage "user" user_message] in
  let out := llm_simple_chat env http permanent run_id user_message db in
  exists rows,
    projects out.2 = projects db
    /\ tasks out.2 = tasks db
    /\ runs (store out.2) = runs (store db)
    /\ settings (store out.2) = settings (store db)
    /\ artifacts (store out.2) = artifacts (store db)
    /\ messages (store out.2) = messages (store db) ++ rows
    /\ match out.1 with
       | Unfinished => False
       | Panicked =>
           said rows = [(run_id, "user", user_message)]
           /\ request = Panicked
       | Returned (Ok response) =>
           said rows = [ (run_id, "user", user_message);
                         (run_id, "assistant", response) ]
           /\ request = Returned (Ok response)
       | Returned (Err e) =>
           (said rows = []
            /\ (read_error env (store db) = Some e
                \/ db_error env (clock (store db)) = Some e))
           \/ (said rows = [(run_id, "user", user_message)]
               /\ ((exists e', request = Returned (Err e')
                               /\ e = Llm.LlmError_to_string e')
                   \/ (exists response, request = Returned (Ok response)
                         /\ db_error env (S (clock (store db))) = Some e)))
       end
    /\ (forall e, read_error env (store db) = Some e ->
        out = (Returned (Err e), db))
    /\ (read_error env (store db) = None ->
        db_error env (clock (store db)) = None ->
        (get_api_key env = "" ->
         out.1 = Returned (Err "Missing API key. Set SPECTRAIL_API_KEY environment variable or configure keychain storage."))
        /\ (get_api_key env <> "" ->
            (out.1 = Panicked <->
             Llm.string_forallb Llm.is_value_char
               ("Bearer " ++ get_api_key env)%string = false))).
Proof.
  intros request out. subst out. unfold llm_simple_chat, get_llm_config.
  destruct (read_error env (store db)) as [e|] eqn:Hread.
  { exists []. cbn [fst snd]. rewrite app_nil_r.
    repeat (split; [reflexivity|]).
    split; [left; split; [reflexivity | left; reflexivity]|].
    split; [intros e' He'; injection He' as ->; reflexivity|].
    intros H; discriminate. }
  cbv zeta.
  destruct (add_message_cases run_id "user" user_message (store db))
    as [(e & Hdb & ->) | (Hdb & ->)].
  { exists []. cbn [fst snd with_store projects tasks store tick runs settings
                    artifacts messages said List.map].
    rewrite app_nil_r. repeat (split; [reflexivity|]).
    split; [left; split; [reflexivity | right; exact Hdb]|].
    split; [intros e' He'; discriminate|].
    intros _ H. congruence. }
  fold request.
  pose proof (chat_ending
                (Llm.new (Settings.get_llm_config (serde env)
                            (settings (store db))) (get_api_key env))
                [Llm.mkChatMessage "user" user_message]) as Hend.
  fold request in Hend.
  unfold LlmSpec.bearer_ok, Llm.new in Hend. cbn [Llm.api_key] in Hend.
  destruct request as [[response|e]| |] eqn:Hreq; [| | |contradiction].
  - destruct (add_message_cases run_id "assistant" response
                (with_message env (store db) run_id "user" user_message))
      as [(e & Hdb2 & ->) | (Hdb2 & ->)].
    + eexists [_].
      cbn [fst snd with_store projects tasks store tick runs settings artifacts
           messages with_message said List.map m_run_id m_role m_content].
      repeat (split; [reflexivity|]).
      split; [right; split; [reflexivity | right; eauto]|].
      split; [intros e' He'; discriminate|].
      intros _ _. destruct Hend as [[Hk Hr] | [Hk Hb]]; [discriminate|].
      split; [intros Hk'; contradiction|].
      intros _. split; [discriminate | congruence].
    + eexists [_; _].
      cbn [fst snd with_store projects tasks store tick runs settings artifacts
           messages with_message said List.map m_run_id m_role m_content].
      rewrite <- app_assoc. cbn [app].
      repeat (split; [reflexivity|]).
      split; [split; reflexivity|].
      split; [intros e' He'; discriminate|].
      intros _ _. destruct Hend as [[Hk Hr] | [Hk Hb]]; [discriminate|].
      split; [intros Hk'; contradiction|].
      intros _. split; [discriminate | congruence].
  - eexists [_].
    cbn [fst snd with_store projects tasks store tick runs settings artifacts
         messages with_message said List.map m_run_id m_role m_content].
    repeat (split; [reflexivity|]).
    split; [right; split; [reflexivity | left; eauto]|].
    split; [intros e' He'; discriminate|].
    intros _ _. destruct Hend as [[Hk Hr] | [Hk Hb]].
    + injection Hr as ->. split; [reflexivity | intros Hk'; contradiction].
    + split; [intros Hk'; contradiction|].
      intros _. split; [discriminate | congruence].
  - eexists [_].
    cbn [fst snd with_store projects tasks store tick runs settings artifacts
         messages with_message said List.map m_run_id m_role m_content].
    repeat (split; [reflexivity|]).
    split; [split; reflexivity|].
    split; [intros e' He'; discriminate|].
    intros _ _. destruct Hend as [Hk Hb].
    split; [intros Hk'; contradiction|].
    intros _. split; [intros _; exact Hb | reflexivity].
Qed.

Lemma insert_or_ignore_keeps {A : Type} (k : string) (row : A)
    (tbl : gmap string A) (k' : string) (r : A) :
  tbl !! k' = Some r -> insert_or_ignore k row tbl !! k' = Some r.
Proof.
  intros H. unfold insert_or_ignore.
  destruct (tbl !! k) eqn:Hk; [exact H|].
  rewrite lookup_insert_ne; [exact H|]. intros ->. congruence.
Qed.

Lemma insert_or_ignore_present {A : Type} (k : string) (row : A)
    (tbl : gmap string A) :
  insert_or_ignore k row tbl !! k <> None.
Proof.
  unfold insert_or_ignore. destruct (tbl !! k) eqn:Hk.
  - rewrite Hk. discriminate.
  - rewrite lookup_insert_eq. discriminate.
Qed.

Lemma insert_or_ignore_other {A : Type} (k : string) (row : A)
    (tbl : gmap string A) (k' : string) :
  k' <> k -> insert_or_ignore k row tbl !! k' = tbl !! k'.
Proof.
  intros H. unfold insert_or_ignore. destruct (tbl !! k); [reflexivity|].
  apply lookup_insert_ne. congruence.
Qed.

Lemma insert_or_ignore_again {A : Type} (k : string) (row row' : A)
    (tbl : gmap string A) :
  insert_or_ignore k row' (insert_or_ignore k row tbl)
    = insert_or_ignore k row tbl.
Proof.
  unfold insert_or_ignore at 1.
  destruct (insert_or_ignore k row tbl !! k) eqn:H; [reflexivity|].
  exfalso. exact (insert_or_ignore_present k row tbl H).
Qed.

(** X25. [ensure_system_project_task] only fills gaps and can be
    repeated: when it succeeds it returns the two system ids, both rows
    exist, every row that was there before is unchanged (a row already
    under a system id included), rows under other ids are neither added nor
    removed, and a further successful call changes neither table. *)
Theorem ensure_system_project_task_idempotent (db db1 : Db)
    (ids : string * string) :
  ensure_system_project_task env db = (Ok ids, db1) ->
  ids = (SYSTEM_PROJECT_ID, SYSTEM_TASK_ID)
  /\ projects db1 !! SYSTEM_PROJECT_ID <> None
  /\ tasks db1 !! SYSTEM_TASK_ID <> None
  /\ (forall k r, projects db !! k = Some r -> projects db1 !! k = Some r)
  /\ (forall k r, tasks db !! k = Some r -> tasks db1 !! k = Some r)
  /\ (forall k, k <> SYSTEM_PROJECT_ID -> projects db1 !! k = projects db !! k)
  /\ (forall k, k <> SYSTEM_TASK_ID -> tasks db1 !! k = tasks db !! k)
  /\ forall ids' db2,
       ensure_system_project_task env db1 = (Ok ids', db2) ->
       projects db2 = projects db1 /\ tasks db2 = tasks db1.
Proof.
  unfold ensure_system_project_task at 1. cbv zeta.
  destruct (db_error env (clock (store db))); [discriminate|].
  destruct (db_error env (S (clock (store db)))); [discriminate|].
  intros H. injection H as <- <-. cbn [projects tasks].
  split; [reflexivity|].
  split; [apply insert_or_ignore_present|].
  split; [apply insert_or_ignore_present|].
  split; [intros k r; apply insert_or_ignore_keeps|].
  split; [intros k r; apply insert_or_ignore_keeps|].
  split; [intros k; apply insert_or_ignore_other|].
  split; [intros k; apply insert_or_ignore_other|].
  intros ids' db2. unfold ensure_system_project_task. cbv zeta.
  cbn [projects tasks store].
  destruct (db_error env _); [discriminate|].
  destruct (db_error env _); [discriminate|].
  intros H. injection H as _ <-. cbn [projects tasks].
  split; apply insert_or_ignore_again.
Qed.

Lemma ensure_system_project_task_ok (db : Db) :
  (forall n, db_error env n = None) ->
  exists projects' tasks',
    ensure_system_project_task env db
      = (Ok (SYSTEM_PROJECT_ID, SYSTEM_TASK_ID),
         mkDb projects' tasks' (tick (tick (store db)))).
Proof.
  intros Hdb. unfold ensure_system_project_task. cbv zeta.
  rewrite !Hdb. eauto.
Qed.

(** X26. The connection test.  When the settings cannot be read, the call
    returns that error and the database is as it was.  With a database that
    accepts everything, the call has added one run of type [test] for the
    system task, left open, and logged the fixed prompt under it as a user
    row, and it ends as [test_connection] does: an answer is logged as the
    assistant row and returned; a provider failure is returned as its error
    text; a key that is no header value ends the call in the panic of
    [chat], the run and the user row being in the log all the same.  Without
    a key the result is the missing-key text. *)
Theorem llm_test_connection_log (db : Db) :
  let request :=
    Llm.test_connection http permanent
      (Llm.new (Settings.get_llm_config (serde env) (settings (store db)))
         (get_api_key env)) in
  let out := llm_test_connection env http permanent db in
  (forall e, read_error env (store db) = Some e ->
   out = (Returned (Err e), db))
  /\ ((forall n, db_error env n = None) ->
      exists run rows,
        runs (store out.2) = runs (store db) ++ [run]
        /\ run_type run = "test"
        /\ r_task_id run = "system-task-llm-test"
        /\ ended_at run = None
        /\ messages (store out.2) = messages (store db) ++ rows
        /\ said rows
           = (r_id run, "user", "Say 'OK' and nothing else.")
             :: match out.1 with
                | Returned (Ok response) => [(r_id run, "assistant", response)]
                | _ => []
                end
        /\ out.1 = match request with
                   | Returned r => Returned (map_err Llm.LlmError_to_string r)
                   | Panicked => Panicked
                   | Unfinished => Unfinished
                   end
        /\ out.1 <> Unfinished
        /\ (get_api_key env = "" ->
            out.1 = Returned (Err "Missing API key. Set SPECTRAIL_API_KEY environment variable or configure keychain storage."))
        /\ (get_api_key env <> "" ->
            (out.1 = Panicked <->
             Llm.string_forallb Llm.is_value_char
               ("Bearer " ++ get_api_key env)%string = false))).
Proof.
  intros request out. subst out. unfold llm_test_connection, get_llm_config.
  split.
  { intros e He. rewrite He. reflexivity. }
  intros Hdb. rewrite (read_error_none env _ (Hdb _)). cbv zeta.
  destruct (ensure_system_project_task_ok db Hdb) as (ps & ts & ->).
  cbn [store].
  set (w1 := tick (tick (store db))).
  unfold create_run. rewrite Hdb.
  set (run := mkRun _ _ _ _ _ _ _ _).
  set (w2 := mkWorld _ (runs w1 ++ [run]) _ _ _ _).
  rewrite (add_message_ok env (r_id run) "user" _ w2 (Hdb _)).
  fold request.
  pose proof (chat_ending
                (Llm.new (Settings.get_llm_config (serde env)
                            (settings (store db))) (get_api_key env))
                [Llm.mkChatMessage "user" "Say 'OK' and nothing else."]) as Hend.
  change (Llm.chat http permanent _ _) with request in Hend.
  unfold LlmSpec.bearer_ok, Llm.new in Hend. cbn [Llm.api_key] in Hend.
  destruct request as [[response|e]| |] eqn:Hreq; [| | |contradiction].
  - rewrite (add_message_ok env (r_id run) "assistant" _ _ (Hdb _)).
    exists run. eexists [_; _].
    cbn [fst snd with_store store runs messages with_message w2 said List.map
         m_run_id m_role m_content map_err].
    rewrite <- app_assoc. cbn [app].
    repeat (split; [reflexivity|]).
    split; [discriminate|].
    destruct Hend as [[Hk Hr] | [Hk Hb]]; [discriminate|].
    split; [intros Hk'; contradiction|].
    intros _. split; [discriminate | congruence].
  - exists run. eexists [_].
    cbn [fst snd with_store store runs messages with_message w2 said List.map
         m_run_id m_role m_content map_err].
    repeat (split; [reflexivity|]).
    split; [discriminate|].
    destruct Hend as [[Hk Hr] | [Hk Hb]].
    + injection Hr as ->. split; [reflexivity | intros Hk'; contradiction].
    + split; [intros Hk'; contradiction|].
      intros _. split; [discriminate | congruence].
  - exists run. eexists [_].
    cbn [fst snd with_store store runs messages with_message w2 said List.map
         m_run_id m_role m_content map_err].
    repeat (split; [reflexivity|]).
    split; [discriminate|].
    destruct Hend as [Hk Hb].
    split; [intros Hk'; contradiction|].
    intros _. split; [intros _; exact Hb | reflexivity].
Qed.

End CommandsFacts.

Section CommandsWitnesses.

Import Plan PlanCommands Commands.

Lemma ensure_system_project_task_idempotent_witness :
  (ensure_system_project_task keyless_env fresh).1
    = Ok (SYSTEM_PROJECT_ID, SYSTEM_TASK_ID)
  /\ projects (ensure_system_project_task keyless_env fresh).2
       !! SYSTEM_PROJECT_ID <> None.
Proof.
  split; [reflexivity|].
  destruct (ensure_system_project_task keyless_env fresh) as [r db1] eqn:E.
  assert (Hr : r = Ok (SYSTEM_PROJECT_ID, SYSTEM_TASK_ID))
    by (change r with (r, db1).1; rewrite <- E; reflexivity).
  subst r.
  destruct (ensure_system_project_task_idempotent keyless_env fresh db1 _ E)
    as (_ & H & _).
  exact H.
Defined.

Lemma llm_test_connection_log_witness :
  (forall n, db_error keyless_env n = None)
  /\ exists run rows,
       (llm_test_connection keyless_env says_ok DemoNet.all_transient fresh).1
       = Returned (Err "Missing API key. Set SPECTRAIL_API_KEY environment variable or configure keychain storage.")
       /\ runs (store (llm_test_connection keyless_env says_ok
                         DemoNet.all_transient fresh).2)
          = runs (store fresh) ++ [run]
       /\ said rows = [(r_id run, "user", "Say 'OK' and nothing else.")].
Proof.
  split; [intros n; reflexivity|].
  destruct (llm_test_connection_log keyless_env says_ok DemoNet.all_transient
              fresh) as [_ H].
  destruct (H (fun n => eq_refl))
    as (run & rows & H1 & _ & _ & _ & _ & H6 & _ & _ & H9 & _).
  specialize (H9 eq_refl).
  exists run, rows. split; [exact H9|]. split; [exact H1|].
  rewrite H9 in H6. exact H6.
Defined.

(** The endings of the simple chat on a fresh database: an answer, two
    rows; a key with a line feed, a panic after the user row; a database
    that cannot be opened or written, the error and no row. *)
Example llm_simple_chat_runs :
  let answered :=
    llm_simple_chat keyed_env says_ok DemoNet.all_transient "run-1" "hi" fresh in
  let panicked :=
    llm_simple_chat newline_key_env says_ok DemoNet.all_transient "run-1" "hi"
      fresh in
  let refused :=
    llm_simple_chat PlanCommands.locked_env says_ok DemoNet.all_transient
      "run-1" "hi" fresh in
  let full :=
    llm_simple_chat PlanCommands.full_env says_ok DemoNet.all_transient
      "run-1" "hi" fresh in
  answered.1 = Returned (Ok "OK")
  /\ said (messages (store answered.2))
     = [("run-1", "user", "hi"); ("run-1", "assistant", "OK")]
  /\ panicked.1 = Panicked
  /\ said (messages (store panicked.2)) = [("run-1", "user", "hi")]
  /\ refused = (Returned (Err "database is locked"), fresh)
  /\ full.1 = Returned (Err "database or disk is full")
  /\ messages (store full.2) = [].
Proof. vm_compute. repeat split. Qed.

End CommandsWitnesses.

(** ** The pages *)

Section UiFacts.

Import Ui.

Lemma drop_while_head (p : N -> bool) (s : JsString) :
  match drop_while p s with
  | [] => True
  | c :: _ => p c = false
  end.
Proof.
  induction s as [|c s IH]; simpl; [exact I|].
  destruct (p c) eqn:E; [exact IH | exact E].
Qed.

Lemma split_path_no_separator (s : JsString) :
  forall cur,
    Forall (fun c => is_separator c = false) cur ->
    Forall (Forall (fun c => is_separator c = false)) (split_path s cur).
Proof.
  induction s as [|c s IH]; intros cur Hcur; simpl.
  - constructor; [exact Hcur | constructor].
  - destruct (is_separator c) eqn:E.
    + constructor; [exact Hcur | apply IH; constructor].
    + apply IH. apply Forall_app. split; [exact Hcur|].
      constructor; [exact E | constructor].
Qed.

Lemma or_else_truthy (a : option JsString) (b : JsString) :
  truthy b = true -> truthy (or_else a b) = true.
Proof.
  intros Hb. unfold or_else. destruct a as [s|]; [|exact Hb].
  destruct (truthy s) eqn:E; [exact E | exact Hb].
Qed.

Lemma drop_while_all (p : N -> bool) (l s : JsString) :
  Forall (fun c => p c = true) l -> drop_while p (l ++ s) = drop_while p s.
Proof.
  induction 1 as [|c l Hc _ IH]; cbn [app drop_while]; [reflexivity|].
  rewrite Hc. exact IH.
Qed.

Lemma drop_while_stops (p : N -> bool) (s : JsString) :
  match s with [] => True | c :: _ => p c = false end -> drop_while p s = s.
Proof. destruct s as [|c s]; cbn [drop_while]; [reflexivity|]. intros ->. reflexivity. Qed.

(** [trim] removes the white space around a text that starts and ends
    with something else, and nothing more. *)
Lemma trim_exact (l core r : JsString) :
  Forall (fun c => is_white_space c = true) l ->
  Forall (fun c => is_white_space c = true) r ->
  match core with [] => False | c :: _ => is_white_space c = false end ->
  match rev core with [] => False | c :: _ => is_white_space c = false end ->
  trim (l ++ core ++ r) = core.
Proof.
  intros Hl Hr Hhead Hlast. unfold trim.
  rewrite (drop_while_all _ l _ Hl).
  rewrite (drop_while_stops _ (core ++ r))
    by (destruct core; [contradiction | exact Hhead]).
  rewrite rev_app_distr.
  rewrite (drop_while_all _ (rev r) _)
    by (apply Forall_forall; intros x Hx; rewrite Forall_forall in Hr;
        apply Hr; apply list_elem_of_In; apply List.in_rev;
        apply list_elem_of_In; exact Hx).
  rewrite (drop_while_stops _ (rev core))
    by (destruct (rev core); [contradiction | exact Hlast]).
  apply rev_involutive.
Qed.

Lemma split_path_segment (seg s : JsString) :
  Forall (fun c => is_separator c = false) seg ->
  forall cur, split_path (seg ++ s) cur = split_path s (cur ++ seg).
Proof.
  induction 1 as [|c seg Hc _ IH]; intros cur; cbn [app split_path].
  - rewrite app_nil_r. reflexivity.
  - rewrite Hc, IH, <- app_assoc. reflexivity.
Qed.

Lemma split_path_at_separator (p s : JsString) (c : N) :
  is_separator c = true ->
  forall cur,
    split_path (p ++ c :: s) cur = split_path p cur ++ split_path s [].
Proof.
  intros Hc. induction p as [|x p IH]; intros cur; cbn [app split_path].
  - rewrite Hc. reflexivity.
  - destruct (is_separator x); [rewrite IH; reflexivity | apply IH].
Qed.

Lemma split_path_separators (s cur : JsString) :
  Forall (fun c => is_separator c = true) s ->
  List.filter truthy (split_path s cur) = List.filter truthy [cur].
Proof.
  intros H. revert cur. induction H as [|c s Hc _ IH]; intros cur;
    cbn [split_path]; [reflexivity|].
  rewrite Hc. cbn [List.filter]. rewrite IH. cbn [List.filter truthy].
  destruct (truthy cur); reflexivity.
Qed.

(** X27. A project or a task is never created with an empty name.  The
    project name is the typed name without the white space around it when
    that is not empty; otherwise the last non-empty segment of the folder
    path, the segments being what lies between slashes and backslashes
    (trailing separators are passed over); otherwise, for a path of
    separators only, [Untitled Project].  A task title falls back to
    [New Task] in the same way.  [trim] takes the white space off both ends
    and nothing else. *)
Theorem created_names_not_empty (name repoPath title : JsString) :
  projName name repoPath <> []
  /\ taskTitle title <> []
  /\ (trim name <> [] -> projName name repoPath = trim name)
  /\ (trim name = [] ->
      Forall (fun c => is_separator c = false) (projName name repoPath)
      /\ (forall pre seg post,
            repoPath = pre ++ seg ++ post ->
            seg <> [] ->
            Forall (fun c => is_separator c = false) seg ->
            pre = [] \/ (exists p c, pre = p ++ [c] /\ is_separator c = true) ->
            Forall (fun c => is_separator c = true) post ->
            projName name repoPath = seg)
      /\ (Forall (fun c => is_separator c = true) repoPath ->
          projName name repoPath = js "Untitled Project"))
  /\ (trim title <> [] -> taskTitle title = trim title)
  /\ (trim title = [] -> taskTitle title = js "New Task")
  /\ (forall l core r,
        name = l ++ core ++ r ->
        Forall (fun c => is_white_space c = true) l ->
        Forall (fun c => is_white_space c = true) r ->
        match core with [] => False | c :: _ => is_white_space c = false end ->
        match rev core with [] => False | c :: _ => is_white_space c = false end ->
        trim name = core)
  /\ match trim name with
     | [] => True
     | c :: _ => is_white_space c = false
     end.
Proof.
  assert (Hne : forall s, truthy s = true -> s <> [])
    by (intros [|c s]; [discriminate | discriminate]).
  assert (Htrim : forall s, trim s <> [] -> or_else (Some (trim s)) = fun _ => trim s).
  { intros s H. unfold or_else. destruct (trim s); [contradiction | reflexivity]. }
  split; [apply Hne; unfold projName; do 2 apply or_else_truthy; reflexivity|].
  split; [apply Hne; unfold taskTitle; apply or_else_truthy; reflexivity|].
  split; [intros H; unfold projName; rewrite (Htrim _ H); reflexivity|].
  split; [|split; [|split; [|split]]].
  - intros H. unfold projName. rewrite H. cbn [or_else truthy].
    split; [|split].
    + pose proof (split_path_no_separator repoPath [] (List.Forall_nil _)) as Hs.
      assert (Hf : Forall (Forall (fun c => is_separator c = false))
                     (List.filter truthy (split_path repoPath []))).
      { apply Forall_forall. intros x Hx. apply list_elem_of_In in Hx.
        apply List.filter_In in Hx as [Hx _].
        rewrite Forall_forall in Hs. apply Hs. apply list_elem_of_In. exact Hx. }
      destruct (last _) as [seg|] eqn:Hl; cbn [or_else].
      * destruct (truthy seg); [|repeat constructor].
        rewrite Forall_forall in Hf. apply Hf.
        apply last_Some_elem_of. exact Hl.
      * repeat constructor.
    + intros pre seg post -> Hseg Hnosep Hpre Hpost.
      assert (Hrest : List.filter truthy (split_path (seg ++ post) []) = [seg]).
      { rewrite (split_path_segment seg post Hnosep), app_nil_l.
        rewrite (split_path_separators post seg Hpost). cbn [List.filter].
        destruct seg; [contradiction | reflexivity]. }
      assert (Hlast : last (List.filter truthy
                              (split_path (pre ++ seg ++ post) [])) = Some seg).
      { destruct Hpre as [-> | (p & c & -> & Hc)].
        - rewrite app_nil_l, Hrest. reflexivity.
        - rewrite <- app_assoc. cbn [app].
          rewrite (split_path_at_separator p (seg ++ post) c Hc).
          rewrite List.filter_app, Hrest. apply last_snoc. }
      rewrite Hlast. cbn [or_else]. destruct seg; [contradiction | reflexivity].
    + intros Hall. rewrite (split_path_separators repoPath [] Hall). reflexivity.
  - intros H; unfold taskTitle; rewrite (Htrim _ H); reflexivity.
  - intros H. unfold taskTitle. rewrite H. reflexivity.
  - intros l core r -> Hl Hr Hhead Hlast. apply trim_exact; assumption.
  - unfold trim.
    set (inner := drop_while is_white_space name).
    pose proof (drop_while_head is_white_space name) as Hhead. fold inner in Hhead.
    destruct (rev (drop_while is_white_space (rev inner))) as [|c t] eqn:E;
      [exact I|].
    assert (Hpre : exists k, inner = (c :: t) ++ k).
    { assert (Hsuf : forall l, exists k, l = k ++ drop_while is_white_space l).
      { induction l as [|x l IHl]; simpl; [exists []; reflexivity|].
        destruct (is_white_space x); [|exists []; reflexivity].
        destruct IHl as [k Hk]. exists (x :: k). simpl. f_equal. exact Hk. }
      destruct (Hsuf (rev inner)) as [k Hk].
      exists (rev k). apply (f_equal (@rev N)) in Hk.
      rewrite rev_involutive, rev_app_distr, E in Hk. exact Hk. }
    destruct Hpre as [k Hk]. rewrite Hk in Hhead. exact Hhead.
Qed.

(** A Windows path with a trailing backslash, and a name of blanks. *)
Example created_names_run :
  projName (js "   ") (js "C:\Users\dev\my-repo\") = js "my-repo"
  /\ projName (js " Spec Trail ") (js "/home/dev/repo") = js "Spec Trail"
  /\ projName [] (js "/") = js "Untitled Project"
  /\ taskTitle (js "  ") = js "New Task".
Proof. repeat split. Qed.

Lemma filter_filter_neg (p : Plan.Artifact -> bool) (l : list Plan.Artifact) :
  List.filter p (List.filter (fun a => negb (p a)) l) = [].
Proof.
  induction l as [|a l IH]; simpl; [reflexivity|].
  destruct (p a) eqn:E; simpl; [exact IH|]. rewrite E. exact IH.
Qed.

Lemma filter_idem (p : Plan.Artifact -> bool) (l : list Plan.Artifact) :
  List.filter p (List.filter p l) = List.filter p l.
Proof.
  induction l as [|a l IH]; simpl; [reflexivity|].
  destruct (p a) eqn:E; simpl; [rewrite E, IH; reflexivity | exact IH].
Qed.

(** X28. After [onSavePlan] the page shows what was saved: when the
    back end returns a [plan_md] artifact, it is the plan the page picks
    from the new list; it is the only entry with its id, so an earlier
    version of it is gone from the list; and the artifacts with other ids
    are all still there, in their order. *)
Theorem saved_plan_is_shown (saved : Plan.Artifact)
    (artifacts : list Plan.Artifact) :
  Plan.kind saved = "plan_md" ->
  planArtifact (onSavePlan saved artifacts) = Some saved
  /\ List.filter (fun a => String.eqb (Plan.a_id a) (Plan.a_id saved))
       (onSavePlan saved artifacts) = [saved]
  /\ List.filter (fun a => negb (String.eqb (Plan.a_id a) (Plan.a_id saved)))
       (onSavePlan saved artifacts)
     = List.filter (fun a => negb (String.eqb (Plan.a_id a) (Plan.a_id saved)))
         artifacts.
Proof.
  intros Hkind. unfold planArtifact, onSavePlan. cbn [List.find List.filter].
  rewrite Hkind, !String.eqb_refl. cbn [negb].
  split; [reflexivity|]. split.
  - f_equal.
    apply (filter_filter_neg
             (fun a => String.eqb (Plan.a_id a) (Plan.a_id saved))).
  - apply filter_idem.
Qed.

Lemma saved_plan_is_shown_witness :
  planArtifact (onSavePlan new_plan [old_plan]) = Some new_plan
  /\ onSavePlan new_plan [old_plan] = [new_plan].
Proof.
  destruct (saved_plan_is_shown new_plan [old_plan] eq_refl) as (H & _ & _).
  split; [exact H | reflexivity].
Defined.

End UiFacts.
